(** * omni.bind: diagnostics, attribute annotations, class hierarchy,
      ABI checks and the command-line driver

    A shallow embedding of the Python sources under
    [tools/omni.bind/omni/bind] ([diagnostics.py], [model.py], [extract.py],
    [generate/__init__.py], [cli.py]).  Python objects that are mutated in
    place are modelled by explicit state passing; exceptions by the
    [Outcome] type.  The first part of the file holds the embedding, the
    second part the properties proved about it. *)

From stdpp Require Import base option list strings gmap pretty.
From Stdlib Require Import ZArith Lia Ascii String.

Set Warnings "-register-all".

Local Open Scope string_scope.
Local Open Scope Z_scope.

(* ===================================================================== *)
(** * Part I: the embedding                                               *)
(* ===================================================================== *)

(** ** Python strings

    A [str] is modelled as a [string] of 8-bit code points.  Only the
    methods the sources call are defined. *)

Module Py.

Definition chars (s : string) : list ascii := list_ascii_of_string s.
Definition str (l : list ascii) : string := string_of_list_ascii l.

Definition newline : ascii := "010"%char.

(** [c.isspace()] on the code points below 256. *)
Definition isspace (c : ascii) : bool :=
  let n := nat_of_ascii c in
  ((9 <=? n) && (n <=? 13) || (28 <=? n) && (n <=? 32)
   || (n =? 133) || (n =? 160))%nat.

Definition isdigit (c : ascii) : bool :=
  let n := nat_of_ascii c in ((48 <=? n) && (n <=? 57))%nat.

(** [s.lstrip()], [s.rstrip()], [s.strip()] *)
Fixpoint lstrip_chars (l : list ascii) : list ascii :=
  match l with
  | c :: l' => if isspace c then lstrip_chars l' else l
  | [] => []
  end.

Definition strip (s : string) : string :=
  str (rev (lstrip_chars (rev (lstrip_chars (chars s))))).

(** [s.startswith(p)], [s.endswith(p)] *)
Definition startswith (s p : string) : bool := String.prefix p s.

Definition endswith (s p : string) : bool :=
  String.prefix (str (rev (chars p))) (str (rev (chars s))).

(** [s[n:]] and [s[:-n]] for [n > 0] *)
Definition slice_from (n : nat) (s : string) : string := str (drop n (chars s)).

Definition slice_to_minus (n : nat) (s : string) : string :=
  str (take (List.length (chars s) - n)%nat (chars s)).

(** [s.find(c)] for a one-character [c]: [None] stands for [-1]. *)
Fixpoint find_chars (c : ascii) (l : list ascii) : option nat :=
  match l with
  | [] => None
  | x :: l' => if Ascii.eqb x c then Some 0%nat else S <$> find_chars c l'
  end.

Definition find (s : string) (c : ascii) : option nat := find_chars c (chars s).

(** [s.split(c)] for a one-character separator [c]. *)
Fixpoint split_chars (c : ascii) (l : list ascii) : list (list ascii) :=
  match l with
  | [] => [[]]
  | x :: l' =>
      if Ascii.eqb x c then [] :: split_chars c l'
      else match split_chars c l' with
           | h :: t => (x :: h) :: t
           | [] => [[x]]
           end
  end.

Definition split (s : string) (c : ascii) : list string :=
  str <$> split_chars c (chars s).

(** [f.readlines()] on the text [s]: the lines, each keeping its
    terminating newline. *)
Fixpoint readlines_chars (cur : list ascii) (l : list ascii) : list (list ascii) :=
  match l with
  | [] => match cur with [] => [] | _ => [rev cur] end
  | x :: l' =>
      if Ascii.eqb x newline then rev (x :: cur) :: readlines_chars [] l'
      else readlines_chars (x :: cur) l'
  end.

Definition readlines (s : string) : list string :=
  str <$> readlines_chars [] (chars s).

(** [f.readline()] on a freshly opened file holding [s]. *)
Definition readline (s : string) : string :=
  match readlines s with l :: _ => l | [] => "" end.

(** [s.lower()] on the code points below 256. *)
Definition lower_char (c : ascii) : ascii :=
  let n := nat_of_ascii c in
  if ((65 <=? n) && (n <=? 90)
      || (192 <=? n) && (n <=? 222) && negb (n =? 215))%nat
  then ascii_of_nat (n + 32) else c.

Definition lower (s : string) : string := str (lower_char <$> chars s).

(** [p in s] for strings *)
Fixpoint contains_chars (p l : list ascii) : bool :=
  String.prefix (str p) (str l)
  || match l with [] => false | _ :: l' => contains_chars p l' end.

Definition contains (s p : string) : bool := contains_chars (chars p) (chars s).

(** The longest prefix of [l] without a newline: what a greedy [.+] or
    [.*] of a regular expression matches from the start of [l]. *)
Fixpoint dot_run (l : list ascii) : list ascii :=
  match l with
  | c :: l' => if Ascii.eqb c newline then [] else c :: dot_run l'
  | [] => []
  end.

(** What reading a file in text mode does to line ends: ["\r\n"] and a
    lone ["\r"] become ["\n"]. *)
Definition carriage_return : ascii := "013"%char.

Fixpoint universal_newlines_chars (l : list ascii) : list ascii :=
  match l with
  | [] => []
  | x :: l' =>
      if Ascii.eqb x carriage_return then
        match l' with
        | y :: l'' =>
            if Ascii.eqb y newline then newline :: universal_newlines_chars l''
            else newline :: universal_newlines_chars l'
        | [] => [newline]
        end
      else x :: universal_newlines_chars l'
  end.

Definition universal_newlines (s : string) : string :=
  str (universal_newlines_chars (chars s)).

(** [int(s)] for a string of decimal digits *)
Definition int_of_digits (l : list ascii) : Z :=
  fold_left (fun acc c => 10 * acc + (Z.of_nat (nat_of_ascii c) - 48)) l 0.

(** [str.format(s)] with no arguments: doubled braces are unescaped, and
    any other brace raises ([None]): a replacement field has no argument
    to take, a single brace is malformed. *)
Fixpoint format0_chars (l : list ascii) : option (list ascii) :=
  match l with
  | [] => Some []
  | x :: l' =>
      if Ascii.eqb x "{"%char || Ascii.eqb x "}"%char then
        match l' with
        | y :: l'' => if Ascii.eqb x y then (x ::.) <$> format0_chars l'' else None
        | [] => None
        end
      else (x ::.) <$> format0_chars l'
  end.

Definition format0 (s : string) : option string := str <$> format0_chars (chars s).

End Py.

(** ** Exceptions *)

Inductive Outcome (E A : Type) : Type :=
| Returns (a : A)
| Raises (e : E).
Arguments Returns {E A} a.
Arguments Raises {E A} e.

(* ===================================================================== *)
(** ** diagnostics.py                                                     *)
(* ===================================================================== *)

Module Diagnostics.

(** [class DiagnosticLevel(IntEnum)] *)
Inductive DiagnosticLevel : Type :=
| IGNORED | VERBOSE | NOTE | WARNING | ERROR | FATAL.

Definition level_value (l : DiagnosticLevel) : Z :=
  match l with
  | IGNORED => 0 | VERBOSE => 1 | NOTE => 2
  | WARNING => 3 | ERROR => 4 | FATAL => 5
  end.

(** [DiagnosticLevel(n)]: [None] stands for the [ValueError]. *)
Definition level_of_value (n : Z) : option DiagnosticLevel :=
  match n with
  | 0 => Some IGNORED | 1 => Some VERBOSE | 2 => Some NOTE
  | 3 => Some WARNING | 4 => Some ERROR | 5 => Some FATAL
  | _ => None
  end.

(** The comparisons of [IntEnum] members and the builtin [max] on two
    of them ([max(a, b)] is [b] only when [b > a]). *)
Definition level_lt (a b : DiagnosticLevel) : bool := level_value a <? level_value b.
Definition level_gt (a b : DiagnosticLevel) : bool := level_lt b a.
Definition level_eq (a b : DiagnosticLevel) : bool := level_value a =? level_value b.
Definition level_max (a b : DiagnosticLevel) : DiagnosticLevel :=
  if level_gt b a then b else a.

(** [class SourceLocation(NamedTuple)] *)
Record SourceLocation : Type := MkSourceLocation {
  file : string;
  line : Z;
  column : Z;
}.

(** [class DiagnosticMessage(NamedTuple)]: level, source, message, nested *)
Inductive DiagnosticMessage : Type :=
| MkDiagnosticMessage (level : DiagnosticLevel) (source : option SourceLocation)
                      (message : string) (nested : list DiagnosticMessage).

Definition level (m : DiagnosticMessage) : DiagnosticLevel :=
  let 'MkDiagnosticMessage l _ _ _ := m in l.
Definition source (m : DiagnosticMessage) : option SourceLocation :=
  let 'MkDiagnosticMessage _ s _ _ := m in s.
Definition message (m : DiagnosticMessage) : string :=
  let 'MkDiagnosticMessage _ _ t _ := m in t.
Definition nested (m : DiagnosticMessage) : list DiagnosticMessage :=
  let 'MkDiagnosticMessage _ _ _ n := m in n.

(** [msg._replace(level=..., nested=...)] and [msg._replace(level=...)] *)
Definition replace_level_nested (m : DiagnosticMessage) (l : DiagnosticLevel)
    (n : list DiagnosticMessage) : DiagnosticMessage :=
  MkDiagnosticMessage l (source m) (message m) n.
Definition replace_level (m : DiagnosticMessage) (l : DiagnosticLevel) : DiagnosticMessage :=
  MkDiagnosticMessage l (source m) (message m) (nested m).

(** The exceptions the embedded code raises or lets through. *)
Inductive Exn : Type :=
| DiagnosticException (diagnostic : DiagnosticMessage)
| StopIteration
| TranslationUnitLoadError (text : string)
| ValueError (text : string)
| AttributeError (text : string)
| TypeError (text : string)
| IndexError
| AssertionError
| RecursionError
| FileNotFoundError (path : string)
| FormatError
| Exception (text : string).

(** The three reporter classes.  A [TextDiagnosticReporter] prints every
    message it accepts; [_output] records the messages printed, in
    order (the text layout of [print_into] is not modelled). *)
Inductive ReporterClass : Type :=
| DiagnosticReporter
| DiagnosticReportBlock (_initial_mesasge : DiagnosticMessage)
| TextDiagnosticReporter (_output : list DiagnosticMessage).

(** The fields of one reporter object. *)
Record ReporterObject : Type := MkReporterObject {
  _diagnostics : list DiagnosticMessage;
  _worst_diagnostic_level : DiagnosticLevel;
  _diagnostic_log_level : option DiagnosticLevel;
  _diagnostic_error_level : option DiagnosticLevel;
  _class : ReporterClass;
}.

(** A reporter together with the reporters reached through [_parent],
    nearest first.  Nested scopes form a stack: a block is opened on
    the current reporter and closed before its parent is used again. *)
Record Reporter : Type := MkReporter {
  this : ReporterObject;
  parents : list ReporterObject;
}.

(** [DiagnosticReporter.__init__] *)
Definition init (log_level error_level : option DiagnosticLevel)
    (cls : ReporterClass) : ReporterObject :=
  {| _diagnostics := [];
     _worst_diagnostic_level := IGNORED;
     _diagnostic_log_level := log_level;
     _diagnostic_error_level := error_level;
     _class := cls |}.

(** [_value_for(selector, default)] *)
Fixpoint value_for_chain {T} (selector : ReporterObject -> option T) (default : T)
    (chain : list ReporterObject) : T :=
  match chain with
  | [] => default
  | o :: rest =>
      match selector o with
      | Some v => v
      | None => value_for_chain selector default rest
      end
  end.

Definition _value_for {T} (selector : ReporterObject -> option T) (default : T)
    (r : Reporter) : T :=
  value_for_chain selector default (this r :: parents r).

Definition diagnostic_log_level (r : Reporter) : DiagnosticLevel :=
  _value_for _diagnostic_log_level NOTE r.

Definition diagnostic_error_level (r : Reporter) : DiagnosticLevel :=
  _value_for _diagnostic_error_level ERROR r.

Definition diagnostics (r : Reporter) : list DiagnosticMessage := _diagnostics (this r).

Definition worst_diagnostic_level (r : Reporter) : DiagnosticLevel :=
  _worst_diagnostic_level (this r).

(** The setters of [diagnostic_log_level] and [diagnostic_error_level]. *)
Definition set_this (r : Reporter) (o : ReporterObject) : Reporter :=
  {| this := o; parents := parents r |}.

Definition set_diagnostic_log_level (v : option DiagnosticLevel) (r : Reporter) : Reporter :=
  set_this r
    {| _diagnostics := _diagnostics (this r);
       _worst_diagnostic_level := _worst_diagnostic_level (this r);
       _diagnostic_log_level := v;
       _diagnostic_error_level := _diagnostic_error_level (this r);
       _class := _class (this r) |}.

Definition set_diagnostic_error_level (v : option DiagnosticLevel) (r : Reporter) : Reporter :=
  set_this r
    {| _diagnostics := _diagnostics (this r);
       _worst_diagnostic_level := _worst_diagnostic_level (this r);
       _diagnostic_log_level := _diagnostic_log_level (this r);
       _diagnostic_error_level := v;
       _class := _class (this r) |}.

(** [valid] *)
Definition valid (r : Reporter) : bool :=
  level_lt (worst_diagnostic_level r) (diagnostic_error_level r).

(** [validate]: the first collected message at the worst level is
    raised; [next] on an exhausted generator raises [StopIteration]. *)
Definition validate (r : Reporter) : Outcome Exn unit :=
  if valid r then Returns tt
  else
    match List.filter (fun diag => level_eq (level diag) (worst_diagnostic_level r))
                      (diagnostics r) with
    | diagnostic :: _ => Raises (DiagnosticException diagnostic)
    | [] => Raises StopIteration
    end.

(** [DiagnosticReporter.emit_message] on one object. *)
Definition base_emit_message (log_level : DiagnosticLevel) (msg : DiagnosticMessage)
    (o : ReporterObject) : option DiagnosticMessage * ReporterObject :=
  if level_lt (level msg) log_level then (None, o)
  else
    (Some msg,
     {| _diagnostics := _diagnostics o ++ [msg];
        _worst_diagnostic_level :=
          if level_gt (level msg) (_worst_diagnostic_level o) then level msg
          else _worst_diagnostic_level o;
        _diagnostic_log_level := _diagnostic_log_level o;
        _diagnostic_error_level := _diagnostic_error_level o;
        _class := _class o |}).

(** The effect of [msg2.print_into(self.output, ...)] on the sink. *)
Definition print_into (msg : DiagnosticMessage) (o : ReporterObject) : ReporterObject :=
  match _class o with
  | TextDiagnosticReporter out =>
      {| _diagnostics := _diagnostics o;
         _worst_diagnostic_level := _worst_diagnostic_level o;
         _diagnostic_log_level := _diagnostic_log_level o;
         _diagnostic_error_level := _diagnostic_error_level o;
         _class := TextDiagnosticReporter (out ++ [msg]) |}
  | _ => o
  end.

(** [emit_message], with the override of [TextDiagnosticReporter]. *)
Definition emit_message (msg : DiagnosticMessage) (r : Reporter)
    : option DiagnosticMessage * Reporter :=
  match base_emit_message (diagnostic_log_level r) msg (this r) with
  | (Some msg2, o) => (Some msg2, set_this r (print_into msg2 o))
  | (None, o) => (None, set_this r o)
  end.

(** [emit(level, source, message, *format_args)].  [text] is the result
    of [str.format(message, *format_args)], [None] when it raises; it is
    looked at only when the level passes the filter. *)
Definition emit (lvl : DiagnosticLevel) (src : option SourceLocation)
    (text : option string) (r : Reporter)
    : Outcome Exn (option DiagnosticMessage) * Reporter :=
  if level_lt lvl (diagnostic_log_level r) then (Returns None, r)
  else
    match text with
    | None => (Raises FormatError, r)
    | Some t =>
        let '(res, r') := emit_message (MkDiagnosticMessage lvl src t []) r in
        (Returns res, r')
    end.

Definition verbose src text := emit VERBOSE src text.
Definition note src text := emit NOTE src text.
Definition warning src text := emit WARNING src text.
Definition error src text := emit ERROR src text.
Definition fatal src text := emit FATAL src text.

(** [nest_message]: a new [DiagnosticReportBlock] whose parent is [r]. *)
Definition nest_message (msg : DiagnosticMessage) (r : Reporter) : Reporter :=
  {| this := init None None (DiagnosticReportBlock msg);
     parents := this r :: parents r |}.

(** [nest(level, source, message, *format_args)]; the message text is
    formatted before the block is built. *)
Definition nest (lvl : DiagnosticLevel) (src : option SourceLocation)
    (text : option string) (r : Reporter) : Outcome Exn Reporter :=
  match text with
  | None => Raises FormatError
  | Some t => Returns (nest_message (MkDiagnosticMessage lvl src t []) r)
  end.

(** [root_level] of a block and its setter. *)
Definition root_level (r : Reporter) : option DiagnosticLevel :=
  match _class (this r) with
  | DiagnosticReportBlock initial => Some (level initial)
  | _ => None
  end.

Definition set_root_level (value : DiagnosticLevel) (r : Reporter) : Reporter :=
  match _class (this r) with
  | DiagnosticReportBlock initial =>
      set_this r
        {| _diagnostics := _diagnostics (this r);
           _worst_diagnostic_level := _worst_diagnostic_level (this r);
           _diagnostic_log_level := _diagnostic_log_level (this r);
           _diagnostic_error_level := _diagnostic_error_level (this r);
           _class := DiagnosticReportBlock (replace_level initial value) |}
  | _ => r
  end.

(** The message [DiagnosticReporter.__exit__] logs for an exception
    leaving the scope; [text] is the formatted
    ["Got {} exception during processing: {}"]. *)
Definition exit_with_exception (text : string) (r : Reporter) : Reporter :=
  snd (fatal None (Some text) r).

(** [DiagnosticReportBlock.__exit__].  [exc] is the formatted text for
    the exception leaving the scope, if there is one.  The result is
    the message handed to [parent.emit_message], what the parent
    returned for it, and the parent afterwards. *)
Definition block_exit (exc : option string) (r : Reporter)
    : option (DiagnosticMessage * option DiagnosticMessage * Reporter) :=
  match _class (this r), parents r with
  | DiagnosticReportBlock _, parent :: grandparents =>
      let r1 := match exc with
                | Some text => exit_with_exception text r
                | None => r
                end in
      match _class (this r1) with
      | DiagnosticReportBlock initial =>
          let msg := replace_level_nested initial
                       (level_max (worst_diagnostic_level r1) (level initial))
                       (diagnostics r1) in
          let '(res, p) := emit_message msg {| this := parent; parents := grandparents |} in
          Some (msg, res, p)
      | _ => None
      end
  | _, _ => None
  end.

(** [DiagnosticReporter.__exit__] of a reporter that is not a block. *)
Definition reporter_exit (exc : option string) (r : Reporter) : Outcome Exn unit * Reporter :=
  match exc with
  | None => (validate r, r)
  | Some text => (Returns tt, exit_with_exception text r)
  end.

(** [default_reporter()] and [TextDiagnosticReporter(diagnostic_log_level=l)] *)
Definition text_reporter (log_level : option DiagnosticLevel) : Reporter :=
  {| this := init log_level None (TextDiagnosticReporter []); parents := [] |}.

Definition default_reporter : Reporter := text_reporter None.

(** The worst level among a list of messages ([IGNORED] for none). *)
Definition worst_of (l : list DiagnosticMessage) : DiagnosticLevel :=
  fold_left (fun w m => if level_gt (level m) w then level m else w) l IGNORED.

(** The state of a scope when it closes: an exception leaving it has
    been logged as a fatal message. *)
Definition closing (exc : option string) (r : Reporter) : Reporter :=
  match exc with
  | Some text => exit_with_exception text r
  | None => r
  end.

Definition is_block (o : ReporterObject) : bool :=
  match _class o with
  | DiagnosticReportBlock _ => true
  | _ => false
  end.

(** What a call on a reporter makes of it, leaving the scopes open as
    they are. *)
Inductive Step : Reporter -> Reporter -> Prop :=
| step_emit_message msg r : Step r (snd (emit_message msg r))
| step_emit lvl src text r : Step r (snd (emit lvl src text r))
| step_log_level v r : Step r (set_diagnostic_log_level v r)
| step_error_level v r : Step r (set_diagnostic_error_level v r)
| step_root_level v r : Step r (set_root_level v r)
| step_reporter_exit exc r : Step r (snd (reporter_exit exc r)).

(** The reporters a program can build: a root reporter of either
    plain class, scopes nested on a reporter, and what calls on a
    reporter or on one of its ancestors, and closing a scope, make of
    them. *)
Inductive Reachable : Reporter -> Prop :=
| reach_plain log_level error_level :
    Reachable {| this := init log_level error_level DiagnosticReporter; parents := [] |}
| reach_text log_level error_level :
    Reachable {| this := init log_level error_level (TextDiagnosticReporter []);
                 parents := [] |}
| reach_nest msg r :
    Reachable r -> Reachable (nest_message msg r)
| reach_step r r' :
    Reachable r -> Step r r' -> Reachable r'
| reach_ancestor r parent grandparents ancestors' :
    Reachable r -> parents r = parent :: grandparents ->
    Step {| this := parent; parents := grandparents |} ancestors' ->
    Reachable {| this := this r; parents := this ancestors' :: parents ancestors' |}
| reach_block_exit exc r msg res parent :
    Reachable r -> block_exit exc r = Some (msg, res, parent) -> Reachable parent.

(** The worst level a reporter tracks is the worst level among the
    messages it has collected. *)
Definition consistent (o : ReporterObject) : Prop :=
  _worst_diagnostic_level o = worst_of (_diagnostics o).

(** Every reporter of a stack is consistent, and every block has a
    parent below it. *)
Fixpoint chain_ok (chain : list ReporterObject) : Prop :=
  match chain with
  | [] => True
  | o :: rest => consistent o /\ (is_block o = true -> rest <> []) /\ chain_ok rest
  end.

Definition well_formed (r : Reporter) : Prop := chain_ok (this r :: parents r).

End Diagnostics.

(* ===================================================================== *)
(** ** model.py: [class Attributes]                                       *)
(* ===================================================================== *)

Module Attr.
Import Diagnostics.

(** What an option of an [Attributes] object can hold: its default
    ([None] or [False]), [True] for a bare key, or the text to the
    right of [=].  [count_of] is later made to refer to a [Parameter]
    of the same method, given here by its position in
    [method.parameters]. *)
Inductive Value : Type :=
| VNone
| VBool (b : bool)
| VStr (s : string)
| VParameter (index : nat).

(** Truth value of a [Value] in a condition. *)
Definition truthy (v : Value) : bool :=
  match v with
  | VNone => false
  | VBool b => b
  | VStr s => negb (String.eqb s "")
  | VParameter _ => true
  end.

(** An [Attributes] object: the instance dictionary without its
    [pointee] entry, and the [pointee] entry.  [pointee] starts as
    [None], is normally set to a nested [Attributes] object, and can be
    overwritten with a plain value by [setattr]. *)
Inductive Attributes : Type :=
| MkAttributes (dict : gmap string Value) (pointee : Pointee)
with Pointee : Type :=
| PValue (v : Value)
| PAttributes (a : Attributes).

Definition dict (a : Attributes) : gmap string Value :=
  let 'MkAttributes d _ := a in d.
Definition pointee (a : Attributes) : Pointee :=
  let 'MkAttributes _ p := a in p.

Definition pointee_truthy (p : Pointee) : bool :=
  match p with
  | PValue v => truthy v
  | PAttributes _ => true
  end.

(** The [attrs] dictionary of [__init__], in source order. *)
Definition attrs : list (string * Value) :=
  [ ("not_null", VBool false);
    ("input", VBool false);
    ("output", VBool false);
    ("no_py", VBool false);
    ("no_api", VBool false);
    ("flag", VBool false);
    ("constant", VBool false);
    ("prefix", VNone);
    ("c_str", VBool false);
    ("count", VNone);
    ("consumer", VNone);
    ("count_of", VNone);
    ("not_prop", VBool false);
    ("allow_unsafe_abi_in_test", VBool false);
    ("init_arg", VBool false);
    ("vec", VBool false);
    ("opaque", VBool false);
    ("py_get", VBool false);
    ("py_set", VBool false);
    ("py_not_prop", VBool false);
    ("py_name", VNone);
    ("bind_class", VBool false);
    ("ref", VBool false);
    ("no_acquire", VBool false);
    ("throw_result", VBool false);
    ("returned", VBool false);
    ("throw_if_null", VBool false) ].

(** [Attributes(None)] *)
Definition Attributes_None : Attributes :=
  MkAttributes (list_to_map attrs) (PValue VNone).

(** [getattr(a, key)] for an option name; an absent name reads as
    [None] here (the sources only read the names of [attrs]). *)
Definition get (a : Attributes) (key : string) : Value :=
  default VNone (dict a !! key).

(** Names found on the class rather than in the instance dictionary:
    the three functions of [class Attributes], and what every instance
    of a plain class inherits from [object]. *)
Definition class_names : list string :=
  [ "_parse"; "_get_key_and_attributes"; "is_valid" ].

Definition object_names : list string :=
  [ "__class__"; "__delattr__"; "__dict__"; "__dir__"; "__doc__"; "__eq__";
    "__format__"; "__ge__"; "__getattribute__"; "__gt__"; "__hash__";
    "__init__"; "__init_subclass__"; "__le__"; "__lt__"; "__module__";
    "__ne__"; "__new__"; "__reduce__"; "__reduce_ex__"; "__repr__";
    "__setattr__"; "__sizeof__"; "__str__"; "__subclasshook__";
    "__weakref__" ].

Definition mem (key : string) (l : list string) : bool :=
  existsb (String.eqb key) l.

(** [hasattr(attributes, key)] *)
Definition hasattr (a : Attributes) (key : string) : bool :=
  match dict a !! key with
  | Some _ => true
  | None => String.eqb key "pointee" || mem key class_names || mem key object_names
  end.

(** [setattr(attributes, key, value)] when [hasattr] holds.  Three of
    the inherited names refuse the assignment; every other name lands
    in the instance dictionary. *)
Definition setattr (a : Attributes) (key : string) (value : Value)
    : Outcome Exn Attributes :=
  if String.eqb key "pointee" then Returns (MkAttributes (dict a) (PValue value))
  else if String.eqb key "__class__" || String.eqb key "__dict__" then
    Raises (TypeError key)
  else if String.eqb key "__weakref__" then Raises (AttributeError key)
  else Returns (MkAttributes (<[key := value]> (dict a)) (pointee a)).

(** The object [_get_key_and_attributes] hands back is addressed by its
    depth below [self]; at that depth sits an [Attributes] object or,
    after [pointee] was overwritten, a plain value. *)
Inductive Target : Type :=
| TAttributes (a : Attributes)
| TValue (v : Value).

Fixpoint target (level : nat) (self : Attributes) : Target :=
  match level with
  | O => TAttributes self
  | S n =>
      match pointee self with
      | PAttributes a => target n a
      | PValue v => TValue v
      end
  end.

Fixpoint store (level : nat) (new : Attributes) (self : Attributes) : Attributes :=
  match level with
  | O => new
  | S n =>
      match pointee self with
      | PAttributes a => MkAttributes (dict self) (PAttributes (store n new a))
      | PValue _ => self
      end
  end.

(** The leading [*] of a key. *)
Fixpoint strip_stars (l : list ascii) : nat * list ascii :=
  match l with
  | c :: l' =>
      if Ascii.eqb c "*"%char then
        let '(level, key) := strip_stars l' in (S level, key)
      else (O, l)
  | [] => (O, [])
  end.

(** The [for i in range(level)] loop of [_get_key_and_attributes]:
    [self] with the missing [pointee] objects created.  Reading
    [.pointee] of a plain value raises. *)
Fixpoint descend (level : nat) (self : Attributes) : Outcome Exn Attributes :=
  match level with
  | O => Returns self
  | S n =>
      let p := if pointee_truthy (pointee self) then pointee self
               else PAttributes Attributes_None in
      match p with
      | PAttributes a =>
          match descend n a with
          | Returns a' => Returns (MkAttributes (dict self) (PAttributes a'))
          | Raises e => Raises e
          end
      | PValue v =>
          match n with
          | O => Returns (MkAttributes (dict self) p)
          | S _ => Raises (AttributeError "pointee")
          end
      end
  end.

(** [_get_key_and_attributes(key)]: the key without its stars, the
    depth of the object to assign to, and [self] afterwards. *)
Definition _get_key_and_attributes (key : string) (self : Attributes)
    : Outcome Exn (string * nat * Attributes) :=
  let '(level, k) := strip_stars (Py.chars key) in
  match descend level self with
  | Returns self' => Returns (Py.str k, level, self')
  | Raises e => Raises e
  end.

(** The body of the [for t in tokens] loop of [_parse]. *)
Definition parse_token (t : string) (self : Attributes) : Outcome Exn Attributes :=
  let split :=
    match Py.find t "="%char with
    | Some _ =>
        match Py.strip <$> Py.split t "="%char with
        | [left_; value] => Returns (left_, VStr value)
        | _ => Raises (ValueError "unpack")
        end
    | None => Returns (t, VBool true)
    end in
  match split with
  | Raises e => Raises e
  | Returns (left_, value) =>
      match _get_key_and_attributes left_ self with
      | Raises e => Raises e
      | Returns (key, level, self') =>
          match target level self' with
          | TAttributes attributes =>
              let assigned :=
                if hasattr attributes key then setattr attributes key value
                else if String.eqb key "in" then setattr attributes "input" value
                else if String.eqb key "out" then setattr attributes "output" value
                else if String.eqb key "return" then setattr attributes "returned" value
                else Raises (ValueError ("unknown OMNI_ATTR: '" ++ key ++ "'")) in
              match assigned with
              | Returns attributes' => Returns (store level attributes' self')
              | Raises e => Raises e
              end
          | TValue v =>
              (* [attributes] is a [bool] or [str]: an attribute it has
                 cannot be assigned, [in], [out] and [return] it lacks
                 and cannot be given, and any other key is unknown *)
              if String.eqb key "in" || String.eqb key "out" || String.eqb key "return"
              then Raises (AttributeError key)
              else Raises (Exception ("AttributeError or ValueError: " ++ key))
          end
      end
  end.

Fixpoint parse_tokens (tokens : list string) (self : Attributes)
    : Outcome Exn Attributes :=
  match tokens with
  | [] => Returns self
  | t :: rest =>
      match parse_token t self with
      | Returns self' => parse_tokens rest self'
      | Raises e => Raises e
      end
  end.

(** [re.match("^omni_attr:(.+)$", spelling)]: the group, when the
    spelling matches.  [.] does not match a newline and [$] matches at
    the end or before a final newline. *)
Definition match_omni_attr (spelling : string) : option string :=
  if Py.startswith spelling "omni_attr:" then
    let rest := drop 10 (Py.chars spelling) in
    let group := Py.dot_run rest in
    let tail := drop (List.length group) rest in
    match group, tail with
    | [], _ => None
    | _, [] => Some (Py.str group)
    | _, [c] => if Ascii.eqb c Py.newline then Some (Py.str group) else None
    | _, _ => None
    end
  else None.

(** [_parse(cursor)], from the spelling of the annotation cursor. *)
Definition _parse (spelling : string) (self : Attributes) : Outcome Exn Attributes :=
  match match_omni_attr spelling with
  | Some s => parse_tokens (Py.strip <$> Py.split s ","%char) self
  | None => Raises (ValueError ("unknown omni attr format: " ++ spelling))
  end.

(** [Attributes(cursor)] *)
Definition __init__ (cursor : option string) : Outcome Exn Attributes :=
  match cursor with
  | None => Returns Attributes_None
  | Some spelling => _parse spelling Attributes_None
  end.

(** [Attributes.is_valid(cursor)] *)
Definition is_valid (spelling : string) : bool := Py.startswith spelling "omni_attr:".

(** The key of a token as [_parse] takes it, and the number of [*] it
    starts with. *)
Definition token_key (t : string) : string :=
  match Py.find t "="%char with
  | Some _ =>
      match Py.strip <$> Py.split t "="%char with
      | left_ :: _ => left_
      | [] => t
      end
  | None => t
  end.

Definition token_stars (t : string) : nat := fst (strip_stars (Py.chars (token_key t))).

(** The tokens of an annotation, and the largest number of [*] on any of
    their keys. *)
Definition tokens_of (spelling : string) : list string :=
  match match_omni_attr spelling with
  | Some s => Py.strip <$> Py.split s ","%char
  | None => []
  end.

Definition deepest_stars (spelling : string) : nat :=
  fold_right Nat.max O (token_stars <$> tokens_of spelling).

(** Number of [Attributes] objects below [a] along [pointee]. *)
Fixpoint pointee_depth (a : Attributes) : nat :=
  match a with
  | MkAttributes _ (PAttributes a') => S (pointee_depth a')
  | MkAttributes _ (PValue _) => O
  end.

End Attr.

(* ===================================================================== *)
(** ** The front end: libclang cursors and types                          *)
(* ===================================================================== *)

(** The syntax tree is read through libclang.  A translation unit is
    modelled as a table of cursors; a cursor is an index into the table,
    and every index outside the table is a cursor of kind
    [NO_DECL_FOUND].  Each field below is the result of the libclang
    query of the same name. *)

Module Clang.
Import Diagnostics.

Inductive CursorKind : Type :=
| TRANSLATION_UNIT | NAMESPACE
| STRUCT_DECL | UNION_DECL | CLASS_DECL | ENUM_DECL
| FIELD_DECL | CXX_METHOD | PARM_DECL | ANNOTATE_ATTR
| CONSTRUCTOR | CXX_ACCESS_SPEC_DECL
| CLASS_TEMPLATE | TEMPLATE_TYPE_PARAMETER | TEMPLATE_NON_TYPE_PARAMETER
| CXX_BASE_SPECIFIER | TYPE_REF | TEMPLATE_REF
| NO_DECL_FOUND
| OTHER_CURSOR_KIND (name : string).

Inductive TypeKind : Type :=
| INVALID | VOID | CHAR_U | CHAR_S | POINTER | LVALUEREFERENCE | RECORD
| OTHER_TYPE_KIND (name : string).

Inductive AccessSpecifier : Type :=
| AS_INVALID | PUBLIC | PROTECTED | PRIVATE | NONE.

Inductive ExceptionSpecificationKind : Type :=
| EXC_NONE | BASIC_NOEXCEPT | OTHER_EXCEPTION_SPECIFICATION (name : string).

Definition Cursor : Type := nat.

(** A [clang.cindex.Type]. *)
Inductive CType : Type := MkCType {
  type_kind : TypeKind;                    (* t.kind *)
  type_spelling : string;                  (* t.spelling *)
  is_const_qualified : bool;               (* t.is_const_qualified() *)
  get_declaration : Cursor;                (* t.get_declaration() *)
  canonical_is_pod : bool;                 (* t.get_canonical().is_pod() *)
  canonical_get_declaration : Cursor;      (* t.get_canonical().get_declaration() *)
  pointee : option CType;                  (* t.get_pointee(), for a pointer *)
  template_arguments : list CType;         (* clang_Type_getTemplateArgumentAsType(t, i) *)
}.

Definition invalid_type (decl : Cursor) : CType :=
  {| type_kind := INVALID; type_spelling := ""; is_const_qualified := false;
     get_declaration := decl; canonical_is_pod := false;
     canonical_get_declaration := decl; pointee := None;
     template_arguments := [] |}.

(** [t.get_pointee()]: an invalid type when [t] has no pointee. *)
Definition get_pointee (t : CType) : CType :=
  default (invalid_type (get_declaration t)) (pointee t).

(** A [clang.cindex.Cursor]. *)
Record CursorData : Type := MkCursorData {
  kind : CursorKind;
  spelling : string;
  displayname : string;
  get_usr : string;
  location : SourceLocation;
  type : CType;                            (* cursor.type *)
  result_type : CType;                     (* cursor.type.get_result() *)
  canonical : Cursor;                      (* cursor.canonical *)
  get_children : list Cursor;
  referenced : option Cursor;              (* None when libclang has none *)
  get_definition : option Cursor;          (* cursor.get_definition() *)
  specialized_template : option Cursor;    (* clang_getSpecializedCursorTemplate *)
  access_specifier : AccessSpecifier;
  is_virtual_method : bool;
  is_pure_virtual_method : bool;
  exception_specification_kind : ExceptionSpecificationKind;
}.

Definition no_decl_found (c : Cursor) : CursorData :=
  {| kind := NO_DECL_FOUND; spelling := ""; displayname := ""; get_usr := "";
     location := MkSourceLocation "None" 0 0;
     type := invalid_type c; result_type := invalid_type c; canonical := c;
     get_children := []; referenced := None; get_definition := None;
     specialized_template := None;
     access_specifier := AS_INVALID; is_virtual_method := false;
     is_pure_virtual_method := false; exception_specification_kind := EXC_NONE |}.

Definition TranslationUnit : Type := list CursorData.

Definition cursor (tu : TranslationUnit) (c : Cursor) : CursorData :=
  default (no_decl_found c) (tu !! c).

Definition cursor_kind_eqb (a b : CursorKind) : bool :=
  match a, b with
  | TRANSLATION_UNIT, TRANSLATION_UNIT | NAMESPACE, NAMESPACE
  | STRUCT_DECL, STRUCT_DECL | UNION_DECL, UNION_DECL
  | CLASS_DECL, CLASS_DECL | ENUM_DECL, ENUM_DECL
  | FIELD_DECL, FIELD_DECL | CXX_METHOD, CXX_METHOD
  | PARM_DECL, PARM_DECL | ANNOTATE_ATTR, ANNOTATE_ATTR
  | CONSTRUCTOR, CONSTRUCTOR | CXX_ACCESS_SPEC_DECL, CXX_ACCESS_SPEC_DECL
  | CLASS_TEMPLATE, CLASS_TEMPLATE
  | TEMPLATE_TYPE_PARAMETER, TEMPLATE_TYPE_PARAMETER
  | TEMPLATE_NON_TYPE_PARAMETER, TEMPLATE_NON_TYPE_PARAMETER
  | CXX_BASE_SPECIFIER, CXX_BASE_SPECIFIER
  | TYPE_REF, TYPE_REF | TEMPLATE_REF, TEMPLATE_REF
  | NO_DECL_FOUND, NO_DECL_FOUND => true
  | OTHER_CURSOR_KIND x, OTHER_CURSOR_KIND y => String.eqb x y
  | _, _ => false
  end.

Definition type_kind_eqb (a b : TypeKind) : bool :=
  match a, b with
  | INVALID, INVALID | VOID, VOID | CHAR_U, CHAR_U | CHAR_S, CHAR_S
  | POINTER, POINTER | LVALUEREFERENCE, LVALUEREFERENCE | RECORD, RECORD => true
  | OTHER_TYPE_KIND x, OTHER_TYPE_KIND y => String.eqb x y
  | _, _ => false
  end.

Definition access_eqb (a b : AccessSpecifier) : bool :=
  match a, b with
  | AS_INVALID, AS_INVALID | PUBLIC, PUBLIC | PROTECTED, PROTECTED
  | PRIVATE, PRIVATE | NONE, NONE => true
  | _, _ => false
  end.

Definition exception_specification_eqb (a b : ExceptionSpecificationKind) : bool :=
  match a, b with
  | EXC_NONE, EXC_NONE | BASIC_NOEXCEPT, BASIC_NOEXCEPT => true
  | OTHER_EXCEPTION_SPECIFICATION x, OTHER_EXCEPTION_SPECIFICATION y => String.eqb x y
  | _, _ => false
  end.

(** A [clang.cindex.Diagnostic]: severity, location, the text of
    [format(0)], and the children. *)
Inductive Severity : Type := Ignored | Note | Warning | Error | Fatal.

Inductive Diagnostic : Type :=
| MkDiagnostic (severity : Severity) (diagnostic_location : SourceLocation)
               (format : string) (children : list Diagnostic).

(** A parsed translation unit: its cursors, its name, the diagnostics
    of the parse, the declarations the indexer visits, and the
    resolved paths of [get_includes()]. *)
Record TranslationUnitData : Type := MkTranslationUnitData {
  cursors : TranslationUnit;
  translation_unit_cursor : Cursor;
  translation_unit_spelling : string;
  diagnostics_of_parse : list Diagnostic;
  includes : list string;
}.

(** [str(access)] as it appears in a formatted message. *)
Definition access_name (a : AccessSpecifier) : string :=
  match a with
  | AS_INVALID => "AccessSpecifier.INVALID"
  | PUBLIC => "AccessSpecifier.PUBLIC"
  | PROTECTED => "AccessSpecifier.PROTECTED"
  | PRIVATE => "AccessSpecifier.PRIVATE"
  | NONE => "AccessSpecifier.NONE"
  end.

End Clang.

(** ** Code that reports: state and exceptions

    A computation reads and updates the stack of open reporters and
    either returns or raises.  What was reported before an exception
    stays reported. *)

Module Run.
Import Diagnostics.

(** Computations over a state [S] that return or raise. *)
Definition ST (S A : Type) : Type := S -> Outcome Exn A * S.

Definition ret {S A} (a : A) : ST S A := fun s => (Returns a, s).
Definition raise {S A} (e : Exn) : ST S A := fun s => (Raises e, s).
Definition bind {S A B} (m : ST S A) (k : A -> ST S B) : ST S B :=
  fun s =>
    match m s with
    | (Returns a, s') => k a s'
    | (Raises e, s') => (Raises e, s')
    end.
Definition lift {S A} (o : Outcome Exn A) : ST S A := fun s => (o, s).

(** [try: m  except ...: h], where [h] sees the exception. *)
Definition catch {S A} (m : ST S A) (h : Exn -> ST S A) : ST S A :=
  fun s =>
    match m s with
    | (Returns a, s') => (Returns a, s')
    | (Raises e, s') => h e s'
    end.

Definition when {S} (b : bool) (m : ST S unit) : ST S unit := if b then m else ret tt.

Fixpoint for_each {S A} (l : list A) (body : A -> ST S unit) : ST S unit :=
  match l with
  | [] => ret tt
  | x :: rest => bind (body x) (fun _ => for_each rest body)
  end.

(** Code that only reports: the state is the stack of open reporters. *)
Definition M (A : Type) : Type := ST Reporter A.

(** The reporter at the bottom of the stack, the one the driver
    creates.  [Hierarchy] keeps a reference to it in [_reporter]. *)
Definition root (r : Reporter) : Reporter :=
  {| this := List.last (parents r) (this r); parents := [] |}.

Definition set_root (root' : ReporterObject) (r : Reporter) : Reporter :=
  match parents r with
  | [] => {| this := root'; parents := [] |}
  | _ => {| this := this r; parents := removelast (parents r) ++ [root'] |}
  end.

Definition on_root {A} (m : M A) : M A :=
  fun r => let '(res, r0) := m (root r) in (res, set_root (this r0) r).

(** *** What a computation may do to the reporters

    [same_class o o']: [o'] is the reporter [o] later on: same class,
    and for a block the same opening message.  [grown P o o']: moreover
    the configuration is the same and the diagnostics of [o'] are those
    of [o] followed by messages that satisfy [P].  [extends P Q r r']:
    the reporter on top has grown by [P], each of its ancestors by [Q],
    and no scope was left open or closed. *)
Definition same_class (o o' : ReporterObject) : Prop :=
  match _class o, _class o' with
  | DiagnosticReporter, DiagnosticReporter => True
  | DiagnosticReportBlock initial, DiagnosticReportBlock initial' => initial = initial'
  | TextDiagnosticReporter _, TextDiagnosticReporter _ => True
  | _, _ => False
  end.

Definition grown (P : DiagnosticMessage -> Prop) (o o' : ReporterObject) : Prop :=
  (exists l, _diagnostics o' = (_diagnostics o ++ l)%list /\ Forall P l)
  /\ _diagnostic_log_level o' = _diagnostic_log_level o
  /\ _diagnostic_error_level o' = _diagnostic_error_level o
  /\ same_class o o'.

Definition extends (P Q : DiagnosticMessage -> Prop) (r r' : Reporter) : Prop :=
  grown P (this r) (this r') /\ Forall2 (grown Q) (parents r) (parents r').

(** A computation that only appends: [P] bounds what it adds to the
    reporter it is run on, [Q] what it adds to the ancestors. *)
Definition Mono {A} (P Q : DiagnosticMessage -> Prop) (m : M A) : Prop :=
  forall r, extends P Q r (snd (m r)).

(** A computation whose result does not depend on the reporters. *)
Definition Pure {A} (m : M A) : Prop :=
  forall r1 r2, fst (m r1) = fst (m r2).

End Run.

Notation "x <- m ;; k" := (Run.bind m (fun x => k))
  (at level 100, m at next level, right associativity).
Notation "m ;;; k" := (Run.bind m (fun _ => k))
  (at level 100, right associativity).

(* ===================================================================== *)
(** ** extract.py                                                         *)
(* ===================================================================== *)

Module Extract.
Import Diagnostics Clang Run.

(** One entry of [Hierarchy._usr2info]. *)
Record ClassInfo : Type := MkClassInfo {
  info_cursor : Cursor;        (* ["cursor"] *)
  bases : list Cursor;         (* ["bases"] *)
}.

(** [class Hierarchy]; its [_reporter] is the root of the reporter
    stack (see [Run.on_root]). *)
Record Hierarchy : Type := MkHierarchy {
  _usr2info : gmap string ClassInfo;
}.

(** The text an exception leaving a [with] block is logged with:
    ["Got {} exception during processing: {}"] filled with the name of
    the exception type and [str(exc_val)] (the layout of the latter is
    not modelled beyond its message). *)
Definition exn_name (e : Exn) : string :=
  match e with
  | DiagnosticException _ => "DiagnosticException"
  | StopIteration => "StopIteration"
  | TranslationUnitLoadError _ => "TranslationUnitLoadError"
  | ValueError _ => "ValueError"
  | AttributeError _ => "AttributeError"
  | TypeError _ => "TypeError"
  | IndexError => "IndexError"
  | AssertionError => "AssertionError"
  | RecursionError => "RecursionError"
  | FileNotFoundError _ => "FileNotFoundError"
  | FormatError => "KeyError"
  | Exception _ => "Exception"
  end.

Definition exn_str (e : Exn) : string :=
  match e with
  | DiagnosticException m => message m
  | TranslationUnitLoadError t | ValueError t | AttributeError t
  | TypeError t | FileNotFoundError t | Exception t => t
  | _ => ""
  end.

Definition exit_text (e : Exn) : string :=
  "Got " ++ exn_name e ++ " exception during processing: " ++ exn_str e.

(** [with reporter.nest(level, source, text) as subreporter: body] *)
Definition with_nest {A} (lvl : DiagnosticLevel) (src : option SourceLocation)
    (text : string) (body : M A) : M A :=
  fun r =>
    let sub := nest_message (MkDiagnosticMessage lvl src text []) r in
    let '(res, sub') := body sub in
    let exc := match res with
               | Raises e => Some (exit_text e)
               | Returns _ => None
               end in
    match block_exit exc sub' with
    | Some (_, _, parent) => (res, parent)
    | None => (res, sub')
    end.

Section TranslationUnit.

Variable tu : TranslationUnit.

Definition source_of (c : Cursor) : option SourceLocation :=
  Some (location (cursor tu c)).

(** [reporter.<level>(cursor, text)] with a text free of format fields *)
Definition report (lvl : DiagnosticLevel) (src : option SourceLocation)
    (text : string) : M unit :=
  emit lvl src (Some text) ;;; ret tt.

Definition is_reference (t : CType) : bool := type_kind_eqb LVALUEREFERENCE (type_kind t).
Definition is_void (t : CType) : bool := type_kind_eqb VOID (type_kind t).
Definition is_char (t : CType) : bool :=
  type_kind_eqb CHAR_S (type_kind t) || type_kind_eqb CHAR_U (type_kind t).
Definition is_pointer (t : CType) : bool := type_kind_eqb POINTER (type_kind t).

(** [get_attributes(cursor, reporter)] *)
Fixpoint get_attributes_loop (c : Cursor) (children : list Cursor)
    (attributes : option Attr.Attributes) : M (option Attr.Attributes) :=
  match children with
  | [] => ret attributes
  | child :: rest =>
      if cursor_kind_eqb ANNOTATE_ATTR (kind (cursor tu child))
         && Attr.is_valid (spelling (cursor tu child))
      then
        match attributes with
        | None =>
            a <- lift (Attr.__init__ (Some (spelling (cursor tu child)))) ;;
            get_attributes_loop c rest (Some a)
        | Some _ =>
            report ERROR (source_of c)
              "OMNI_ATTR cannot be specified more than once on a declaration" ;;;
            get_attributes_loop c rest attributes
        end
      else get_attributes_loop c rest attributes
  end.

Definition get_attributes (c : Cursor) : M (option Attr.Attributes) :=
  get_attributes_loop c (get_children (cursor tu c)) None.

(** Position of the first element satisfying [f]. *)
Fixpoint find_index {A} (f : A -> bool) (l : list A) : option nat :=
  match l with
  | [] => None
  | x :: rest => if f x then Some O else S <$> find_index f rest
  end.

Definition is_template_parameter (child : Cursor) : bool :=
  cursor_kind_eqb TEMPLATE_TYPE_PARAMETER (kind (cursor tu child))
  || cursor_kind_eqb TEMPLATE_NON_TYPE_PARAMETER (kind (cursor tu child)).

(** The [for child in node.get_children()] loop of the
    [CLASS_TEMPLATE] case: the template parameters in order, and the
    last base specifier. *)
Fixpoint template_children (children : list Cursor) (template_params : list Cursor)
    (base : option Cursor) : list Cursor * option Cursor :=
  match children with
  | [] => (template_params, base)
  | child :: rest =>
      if is_template_parameter child then
        template_children rest (template_params ++ [child]) base
      else if cursor_kind_eqb CXX_BASE_SPECIFIER (kind (cursor tu child)) then
        template_children rest template_params (Some child)
      else template_children rest template_params base
  end.

(** The inner [for param in template_params] loop: every parameter
    spelled like the argument reads [template_input[i]]. *)
Fixpoint match_template_param (template_input : list CType) (i : nat)
    (base_template_param_type : CType) (template_params : list Cursor)
    (matched_type : CType) : Outcome Exn CType :=
  match template_params with
  | [] => Returns matched_type
  | param :: rest =>
      if String.eqb (type_spelling base_template_param_type) (spelling (cursor tu param))
      then match template_input !! i with
           | Some t =>
               match_template_param template_input i base_template_param_type rest t
           | None => Raises IndexError
           end
      else match_template_param template_input i base_template_param_type rest matched_type
  end.

(** The [for i in range(num_base_template_params)] loop. *)
Fixpoint base_template_inputs (template_input : list CType) (template_params : list Cursor)
    (i : nat) (arguments : list CType) (base_template_input : list CType)
    : Outcome Exn (list CType) :=
  match arguments with
  | [] => Returns base_template_input
  | base_template_param_type :: rest =>
      match match_template_param template_input i base_template_param_type
              template_params base_template_param_type with
      | Returns matched_type =>
          base_template_inputs template_input template_params (S i) rest
            (base_template_input ++ [matched_type])
      | Raises e => Raises e
      end
  end.

(** [Hierarchy._get_template_base(node, template_input)].  [depth] is
    the number of nested calls the interpreter still allows.  The two
    [print] calls of the unhandled cases are left out. *)
Fixpoint _get_template_base (depth : nat) (node : Cursor) (template_input : list CType)
    : Outcome Exn (option Cursor) :=
  match depth with
  | O => Raises RecursionError
  | S depth' =>
      let n := cursor tu node in
      if cursor_kind_eqb STRUCT_DECL (kind n) || cursor_kind_eqb CLASS_DECL (kind n) then
        match specialized_template n with
        | Some specialization =>
            _get_template_base depth' specialization (template_arguments (type n))
        | None => Returns (Some node)
        end
      else if cursor_kind_eqb TEMPLATE_REF (kind n) then
        match referenced n with
        | Some ref => _get_template_base depth' ref template_input
        | None => Raises (AttributeError "kind")
        end
      else if cursor_kind_eqb CLASS_TEMPLATE (kind n) then
        let '(template_params, base) := template_children (get_children n) [] None in
        match base with
        | None => Returns None
        | Some base =>
            (* is the base class one of the template parameters? *)
            match find_index (fun param => String.eqb (spelling (cursor tu param))
                                                      (spelling (cursor tu base)))
                             template_params with
            | Some i =>
                match template_input !! i with
                | Some t => Returns (Some (get_declaration t))
                | None => Raises IndexError
                end
            | None =>
                match get_children (cursor tu base) with
                | [] => Raises IndexError
                | base_child :: _ =>
                    if cursor_kind_eqb TYPE_REF (kind (cursor tu base_child)) then
                      match referenced (cursor tu base_child) with
                      | Some ref => _get_template_base depth' ref []
                      | None => Raises (AttributeError "kind")
                      end
                    else if cursor_kind_eqb TEMPLATE_REF (kind (cursor tu base_child)) then
                      match base_template_inputs template_input template_params O
                              (template_arguments (type (cursor tu base))) [] with
                      | Returns base_template_input =>
                          _get_template_base depth' base_child base_template_input
                      | Raises e => Raises e
                      end
                    else Returns None
                end
            end
        end
      else if cursor_kind_eqb NO_DECL_FOUND (kind n) then Returns None
      else Returns None
  end.

(** [Hierarchy._get_hierarchy(node, out)] *)
Fixpoint _get_hierarchy (depth : nat) (self : Hierarchy) (node : Cursor)
    (out : list Cursor) : M (list Cursor) :=
  match depth with
  | O => raise RecursionError
  | S depth' =>
      let canonical := canonical_get_declaration (type (cursor tu node)) in
      if negb (Nat.eqb node canonical) then
        on_root (verbose None
                   (Some ("not canonical: can:" ++ displayname (cursor tu canonical)))) ;;;
        _get_hierarchy depth' self canonical out
      else
        let out := (out ++ [node])%list in
        let usr := get_usr (cursor tu node) in
        match _usr2info self !! usr with
        | Some class_info =>
            on_root (verbose None (Some ("usr: " ++ usr))) ;;;
            match bases class_info with
            | [base] => _get_hierarchy depth' self base out
            | _ => ret out
            end
        | None =>
            base <- lift (_get_template_base depth' node []) ;;
            match base with
            | Some base =>
                if negb (Nat.eqb base node) then _get_hierarchy depth' self base out
                else ret out
            | None => ret out
            end
        end
  end.

(** [Hierarchy.get_hierarchy(cursor)] for a cursor argument *)
Definition get_hierarchy (depth : nat) (self : Hierarchy) (c : Cursor) : M (list Cursor) :=
  _get_hierarchy depth self c [].

(** [chain[-1]] *)
Definition chain_last (chain : list Cursor) : M Cursor :=
  match List.last (Some <$> chain) None with
  | Some c => ret c
  | None => raise IndexError
  end.

Definition is_interface (depth : nat) (self : Hierarchy) (c : Cursor) : M bool :=
  chain <- get_hierarchy depth self c ;;
  root <- chain_last chain ;;
  ret (String.eqb (type_spelling (type (cursor tu root))) "omni::core::IObject_abi").

Definition is_api (depth : nat) (self : Hierarchy) (c : Cursor) : M bool :=
  chain <- get_hierarchy depth self c ;;
  ret match chain with
      | _ :: second :: _ =>
          Py.startswith (type_spelling (type (cursor tu second))) "omni::core::Generated<"
      | _ => false
      end.

Definition is_kit_interface (depth : nat) (self : Hierarchy) (c : Cursor) : M bool :=
  chain <- get_hierarchy depth self c ;;
  root <- chain_last chain ;;
  ret (String.eqb (type_spelling (type (cursor tu root))) "carb::IObject").

Definition is_interface_pointer (depth : nat) (self : Hierarchy) (t : CType) : M bool :=
  if is_pointer t then is_interface depth self (canonical_get_declaration (get_pointee t))
  else ret false.

Definition is_kit_interface_pointer (depth : nat) (self : Hierarchy) (t : CType) : M bool :=
  if is_pointer t then is_kit_interface depth self (canonical_get_declaration (get_pointee t))
  else ret false.

(** [is_abi_safe_type(hierarchy, attributes, t, reporter)], given the
    function to call for [is_standard_layout]. *)
Definition is_abi_safe_type_with (is_standard_layout : CType -> M bool)
    (attributes : option Attr.Attributes) (t : CType) : M bool :=
  let allow_unsafe_abi :=
    match attributes with
    | Some a => Attr.truthy (Attr.get a "allow_unsafe_abi_in_test")
    | None => false
    end in
  if allow_unsafe_abi then ret true
  else if canonical_is_pod t || is_void t then ret true
  else is_standard_layout t.

(** The local variables of [is_standard_layout]. *)
Record Layout : Type := MkLayout {
  chain_with_data_members : nat;
  member_access_level : AccessSpecifier;
}.

Section StandardLayout.

Variable depth : nat.
Variable hierarchy : Hierarchy.
(** [is_standard_layout] one call deeper *)
Variable is_standard_layout : CType -> M bool.

(** One round of the [while t is not None] loop up to the choice of
    the next [t]: [Some false] when the function returns. *)
Definition field_type_check (child : Cursor) (t : CType) : M (option bool) :=
  attributes <- get_attributes child ;;
  safe <- is_abi_safe_type_with is_standard_layout attributes t ;;
  if negb safe then
    report WARNING (source_of child) "is not ABI safe" ;;; ret (Some false)
  else ret None.

(** The [while t is not None] loop over the type of a field. *)
Fixpoint field_type_loop (child : Cursor) (t : CType) : M (option bool) :=
  returned <- field_type_check child t ;;
  match returned with
  | Some b => ret (Some b)
  | None =>
      if is_pointer t then
        interface_pointer <- is_interface_pointer depth hierarchy t ;;
        if negb interface_pointer then
          match pointee t with
          | Some t' => field_type_loop child t'
          | None =>
              (* [get_pointee] gave an invalid type: one more round *)
              field_type_check child (get_pointee t)
          end
        else ret None
      else ret None
  end.

(** The body of [for child in cursor.get_children()], for the
    class at position [i] of the chain. *)
Definition child_check (i : nat) (child : Cursor) (st : Layout)
    : M (option bool * Layout) :=
  let c := cursor tu child in
  if cursor_kind_eqb FIELD_DECL (kind c) then
    if (i <? chain_with_data_members st)%nat then
      report WARNING (source_of child)
        "declaring data members in a subclass of a class with data members is not ABI safe" ;;;
      ret (Some false, st)
    else
      let st := {| chain_with_data_members := i;
                   member_access_level := member_access_level st |} in
      if access_eqb NONE (member_access_level st) then
        let st := {| chain_with_data_members := chain_with_data_members st;
                     member_access_level := access_specifier c |} in
        returned <- field_type_loop child (type c) ;;
        ret (returned, st)
      else if negb (access_eqb (member_access_level st) (access_specifier c)) then
        report WARNING (source_of child)
          ("all members must have same access level to be ABI safe: expected: "
           ++ access_name (member_access_level st) ++ " got: "
           ++ access_name (access_specifier c)) ;;;
        ret (Some false, st)
      else
        returned <- field_type_loop child (type c) ;;
        ret (returned, st)
  else if is_virtual_method c || is_pure_virtual_method c then
    report WARNING (source_of child) "virtual methods are not ABI safe" ;;;
    ret (Some false, st)
  else ret (None, st).

Fixpoint children_loop (i : nat) (children : list Cursor) (st : Layout)
    : M (option bool * Layout) :=
  match children with
  | [] => ret (None, st)
  | child :: rest =>
      res <- child_check i child st ;;
      match res with
      | (Some b, st') => ret (Some b, st')
      | (None, st') => children_loop i rest st'
      end
  end.

(** The loop [for i in reversed(range(len(chain)))]. *)
Fixpoint chain_loop (indices : list nat) (chain : list Cursor) (st : Layout) : M bool :=
  match indices with
  | [] => ret true
  | i :: rest =>
      match chain !! i with
      | None => raise IndexError
      | Some c =>
          res <- children_loop i (get_children (cursor tu c)) st ;;
          match res with
          | (Some b, _) => ret b
          | (None, st') => chain_loop rest chain st'
          end
      end
  end.

(** The body of [is_standard_layout(hierarchy, t, reporter)]. *)
Definition is_standard_layout_body (t : CType) : M bool :=
  chain <- get_hierarchy depth hierarchy (get_declaration t) ;;
  match chain with
  | [] => raise AssertionError
  | _ =>
      chain_loop (rev (seq 0 (List.length chain))) chain
        {| chain_with_data_members := O; member_access_level := NONE |}
  end.

End StandardLayout.

(** [is_standard_layout(hierarchy, t, reporter)]; [depth] bounds the
    nesting of calls as in [_get_hierarchy]. *)
Fixpoint is_standard_layout (depth : nat) (hierarchy : Hierarchy) (t : CType) : M bool :=
  match depth with
  | O => raise RecursionError
  | S depth' =>
      is_standard_layout_body depth' hierarchy (is_standard_layout depth' hierarchy) t
  end.

(** [is_abi_safe_type(hierarchy, attributes, t, reporter)] *)
Definition is_abi_safe_type (depth : nat) (hierarchy : Hierarchy)
    (attributes : option Attr.Attributes) (t : CType) : M bool :=
  is_abi_safe_type_with (is_standard_layout depth hierarchy) attributes t.

(** [is_opaque_struct(t)] and [is_opaque_struct_pointer(t)] *)
Definition is_opaque_struct (t : CType) : bool :=
  let canonical := cursor tu (canonical_get_declaration t) in
  (cursor_kind_eqb (kind canonical) STRUCT_DECL
   || cursor_kind_eqb (kind canonical) UNION_DECL)
  && match get_definition canonical with None => true | Some _ => false end.

Definition is_opaque_struct_pointer (t : CType) : bool :=
  is_opaque_struct (get_pointee t).

(** [Hierarchy.add(cursor, bases)] *)
Definition add (c : Cursor) (bases : list Cursor) (self : Hierarchy) : Hierarchy :=
  {| _usr2info :=
       <[get_usr (cursor tu c) :=
           {| info_cursor := get_declaration (type (cursor tu (canonical (cursor tu c))));
              bases := bases |}]> (_usr2info self) |}.

(** What the indexer hands to [_index_declaration] for a declaration. *)
Record DeclInfo : Type := MkDeclInfo {
  decl_cursor : Cursor;
  decl_text : string;                           (* the formatted verbose line *)
  is_definition : bool;
  cxx_class_decl_info : option (list Cursor);   (* the cursors of [class_info.bases] *)
}.

(** [_index_declaration(hierarchy, decl_info)] *)
Definition _index_declaration (hierarchy : Hierarchy) (decl_info : DeclInfo) : M Hierarchy :=
  verbose (source_of (decl_cursor decl_info)) (Some (decl_text decl_info)) ;;;
  if negb (is_definition decl_info) then ret hierarchy
  else
    bases <-
      match cxx_class_decl_info decl_info with
      | Some class_bases =>
          with_nest VERBOSE (source_of (decl_cursor decl_info)) "Bases"
            (for_each class_bases
               (fun base =>
                  report VERBOSE (source_of base)
                    ("base:" ++ displayname (cursor tu base) ++ " canonical_usr:"
                     ++ get_usr (cursor tu (get_declaration
                                              (type (cursor tu (canonical (cursor tu base)))))))) ;;;
             ret ((fun base => get_declaration (type (cursor tu (canonical (cursor tu base)))))
                    <$> class_bases))
      | None => ret []
      end ;;
    ret (add (decl_cursor decl_info) bases hierarchy).

(** [Hierarchy(index, translation_unit, reporter)]: the indexer calls
    [_index_declaration] once per declaration. *)
Fixpoint index (decls : list DeclInfo) (hierarchy : Hierarchy) : M Hierarchy :=
  match decls with
  | [] => ret hierarchy
  | d :: rest => h <- _index_declaration hierarchy d ;; index rest h
  end.

Definition Hierarchy__init__ (decls : list DeclInfo) : M Hierarchy :=
  index decls {| _usr2info := ∅ |}.

End TranslationUnit.

End Extract.

(* ===================================================================== *)
(** ** model.py: [Parameter] and [Method]                                 *)
(* ===================================================================== *)

Module Model.
Import Diagnostics Clang Run Extract.

(** The fields of a [Parameter] object ([Parameter] is a reserved word
    here, hence [Param]). *)
Record Param : Type := MkParam {
  parameter_cursor : Cursor;
  parameter_attributes : Attr.Attributes;
  parameter_name : string;
  _is_interface_pointer : bool;
  _is_kit_interface_pointer : bool;
  _is_pointer_to_interface_pointer : bool;
  _no_acquire : bool;
  _returned_indirection : string;
  _is_returned : bool;
}.

(** The fields of a [Method] object. *)
Record Method : Type := MkMethod {
  method_cursor : Cursor;
  method_attributes : Attr.Attributes;
  _name : string;
  parameters : list Param;
}.

(** The variables of [Parameter._validate_attributes].  [attributes]
    is the object [level] steps below [self.attributes] along
    [pointee]. *)
Record Validation : Type := MkValidation {
  self_attributes : Attr.Attributes;
  level : nat;
  indirection : string;
  returned_indirection : string;
  is_returned : bool;
  no_acquire : bool;
}.

Section TranslationUnit.

Variable tu : TranslationUnit.
(** nesting of calls the interpreter allows in the hierarchy and
    layout functions *)
Variable depth : nat.
Variable hierarchy : Hierarchy.

(** [CursorObject.__init__]: the attributes of the cursor *)
Definition CursorObject__init__ (c : Cursor) : M Attr.Attributes :=
  attributes <- get_attributes tu c ;;
  ret (default Attr.Attributes_None attributes).

Definition error_at (c : Cursor) (text : string) : M unit :=
  report ERROR (source_of tu c) text.

(** [attributes.<name>] in [_validate_attributes] *)
Definition read (st : Validation) (name : string) : M Attr.Value :=
  match Attr.target (level st) (self_attributes st) with
  | Attr.TAttributes a => ret (Attr.get a name)
  | Attr.TValue _ => raise (AttributeError name)
  end.

Definition flag (st : Validation) (name : string) : M bool :=
  v <- read st name ;; ret (Attr.truthy v).

(** One round of the [while not (t is None)] loop.  The result says
    whether the loop goes on with the pointee. *)
Definition validate_round (c : Cursor) (t : CType) (st : Validation)
    : M (Validation * bool) :=
  safe <-
    match Attr.target (level st) (self_attributes st) with
    | Attr.TAttributes a => is_abi_safe_type tu depth hierarchy (Some a) t
    | Attr.TValue v =>
        if Attr.truthy v then raise (AttributeError "allow_unsafe_abi_in_test")
        else is_abi_safe_type tu depth hierarchy None t
    end ;;
  when (negb safe) (error_at c ("type is not ABI safe: " ++ type_spelling t)) ;;;
  interface_pointer <- is_interface_pointer tu depth hierarchy t ;;
  if negb interface_pointer then
    returned <- flag st "returned" ;;
    let st :=
      if returned then
        {| self_attributes := self_attributes st; level := level st;
           indirection := indirection st;
           returned_indirection := indirection st; is_returned := true;
           no_acquire := no_acquire st |}
      else st in
    attr_no_acquire <- flag st "no_acquire" ;;
    when attr_no_acquire
      (error_at c ("'" ++ indirection st
                   ++ "no_acquire' OMNI_ATTR must be used with an interface pointer")) ;;;
    if is_pointer t then
      let pointee := get_pointee t in
      (* [if not attributes] never holds for an Attributes object *)
      c_str <- flag st "c_str" ;;
      output <- flag st "output" ;;
      input <- flag st "input" ;;
      ref <- flag st "ref" ;;
      count <- flag st "count" ;;
      when c_str
        (when (negb (is_char pointee))
           (error_at c ("'" ++ indirection st ++ "c_str' OMNI_ATTR must be on a char pointer")) ;;;
         when output
           (error_at c ("'" ++ indirection st ++ "c_str' OMNI_ATTR cannot be combined with 'out'")) ;;;
         when (negb (is_const_qualified pointee))
           (error_at c ("'" ++ indirection st ++ "c_str' OMNI_ATTR must be on a const pointer"))) ;;;
      when ref
        (when c_str
           (error_at c ("'" ++ indirection st ++ "ref' OMNI_ATTR cannot be combined with 'c_str'")) ;;;
         when count
           (error_at c ("'" ++ indirection st ++ "ref' OMNI_ATTR cannot be combined with 'count'")) ;;;
         when (negb (Attr.truthy (Attr.get (self_attributes st) "not_null")))
           (error_at c ("'" ++ indirection st ++ "ref' OMNI_ATTR must also specify 'not_null'"))) ;;;
      if is_opaque_struct_pointer tu t then
        when input
          (error_at c ("'" ++ indirection st ++ "in' OMNI_ATTR must not be on opaque types")) ;;;
        when output
          (error_at c ("'" ++ indirection st ++ "out' OMNI_ATTR must not be on opaque types")) ;;;
        when c_str
          (error_at c ("'" ++ indirection st ++ "c_str' OMNI_ATTR must not be on opaque types")) ;;;
        ret ({| self_attributes := self_attributes st; level := level st;
                indirection := indirection st ++ "*";
                returned_indirection := returned_indirection st;
                is_returned := is_returned st; no_acquire := no_acquire st |}, false)
      else
        (if input && negb output then
           when (negb (is_const_qualified pointee))
             (error_at c ("'" ++ indirection st ++ "in' OMNI_ATTR must be on a const pointer"))
         else if output then
           when (is_const_qualified pointee)
             (error_at c ("'" ++ indirection st ++ "out' OMNI_ATTR must be on a non-const pointer"))
         else
           when (negb c_str)
             (error_at c ("pointer must have '" ++ indirection st ++ "c_str', '"
                          ++ indirection st ++ "in', and/or '" ++ indirection st
                          ++ "out' OMNI_ATTR"))) ;;;
        (* attributes.pointee is created when it is None, and
           attributes moves one level down *)
        let self' :=
          match Attr.target (level st) (self_attributes st) with
          | Attr.TAttributes a =>
              match Attr.pointee a with
              | Attr.PValue Attr.VNone =>
                  Attr.store (level st)
                    (Attr.MkAttributes (Attr.dict a) (Attr.PAttributes Attr.Attributes_None))
                    (self_attributes st)
              | _ => self_attributes st
              end
          | Attr.TValue _ => self_attributes st
          end in
        ret ({| self_attributes := self'; level := S (level st);
                indirection := indirection st ++ "*";
                returned_indirection := returned_indirection st;
                is_returned := is_returned st; no_acquire := no_acquire st |}, true)
    else
      ref <- flag st "ref" ;;
      when ref
        (error_at c ("'" ++ indirection st ++ "ref' OMNI_ATTR must be used with a pointer")) ;;;
      ret (st, false)
  else
    (* interface *)
    when (negb (is_pointer t)) (error_at c "cannot pass interfaces by value") ;;;
    count <- flag st "count" ;;
    input <- flag st "input" ;;
    output <- flag st "output" ;;
    when (negb count && (input || output))
      (error_at c "interface pointers are implicitly 'in' and 'out'") ;;;
    ref <- flag st "ref" ;;
    when ref
      (error_at c ("'" ++ indirection st ++ "ref' OMNI_ATTR must not be on interface pointers")) ;;;
    returned <- flag st "returned" ;;
    attr_no_acquire <- flag st "no_acquire" ;;
    ret ({| self_attributes := self_attributes st; level := level st;
            indirection := indirection st;
            returned_indirection :=
              if returned then indirection st else returned_indirection st;
            is_returned := returned || is_returned st;
            no_acquire := attr_no_acquire || no_acquire st |}, false).

(** The [while not (t is None)] loop. *)
Fixpoint validate_loop (c : Cursor) (t : CType) (st : Validation) : M Validation :=
  res <- validate_round c t st ;;
  let '(st', continue) := res in
  if continue then
    match pointee t with
    | Some t' => validate_loop c t' st'
    | None =>
        (* an invalid pointee: the round after it ends the loop *)
        res' <- validate_round c (get_pointee t) st' ;;
        ret (fst res')
    end
  else ret st'.

(** [Parameter._validate_attributes(reporter)] *)
Definition _validate_attributes (c : Cursor) (attributes : Attr.Attributes) : M Validation :=
  st <- validate_loop c (type (cursor tu c))
          {| self_attributes := attributes; level := O; indirection := "";
             returned_indirection := ""; is_returned := false; no_acquire := false |} ;;
  when (is_returned st && String.eqb (returned_indirection st) "")
    (error_at c "'return' OMNI_ATTR must be used with a pointer and currently prefixed with one or more '*'") ;;;
  ret st.

(** [Parameter(cursor, index, method, reporter)] *)
Definition Parameter__init__ (c : Cursor) (index : nat) : M Param :=
  attributes <- CursorObject__init__ c ;;
  let name := if String.eqb (spelling (cursor tu c)) "" then "arg" ++ pretty index
              else spelling (cursor tu c) in
  interface_pointer <- is_interface_pointer tu depth hierarchy (type (cursor tu c)) ;;
  kit_interface_pointer <- is_kit_interface_pointer tu depth hierarchy (type (cursor tu c)) ;;
  pointer_to_interface_pointer <-
    (if is_pointer (type (cursor tu c)) then
       is_interface_pointer tu depth hierarchy (get_pointee (type (cursor tu c)))
     else ret false) ;;
  st <- with_nest VERBOSE (source_of tu c) "checking ABI safety"
          (st <- _validate_attributes c attributes ;;
           (fun sub => (validate sub, sub)) ;;;
           ret st) ;;
  ret {| parameter_cursor := c;
         parameter_attributes := self_attributes st;
         parameter_name := name;
         _is_interface_pointer := interface_pointer;
         _is_kit_interface_pointer := kit_interface_pointer;
         _is_pointer_to_interface_pointer := pointer_to_interface_pointer;
         _no_acquire := no_acquire st;
         _returned_indirection := returned_indirection st;
         _is_returned := is_returned st |}.

(** The loop that builds [self.parameters]. *)
Fixpoint build_parameters (parameter_cursors : list Cursor) (i : nat)
    (acc : list Param) : M (list Param) :=
  match parameter_cursors with
  | [] => ret acc
  | c :: rest =>
      p <- Parameter__init__ c i ;;
      build_parameters rest (S i) (acc ++ [p])
  end.

Definition set_count_of (index : nat) (p : Param) : Param :=
  {| parameter_cursor := parameter_cursor p;
     parameter_attributes :=
       Attr.MkAttributes
         (<["count_of" := Attr.VParameter index]> (Attr.dict (parameter_attributes p)))
         (Attr.pointee (parameter_attributes p));
     parameter_name := parameter_name p;
     _is_interface_pointer := _is_interface_pointer p;
     _is_kit_interface_pointer := _is_kit_interface_pointer p;
     _is_pointer_to_interface_pointer := _is_pointer_to_interface_pointer p;
     _no_acquire := _no_acquire p;
     _returned_indirection := _returned_indirection p;
     _is_returned := _is_returned p |}.

(** [p.name == param.attributes.count] *)
Definition names (count : Attr.Value) (p : Param) : bool :=
  match count with
  | Attr.VStr s => String.eqb (parameter_name p) s
  | _ => false
  end.

(** The last loop of [Method.__init__]: for each parameter with a
    [count], the first parameter of that name gets [count_of]. *)
Fixpoint mark_counts (indices : list nat) (parameters : list Param) : list Param :=
  match indices with
  | [] => parameters
  | index :: rest =>
      let parameters' :=
        match parameters !! index with
        | Some param =>
            let count := Attr.get (parameter_attributes param) "count" in
            if Attr.truthy count then
              match find_index (names count) parameters with
              | Some j => alter (set_count_of index) j parameters
              | None => parameters
              end
            else parameters
        | None => parameters
        end in
      mark_counts rest parameters'
  end.

(** [Method(cursor, interface, reporter)] *)
Definition Method__init__ (c : Cursor) : M Method :=
  attributes <- CursorObject__init__ c ;;
  let n := cursor tu c in
  (* strip _abi from method name *)
  when (negb (Py.endswith (spelling n) "_abi"))
    (error_at c "interface ABI methods must end in '_abi'") ;;;
  let name := Py.slice_to_minus 4 (spelling n) in
  when (negb (is_pure_virtual_method n))
    (error_at c "method must be pure virtual") ;;;
  when (negb (exception_specification_eqb BASIC_NOEXCEPT (exception_specification_kind n)))
    (error_at c "noexcept must be specified") ;;;
  let result := result_type n in
  safe <- is_abi_safe_type tu depth hierarchy (Some attributes) result ;;
  when (negb safe) (error_at c "return type is not ABI safe") ;;;
  when (negb (access_eqb PROTECTED (access_specifier n)))
    (error_at c "ABI method must be protected") ;;;
  (* iterate over children *)
  let parameter_cursors :=
    List.filter (fun child => cursor_kind_eqb PARM_DECL (kind (cursor tu child)))
                (get_children n) in
  (* add parameters *)
  parameters <- build_parameters parameter_cursors O [] ;;
  ret {| method_cursor := c;
         method_attributes := attributes;
         _name := name;
         parameters := mark_counts (seq 0 (List.length parameters)) parameters |}.

End TranslationUnit.

End Model.

(* ===================================================================== *)
(** ** The messages of the model checks                                   *)
(* ===================================================================== *)

Module Report.
Import Diagnostics.

(** The kinds of message the hierarchy and layout functions emit:
    verbose lines, warnings, and the error of [get_attributes]. *)
Definition is_verbose (m : DiagnosticMessage) : Prop := level m = VERBOSE.

Definition side_note (m : DiagnosticMessage) : Prop :=
  level m = VERBOSE \/ level m = WARNING
  \/ message m = "OMNI_ATTR cannot be specified more than once on a declaration".

Definition anything (m : DiagnosticMessage) : Prop := True.

(** ... and the message a parameter's ["checking ABI safety"] scope
    hands to the reporter of the method when it closes. *)
Definition beside (m : DiagnosticMessage) : Prop :=
  side_note m \/ message m = "checking ABI safety".

(** What [if b: reporter.error(...)] appends when the error passes the
    log level. *)
Definition opt (b : bool) (m : DiagnosticMessage) : list DiagnosticMessage :=
  if b then [m] else [].


(** The message [reporter.error(cursor, text)] records. *)
Definition err (tu : Clang.TranslationUnit) (c : Clang.Cursor) (text : string)
    : DiagnosticMessage :=
  MkDiagnosticMessage ERROR (Extract.source_of tu c) text [].

End Report.

(* ===================================================================== *)
(** ** generate/__init__.py                                               *)
(* ===================================================================== *)

Module Generate.
Import Diagnostics Run.

(** A regular file: its bytes and its modification time. *)
Record File : Type := MkFile {
  content : string;
  mtime : Z;
}.

(** What a run of the tool reads and changes: the files, the
    directories that exist, the root reporter with the blocks open on
    it, and what was printed on the standard output.  Files are written
    with POSIX line ends; a path names a regular file or nothing. *)
Record World : Type := MkWorld {
  files : gmap string File;
  dirs : gset string;
  reporter : Reporter;
  stdout : list string;
}.

Definition W (A : Type) : Type := ST World A.

Definition set_files (f : gmap string File) (w : World) : World :=
  {| files := f; dirs := dirs w; reporter := reporter w; stdout := stdout w |}.
Definition set_dirs (d : gset string) (w : World) : World :=
  {| files := files w; dirs := d; reporter := reporter w; stdout := stdout w |}.
Definition set_reporter (r : Reporter) (w : World) : World :=
  {| files := files w; dirs := dirs w; reporter := r; stdout := stdout w |}.

(** Code that only reports, run on the reporter of the world. *)
Definition reporting {A} (m : M A) : W A :=
  fun w => let '(res, r) := m (reporter w) in (res, set_reporter r w).

Definition print (text : string) : W unit :=
  fun w => (Returns tt,
            {| files := files w; dirs := dirs w; reporter := reporter w;
               stdout := stdout w ++ [text] |}).

(** [class CompareResult(NamedTuple)] *)
Record CompareResult : Type := MkCompareResult {
  are_same : bool;
  differences : string;
}.

(** The fields of a [CodeGenerator] the base class uses.  The output
    file object [_out_file] is the temporary file, or the standard
    output when [_tmp_filename] is [None]. *)
Record CodeGenerator : Type := MkCodeGenerator {
  _out_filename : option string;
  _tmp_filename : option string;
  _copyright_year : string;
  _skip_write_if_same : bool;
  _fail_on_write : bool;
  _format_module : option string;
  _repo_root : option string;
}.

(** The two renderers of generate/cpp.py. *)
Inductive GeneratorClass : Type := CppGenerator | PyGenerator.

(** [read_lines(f)] of [compare_files], on the text read from the file *)
Definition read_lines (text : string) : list string :=
  let lines := Py.readlines text in
  match lines with
  | first :: rest => if Py.startswith first "// Copyright" then rest else lines
  | [] => lines
  end.

(** The first run of four digits [re.match(r".*?(\d{4})...", first)]
    finds: [.] does not step over a newline. *)
Fixpoint first_year (l : list ascii) : option (list ascii) :=
  match l with
  | [] => None
  | c :: l' =>
      match l with
      | d1 :: d2 :: d3 :: d4 :: _ =>
          if Py.isdigit d1 && Py.isdigit d2 && Py.isdigit d3 && Py.isdigit d4
          then Some [d1; d2; d3; d4]
          else if Ascii.eqb c Py.newline then None else first_year l'
      | _ => None
      end
  end.

(** What a run depends on outside the sources: the clock, path
    arithmetic, [difflib], the formatter module, the front end, and the
    code of this tool that is taken as given (the syntax-tree printer,
    the traversal that builds the schema, the renderers). *)
Record Environment : Type := MkEnvironment {
  (** the time of the run and [date.today().year] *)
  now : Z;
  today_year : Z;
  (** [str(Path(p).parent)] *)
  parent_of : string -> string;
  (** [list(difflib.context_diff(old_lines, gen_lines, ...))] for the
      file [current_filename] *)
  context_diff : list string -> list string -> string -> list string;
  (** what [format_module.format_cpp] of the given module leaves in the
      temporary file *)
  format_cpp : string -> string -> string;
  (** [index.parse(in_filename, clang_args, ...)] on the files present *)
  parse : string -> gmap string File -> Outcome Exn Clang.TranslationUnitData;
  (** the declarations the indexer hands to [_index_declaration] *)
  declarations : Clang.TranslationUnitData -> list Extract.DeclInfo;
  (** [ast.print_ast(translation_unit, reporter)] *)
  print_ast : Clang.TranslationUnitData -> M unit;
  (** the schema [InterfaceMatcher] collects, and its construction *)
  Matches : Type;
  InterfaceMatcher :
    Clang.TranslationUnitData -> Extract.Hierarchy -> string -> M Matches;
  (** what a renderer writes for the given copyright year, and what it
      reports while doing so *)
  render : GeneratorClass -> Matches -> Extract.Hierarchy -> string -> M string;
  (** [_get_dependencies()] *)
  _get_dependencies : list string;
}.

Section Environment.

Variable env : Environment.

(** *** Files *)

Definition exists_ (path : string) (w : World) : bool :=
  match files w !! path with Some _ => true | None => false end.

(** [open(path, "w")]: the file is created or truncated *)
Definition open_w (path : string) : W unit :=
  fun w => (Returns tt, set_files (<[path := MkFile "" (now env)]> (files w)) w).

(** [f.write(text)] on a file opened for writing *)
Definition write (path : string) (text : string) : W unit :=
  fun w => (Returns tt,
            set_files (alter (fun f => MkFile (content f ++ text) (now env)) path (files w)) w).

(** [open(path, "r").read()]: the text, line ends translated *)
Definition read (path : string) : W string :=
  fun w =>
    match files w !! path with
    | Some f => (Returns (Py.universal_newlines (content f)), w)
    | None => (Raises (FileNotFoundError path), w)
    end.

(** [os.remove(path)] *)
Definition remove (path : string) : W unit :=
  fun w =>
    match files w !! path with
    | Some _ => (Returns tt, set_files (delete path (files w)) w)
    | None => (Raises (FileNotFoundError path), w)
    end.

(** [Path(path).touch()] *)
Definition touch (path : string) : W unit :=
  fun w =>
    match files w !! path with
    | Some f => (Returns tt, set_files (<[path := MkFile (content f) (now env)]> (files w)) w)
    | None => (Returns tt, set_files (<[path := MkFile "" (now env)]> (files w)) w)
    end.

(** [shutil.move(src, dst)] between regular files: a rename, which
    fails before touching [dst] when [src] is missing *)
Definition move (src dst : string) : W unit :=
  fun w =>
    match files w !! src with
    | Some f => (Returns tt, set_files (<[dst := f]> (delete src (files w))) w)
    | None => (Raises (FileNotFoundError src), w)
    end.

Definition getmtime (path : string) : W Z :=
  fun w =>
    match files w !! path with
    | Some f => (Returns (mtime f), w)
    | None => (Raises (FileNotFoundError path), w)
    end.

(** [reporter.<level>(None, text)] *)
Definition say (lvl : DiagnosticLevel) (text : option string) : W unit :=
  reporting (emit lvl None text ;;; ret tt).

(** [make_dirs(filename, reporter)] *)
Definition make_dirs (filename : string) : W unit :=
  fun w =>
    let parent := parent_of env filename in
    if bool_decide (parent ∈ dirs w) then (Returns tt, w)
    else
      (say VERBOSE (Some ("making: " ++ parent)) ;;;
       (fun w' => (Returns tt, set_dirs ({[parent]} ∪ dirs w') w'))) w.

(** [compare_files(current_filename, generated_filename)] *)
Definition compare_files (current_filename generated_filename : string)
    : W CompareResult :=
  new_file <- read generated_filename ;;
  old_file <- read current_filename ;;
  let old_lines := read_lines old_file in
  let gen_lines := read_lines new_file in
  let diff_result := context_diff env old_lines gen_lines current_filename in
  ret {| are_same := (List.length diff_result =? 0)%nat;
         differences := String.concat "" diff_result |}.

(** *** [class CodeGenerator] *)

(** The [try] block of [__init__]: the year, or the range from the
    year found in the first line of the present output file.  Any
    failure leaves the current year. *)
Definition copyright_year (out_filename : string) (w : World) : string :=
  match files w !! out_filename with
  | Some f =>
      let first := Py.readline (Py.universal_newlines (content f)) in
      if Py.contains (Py.lower first) "copyright" then
        match first_year (Py.chars first) with
        | Some digits =>
            let existing_year := Py.int_of_digits digits in
            if negb (today_year env =? existing_year)
            then pretty existing_year ++ "-" ++ pretty (today_year env)
            else pretty (today_year env)
        | None => pretty (today_year env)
        end
      else pretty (today_year env)
  | None => pretty (today_year env)
  end.

(** [CodeGenerator.__init__] *)
Definition CodeGenerator__init__ (out_filename : string)
    (skip_write_if_same fail_on_write : bool) (format_module repo_root : option string)
    : W CodeGenerator :=
  fun w =>
    let year := copyright_year out_filename w in
    if String.eqb "-" out_filename then
      (Returns {| _out_filename := None; _tmp_filename := None;
                  _copyright_year := year;
                  _skip_write_if_same := skip_write_if_same;
                  _fail_on_write := fail_on_write;
                  _format_module := format_module; _repo_root := repo_root |}, w)
    else
      let tmp := out_filename ++ ".~nv" in
      (make_dirs tmp ;;;
       open_w tmp ;;;
       ret {| _out_filename := Some out_filename; _tmp_filename := Some tmp;
              _copyright_year := year;
              _skip_write_if_same := skip_write_if_same;
              _fail_on_write := fail_on_write;
              _format_module := format_module; _repo_root := repo_root |}) w.

(** [_write(msg)] *)
Definition _write (self : CodeGenerator) (msg : string) : W unit :=
  match _tmp_filename self with
  | Some tmp => write tmp msg
  | None => print msg
  end.

(** [_compare_files()], for a generator that writes to a file *)
Definition _compare_files (out tmp : string) : W CompareResult :=
  fun w =>
    if negb (exists_ out w) then
      (Returns {| are_same := false;
                  differences := "Previous file did not exist. Was it not checked in?" |}, w)
    else compare_files out tmp w.

Definition fail_on_write_text (out : string) : string :=
  "    A code change was detected in the generated file '" ++ out ++ "' but
    the '--fail-on-write' option was used.  This likely means that code changes
    occurred during a CI build step because a full local build was not performed
    before creating an MR.  This can occur when the Carbonite SDK or repoman versions
    are updated and a tool change caused some code to be regenerated.

    To remedy this, please run a full local build after updating the Carbonite SDK,
    then commit all modified .gen.h files to your MR.  This will happen from time to
    time when changes are made to the tools or code generation bugs need to be fixed.
    Note that a change only to a copyright year at the top of the file won't be considered
    a code change that will fail this operation.
".

(** [_commit()] *)
Definition _commit (self : CodeGenerator) : W unit :=
  match _tmp_filename self, _out_filename self with
  | Some tmp, Some out =>
      write tmp (String (Py.newline) "") ;;;
      (match _format_module self with
       | Some module =>
           fun w => (Returns tt,
                     set_files (alter (fun f => MkFile (format_cpp env module (content f)) (now env))
                                      tmp (files w)) w)
       | None => ret tt
       end) ;;;
      same <-
        (fun w =>
           if _skip_write_if_same self && exists_ out w then
             (compare <- _compare_files out tmp ;; ret (are_same compare)) w
           else (Returns false, w)) ;;
      if same then
        touch out ;;;
        remove tmp ;;;
        say VERBOSE (Some ("skipped writing: " ++ out))
      else
        say NOTE (Some ("Generated: " ++ out)) ;;;
        (if _fail_on_write self then
           compare <- _compare_files out tmp ;;
           let error_message := fail_on_write_text out ++ differences compare in
           remove tmp ;;;
           say ERROR (Py.format0 error_message)
         else ret tt) ;;;
        move tmp out
  | _, _ => ret tt
  end.

(** Modelled from the spec: the renderers [CppGenerator] and
    [PyGenerator] (generate/cpp.py) are not among the sources.  By
    section 4.6 a generator is set up on its target file, writes its
    rendering to the temporary file, and the result is committed. *)
Definition generate (cls : GeneratorClass) (matches : Matches env)
    (hierarchy : Extract.Hierarchy) (out_file : string)
    (skip_write_if_same fail_on_write : bool) (format_module repo_root : option string)
    : W unit :=
  self <- CodeGenerator__init__ out_file skip_write_if_same fail_on_write
            format_module repo_root ;;
  text <- reporting (render env cls matches hierarchy (_copyright_year self)) ;;
  _write self text ;;;
  _commit self.

(** *** The dependency manifest *)

(** [includes[key] = True] on a dictionary kept as its list of keys *)
Definition add_key (key : string) (keys : list string) : list string :=
  if existsb (String.eqb key) keys then keys else keys ++ [key].

(** [write_includes(out_filename, translation_unit, reporter)].
    [tu_includes] are the resolved paths of
    [translation_unit.get_includes()], [deps] the result of
    [_get_dependencies()]. *)
Definition write_includes (out_filename : string) (tu_spelling : string)
    (tu_includes deps : list string) : W unit :=
  fun w =>
    let includes :=
      fold_left
        (fun acc path =>
           if exists_ path w && negb (Py.endswith path ".gen.h") then add_key path acc
           else acc)
        tu_includes [] in
    let includes := fold_left (fun acc dep => add_key dep acc) deps includes in
    match deps with
    | [] => (Raises (Exception "omni.bind dependency search failed.  did omni.bind.py move?"), w)
    | _ =>
        (make_dirs out_filename ;;;
         open_w out_filename ;;;
         write out_filename (tu_spelling ++ String Py.newline "") ;;;
         for_each includes (fun key => write out_filename (key ++ String Py.newline ""))) w
    end.

(** The loops of [is_output_up_to_date]; [None] means that the loop
    ran to its end. *)
Fixpoint output_timestamps (outputs : list string) (acc : list (string * Z))
    : W (option (list (string * Z))) :=
  match outputs with
  | [] => ret (Some acc)
  | out :: rest =>
      fun w =>
        match files w !! out with
        | None =>
            (say NOTE (Some ("out-of-date: output " ++ out ++ " does not exist")) ;;;
             ret None) w
        | Some f => output_timestamps rest (acc ++ [(out, mtime f)]) w
        end
  end.

Fixpoint check_outputs (inc : string) (included_time : Z) (outs : list (string * Z))
    : W bool :=
  match outs with
  | [] => ret true
  | (out, output_time) :: rest =>
      say VERBOSE (Some ("checking " ++ inc ++ " with ('" ++ out ++ "', "
                         ++ pretty output_time ++ ")")) ;;;
      if output_time <? included_time then
        say NOTE (Some ("out-of-date: input " ++ inc ++ " is newer than " ++ out)) ;;;
        ret false
      else check_outputs inc included_time rest
  end.

Fixpoint check_includes (includes : list string) (outs : list (string * Z)) : W bool :=
  match includes with
  | [] => ret true
  | inc :: rest =>
      fun w =>
        match files w !! inc with
        | None =>
            (say WARNING (Some ("out-of-date: input " ++ inc ++ " does not exist")) ;;;
             ret false) w
        | Some f =>
            (ok <- check_outputs inc (mtime f) outs ;;
             if ok then check_includes rest outs else ret false) w
        end
  end.

(** [is_output_up_to_date(outputs, includes_filename, reporter)] *)
Definition is_output_up_to_date (outputs : list string) (includes_filename : string)
    : W bool :=
  fun w =>
    if negb (exists_ includes_filename w) then
      (say WARNING (Some ("out-of-date: " ++ includes_filename ++ " does not exist!")) ;;;
       ret false) w
    else
      (stamps <- output_timestamps outputs [] ;;
       match stamps with
       | None => ret false
       | Some outs =>
           text <- read includes_filename ;;
           let includes :=
             List.filter (fun ln => negb (String.eqb ln ""))
                         (Py.strip <$> Py.readlines text) in
           check_includes includes outs
       end) w.

End Environment.

End Generate.

(* ===================================================================== *)
(** ** cli.py                                                             *)
(* ===================================================================== *)

Module Cli.
Import Diagnostics Run Generate.

(** The parsed command line; only the options [main] reads after
    parsing are kept. *)
Record Args : Type := MkArgs {
  input : string;
  api : option string;
  py : option string;
  verbose_ : bool;                (* -v / --verbose *)
  debug : bool;
  ast : bool;
  M_ : option string;             (* -M *)
  skip_write_if_same : bool;
  format_module : option string;
  repo_root : option string;
  fail_on_write : bool;
}.

(** Truth value of an optional string argument *)
Definition given (o : option string) : bool :=
  match o with
  | Some s => negb (String.eqb s "")
  | None => false
  end.

Definition filename (o : option string) : string := default "" o.

(** [DiagnosticMessage.from_clang(src)]; Clang's levels are 1 lower *)
Definition level_of_severity (s : Clang.Severity) : DiagnosticLevel :=
  match s with
  | Clang.Ignored => VERBOSE
  | Clang.Note => NOTE
  | Clang.Warning => WARNING
  | Clang.Error => ERROR
  | Clang.Fatal => FATAL
  end.

Fixpoint from_clang (src : Clang.Diagnostic) : DiagnosticMessage :=
  match src with
  | Clang.MkDiagnostic severity loc message children =>
      MkDiagnosticMessage
        (level_of_severity severity)
        (Some loc)
        (Py.strip (match Py.find message ":"%char with
                   | Some i => Py.slice_from (S i) message
                   | None => message
                   end))
        (from_clang <$> children)
  end.

(** The exit status of the process for what [main] does: its return
    value, or 1 when an exception leaves it. *)
Definition exit_code (result : Outcome Exn Z) : Z :=
  match result with
  | Returns code => code
  | Raises _ => 1
  end.

Section Environment.

Variable env : Environment.

(** [with reporter: ast.print_ast(translation_unit, reporter); return 0] *)
Definition print_ast_and_exit (tu : Clang.TranslationUnitData) : W Z :=
  reporting
    (fun r =>
       match print_ast env tu r with
       | (Returns _, r') =>
           match reporter_exit None r' with
           | (Returns _, r'') => (Returns 0, r'')
           | (Raises e, r'') => (Raises e, r'')
           end
       | (Raises e, r') =>
           (Raises e, snd (reporter_exit (Some (Extract.exit_text e)) r'))
       end).

(** What the first part of [main] hands to the second. *)
Definition Analysis : Type :=
  (Clang.TranslationUnitData * Extract.Hierarchy * Matches env)%type.

(** The body of the [try] of [main] up to and including the
    [InterfaceMatcher]: a return value when [main] returns there, or
    the translation unit, the hierarchy and the matches. *)
Definition main_analyse (args : Args) : W (Z + Analysis) :=
  let in_filename := input args in
  let generated_files :=
    ((if given (api args) then [filename (api args)] else [])
     ++ (if given (py args) then [filename (py args)] else [])
     ++ (if given (M_ args) then [filename (M_ args)] else []))%list in
  up_to_date <-
    (if negb (ast args) && given (M_ args)
     then is_output_up_to_date generated_files (filename (M_ args))
     else ret false) ;;
  if up_to_date then
    (* nothing to do *)
    print (in_filename ++ ": All outputs up-to-date") ;;;
    ret (inl 0)
  else
    (* make sure the api output exists *)
    (fun w =>
       if given (api args) && negb (exists_ (filename (api args)) w)
       then open_w env (filename (api args)) w
       else (Returns tt, w)) ;;;
    translation_unit <- (fun w => (parse env in_filename (files w), w)) ;;
    for_each (Clang.diagnostics_of_parse translation_unit)
      (fun d => reporting (fun r => let '(_, r') := emit_message (from_clang d) r in
                                    (Returns tt, r'))) ;;;
    if ast args then
      code <- print_ast_and_exit translation_unit ;; ret (inl code)
    else
      (* generate the class hierarchy *)
      hierarchy <-
        reporting (Extract.Hierarchy__init__ (Clang.cursors translation_unit)
                     (declarations env translation_unit)) ;;
      (* traverse the entire ast looking for interfaces in the specified file *)
      matches <- reporting (InterfaceMatcher env translation_unit hierarchy in_filename) ;;
      ret (inr (translation_unit, hierarchy, matches)).

(** The three output steps of [main] and its last line. *)
Definition generate_api (args : Args) (a : Analysis) : W unit :=
  let '(_, hierarchy, matches) := a in
  if given (api args) then
    generate env CppGenerator matches hierarchy (filename (api args))
      (skip_write_if_same args) (fail_on_write args)
      (format_module args) (repo_root args)
  else ret tt.

Definition generate_py (args : Args) (a : Analysis) : W unit :=
  let '(_, hierarchy, matches) := a in
  if given (py args) then
    generate env PyGenerator matches hierarchy (filename (py args))
      (skip_write_if_same args) (fail_on_write args)
      (format_module args) (repo_root args)
  else ret tt.

Definition write_manifest (args : Args) (a : Analysis) : W unit :=
  let '(translation_unit, _, _) := a in
  if given (M_ args) then
    write_includes env (filename (M_ args))
      (Clang.translation_unit_spelling translation_unit)
      (Clang.includes translation_unit) (_get_dependencies env)
  else ret tt.

Definition main_outputs (args : Args) (a : Analysis) : W Z :=
  generate_api args a ;;;
  generate_py args a ;;;
  write_manifest args a ;;;
  (fun w => (Returns (if valid (reporter w) then 0 else 1), w)).

(** The body of the [try] of [main]. *)
Definition main_body (args : Args) : W Z :=
  analysis <- main_analyse args ;;
  match analysis with
  | inl code => ret code
  | inr a => main_outputs args a
  end.

(** The [except] clauses of [main]. *)
Definition main_except (args : Args) (e : Exn) : W Z :=
  match e with
  | TranslationUnitLoadError text =>
      say FATAL (Some text) ;;;
      say FATAL (Some ("Check if the input file, '" ++ input args
                       ++ "' exists and is readable.")) ;;;
      ret 1
  | DiagnosticException _ =>
      if debug args then raise e
      else
        (* DiagnosticExceptions have already been reported, so just return 1 *)
        ret 1
  | _ =>
      if debug args then raise e
      else say FATAL (Some (Extract.exn_str e)) ;;; ret 1
  end.

(** [main()], after the command line is parsed.  The reporter is
    created first; whatever reporter the world held is replaced. *)
Definition main (args : Args) : W Z :=
  fun w =>
    let log_level := if verbose_ args then VERBOSE else NOTE in
    catch (main_body args) (main_except args)
      (set_reporter (text_reporter (Some log_level)) w).

End Environment.

End Cli.

(* ===================================================================== *)
(** ** Sample inputs                                                       *)
(* ===================================================================== *)

(** A small header and small runs of the tool, used to exercise the
    embedding on concrete inputs. *)

Module Sample.
Import Diagnostics Clang Extract.

(** A header [IFoo.h]:
<<
  namespace omni { namespace core {
    class IObject_abi { protected: virtual void acquire_abi() noexcept = 0; };
  } }
  template <typename T> class Wrapper : public T { };
  class IFoo_abi : public Wrapper<omni::core::IObject_abi> {
  protected:
    virtual IBar_abi* getBar_abi() noexcept = 0;
    virtual IBar_abi copyBar_abi() noexcept = 0;
  public:
    IBar_abi getBar();
  };
  class IBar_abi : public omni::core::IObject_abi {
  protected:
    virtual void ping_abi() noexcept = 0;
  };
>>
*)

Definition at_line (n : Z) : SourceLocation := MkSourceLocation "IFoo.h" n 1.

(** The cursors of the header, by position in the table. *)
Definition IObject_abi : Cursor := 0%nat.
Definition Wrapper : Cursor := 1%nat.
Definition Wrapper_T : Cursor := 2%nat.
Definition Wrapper_base : Cursor := 3%nat.
Definition Wrapper_IObject_abi : Cursor := 4%nat.
Definition IFoo_abi : Cursor := 5%nat.
Definition IBar_abi : Cursor := 6%nat.
Definition acquire_abi : Cursor := 7%nat.
Definition getBar_abi : Cursor := 8%nat.
Definition copyBar_abi : Cursor := 9%nat.
Definition getBar : Cursor := 10%nat.
Definition ping_abi : Cursor := 11%nat.
Definition no_declaration : Cursor := 99%nat.

Definition record_type (name : string) (c : Cursor) (arguments : list CType) : CType :=
  {| type_kind := RECORD; type_spelling := name; is_const_qualified := false;
     get_declaration := c; canonical_is_pod := false; canonical_get_declaration := c;
     pointee := None; template_arguments := arguments |}.

(** Pointer types are POD for the front end. *)
Definition pointer_type (name : string) (t : CType) : CType :=
  {| type_kind := POINTER; type_spelling := name; is_const_qualified := false;
     get_declaration := no_declaration; canonical_is_pod := true;
     canonical_get_declaration := no_declaration;
     pointee := Some t; template_arguments := [] |}.

Definition void_type : CType :=
  {| type_kind := VOID; type_spelling := "void"; is_const_qualified := false;
     get_declaration := no_declaration; canonical_is_pod := false;
     canonical_get_declaration := no_declaration;
     pointee := None; template_arguments := [] |}.

Definition declaration (k : CursorKind) (self : Cursor) (name usr : string) (ln : Z)
    (t : CType) (children : list Cursor) (template : option Cursor) : CursorData :=
  {| kind := k; spelling := name; displayname := name; get_usr := usr;
     location := at_line ln; type := t; result_type := invalid_type no_declaration;
     canonical := self; get_children := children; referenced := None;
     get_definition := Some self; specialized_template := template;
     access_specifier := PUBLIC; is_virtual_method := false;
     is_pure_virtual_method := false; exception_specification_kind := EXC_NONE |}.

Definition method (self : Cursor) (owner name : string) (ln : Z) (result : CType)
    (access : AccessSpecifier) (pure : bool) (exc : ExceptionSpecificationKind)
    : CursorData :=
  {| kind := CXX_METHOD; spelling := name; displayname := name ++ "()";
     get_usr := owner ++ "@F@" ++ name; location := at_line ln;
     type := invalid_type no_declaration; result_type := result; canonical := self;
     get_children := []; referenced := None; get_definition := None;
     specialized_template := None; access_specifier := access;
     is_virtual_method := pure; is_pure_virtual_method := pure;
     exception_specification_kind := exc |}.

Definition IObject_abi_type : CType := record_type "omni::core::IObject_abi" IObject_abi [].
Definition IFoo_abi_type : CType := record_type "IFoo_abi" IFoo_abi [].
Definition IBar_abi_type : CType := record_type "IBar_abi" IBar_abi [].
Definition Wrapper_IObject_abi_type : CType :=
  record_type "Wrapper<omni::core::IObject_abi>" Wrapper_IObject_abi [IObject_abi_type].

Definition header : TranslationUnit :=
  [ declaration CLASS_DECL IObject_abi "IObject_abi" "c:@N@omni@N@core@S@IObject_abi" 2
      IObject_abi_type [acquire_abi] None;
    declaration CLASS_TEMPLATE Wrapper "Wrapper" "c:@ST>1#T@Wrapper" 4
      (invalid_type Wrapper) [Wrapper_T; Wrapper_base] None;
    declaration TEMPLATE_TYPE_PARAMETER Wrapper_T "T" "c:IFoo.h@T" 4
      (invalid_type Wrapper_T) [] None;
    declaration CXX_BASE_SPECIFIER Wrapper_base "T" "" 4 (invalid_type Wrapper_base) [] None;
    declaration CLASS_DECL Wrapper_IObject_abi "Wrapper"
      "c:@S@Wrapper>#$@N@omni@N@core@S@IObject_abi" 4
      Wrapper_IObject_abi_type [] (Some Wrapper);
    declaration CLASS_DECL IFoo_abi "IFoo_abi" "c:@S@IFoo_abi" 5
      IFoo_abi_type [getBar_abi; copyBar_abi; getBar] None;
    declaration CLASS_DECL IBar_abi "IBar_abi" "c:@S@IBar_abi" 12 IBar_abi_type
      [ping_abi] None;
    method acquire_abi "c:@N@omni@N@core@S@IObject_abi" "acquire_abi" 2 void_type
      PROTECTED true BASIC_NOEXCEPT;
    method getBar_abi "c:@S@IFoo_abi" "getBar_abi" 7 (pointer_type "IBar_abi *" IBar_abi_type)
      PROTECTED true BASIC_NOEXCEPT;
    method copyBar_abi "c:@S@IFoo_abi" "copyBar_abi" 8 IBar_abi_type
      PROTECTED true BASIC_NOEXCEPT;
    method getBar "c:@S@IFoo_abi" "getBar" 10 IBar_abi_type PUBLIC false EXC_NONE;
    method ping_abi "c:@S@IBar_abi" "ping_abi" 13 void_type PROTECTED true BASIC_NOEXCEPT ].

(** What the indexer reports for the header: the three class
    definitions with their bases. *)
Definition header_declarations : list DeclInfo :=
  [ MkDeclInfo IObject_abi "IObject_abi" true (Some []);
    MkDeclInfo IFoo_abi "IFoo_abi" true (Some [Wrapper_IObject_abi]);
    MkDeclInfo IBar_abi "IBar_abi" true (Some [IObject_abi]) ].

(** The hierarchy the index pass builds from them. *)
Definition header_hierarchy : Hierarchy :=
  {| _usr2info :=
       list_to_map
         [ ("c:@N@omni@N@core@S@IObject_abi", MkClassInfo IObject_abi []);
           ("c:@S@IFoo_abi", MkClassInfo IFoo_abi [Wrapper_IObject_abi]);
           ("c:@S@IBar_abi", MkClassInfo IBar_abi [IObject_abi]) ] |}.

End Sample.

(* ===================================================================== *)
(** ** Notions used to state properties                                   *)
(* ===================================================================== *)

Module Notions.

(** A child cursor that [get_attributes] takes for an [OMNI_ATTR]
    annotation. *)
Definition valid_annotation (tu : Clang.TranslationUnit) (child : Clang.Cursor) : bool :=
  Clang.cursor_kind_eqb Clang.ANNOTATE_ATTR (Clang.kind (Clang.cursor tu child))
  && Attr.is_valid (Clang.spelling (Clang.cursor tu child)).

(** The part of the world a report leaves alone. *)
Definition same_files (w w' : Generate.World) : Prop :=
  Generate.files w' = Generate.files w /\ Generate.dirs w' = Generate.dirs w
  /\ Generate.stdout w' = Generate.stdout w.

(** A reporter with the default error level that holds nothing at that
    level or above. *)
Definition no_error (r : Diagnostics.Reporter) : Prop :=
  Diagnostics.level_lt (Diagnostics.worst_diagnostic_level r) Diagnostics.ERROR = true
  /\ Diagnostics.diagnostic_error_level r = Diagnostics.ERROR.

(** A step that leaves the files alone and reports no error. *)
Definition quiet (w w' : Generate.World) : Prop :=
  same_files w w'
  /\ (no_error (Generate.reporter w) -> no_error (Generate.reporter w')).

(** The time stamp [is_output_up_to_date] records for an output. *)
Definition stamp_of (fs : gmap string Generate.File) (out : string) : string * Z :=
  (out, match fs !! out with Some f => Generate.mtime f | None => 0 end).

(** The text of a list of manifest lines. *)
Definition lines_of (keys : list string) : string :=
  String.concat "" ((fun key => key ++ String Py.newline "") <$> keys).

(** The lines of a dependency manifest as [is_output_up_to_date] reads
    them: stripped, the empty ones left out. *)
Definition manifest_lines (text : string) : list string :=
  List.filter (fun ln => negb (String.eqb ln ""))
              (Py.strip <$> Py.readlines (Py.universal_newlines text)).

(** The outputs are fresh: the manifest and every output exist, and
    every file the manifest lists exists and is not newer than any
    output. *)
Definition fresh (fs : gmap string Generate.File) (outputs : list string)
    (manifest : string) : Prop :=
  exists m,
    fs !! manifest = Some m
    /\ Forall (fun out => is_Some (fs !! out)) outputs
    /\ Forall (fun inc =>
                 exists fi, fs !! inc = Some fi
                   /\ Forall (fun out => forall fo, fs !! out = Some fo ->
                                            (Generate.mtime fi <= Generate.mtime fo)%Z)
                             outputs)
              (manifest_lines (Generate.content m)).

(** The name a token of an annotation assigns to: its key without the
    leading stars. *)
Definition token_name (t : string) : string :=
  Py.str (snd (Attr.strip_stars (Py.chars (Attr.token_key t)))).


(** Every object along the [pointee] chain satisfies [P]. *)
Fixpoint along (P : gmap string Attr.Value -> Prop) (a : Attr.Attributes) : Prop :=
  match a with
  | Attr.MkAttributes d (Attr.PAttributes a') => P d /\ along P a'
  | Attr.MkAttributes d (Attr.PValue _) => P d
  end.

(** The chain ends in a [pointee] that is [None] or another false
    value, as [__init__] leaves it. *)
Fixpoint open_ended (a : Attr.Attributes) : Prop :=
  match a with
  | Attr.MkAttributes _ (Attr.PAttributes a') => open_ended a'
  | Attr.MkAttributes _ (Attr.PValue v) => Attr.truthy v = false
  end.


End Notions.

(* ===================================================================== *)
(** ** A sample run                                                       *)
(* ===================================================================== *)

(** A small environment and file system for the sample header, used to
    exercise the generator and the driver on concrete inputs. *)

Module SampleRun.
Import Diagnostics Clang Run Generate.

Definition nl : string := String Py.newline "".

Definition translation_unit : TranslationUnitData :=
  {| cursors := Sample.header; translation_unit_cursor := 0%nat;
     translation_unit_spelling := "IFoo.h"; diagnostics_of_parse := [];
     includes := ["IFoo.h"; "IFoo.gen.h"] |}.

(** The renderers write one line of text after the copyright line;
    [difflib] is taken to report a difference exactly for unequal
    lists of lines. *)
Definition env : Environment :=
  {| now := 100;
     today_year := 2022;
     parent_of := fun _ => ".";
     context_diff := fun a b _ => if decide (a = b) then [] else ["*** differs" ++ nl];
     format_cpp := fun _ text => text;
     parse := fun _ _ => Returns translation_unit;
     declarations := fun _ => Sample.header_declarations;
     print_ast := fun _ => ret tt;
     Matches := unit;
     InterfaceMatcher := fun _ _ _ => ret tt;
     render := fun cls _ _ year =>
                 ret ("// Copyright (c) " ++ year ++ nl
                      ++ match cls with CppGenerator => "api" | PyGenerator => "py" end);
     _get_dependencies := ["omni/bind/cli.py"] |}.

Definition world (fs : list (string * File)) : World :=
  {| files := list_to_map fs; dirs := {["."]}; reporter := text_reporter (Some NOTE);
     stdout := [] |}.

(** A generator set up on [IFoo.gen.h]. *)
Definition generator (skip_write_if_same fail_on_write : bool) : CodeGenerator :=
  {| _out_filename := Some "IFoo.gen.h"; _tmp_filename := Some "IFoo.gen.h.~nv";
     _copyright_year := "2022"; _skip_write_if_same := skip_write_if_same;
     _fail_on_write := fail_on_write; _format_module := None; _repo_root := None |}.

(** The output on disk and a freshly written temporary file. *)
Definition old_and_new (old new : string) : World :=
  world [("IFoo.gen.h", MkFile old 10); ("IFoo.gen.h.~nv", MkFile new 100)].

(** [omni.bind IFoo.h --api IFoo.gen.h -M IFoo.d] *)
Definition args : Cli.Args :=
  {| Cli.input := "IFoo.h"; Cli.api := Some "IFoo.gen.h"; Cli.py := None;
     Cli.verbose_ := false; Cli.debug := false; Cli.ast := false;
     Cli.M_ := Some "IFoo.d"; Cli.skip_write_if_same := false;
     Cli.format_module := None; Cli.repo_root := None; Cli.fail_on_write := false |}.

(** The header alone, before the first run. *)
Definition sources : World := world [("IFoo.h", MkFile "class IFoo_abi;" 50)].

(** The header, its generated file and the manifest of an earlier run,
    both newer than the header. *)
Definition built : World :=
  world [("IFoo.h", MkFile "class IFoo_abi;" 50);
         ("IFoo.gen.h", MkFile "api" 60);
         ("IFoo.d", MkFile ("IFoo.h" ++ nl) 60)].

End SampleRun.

(* ===================================================================== *)
(** ** model.py: interfaces and their properties                          *)
(* ===================================================================== *)

Module Interfaces.
Import Diagnostics Clang Run Extract.

(** [l.index(p)] on characters: the first position where [p] occurs;
    [None] when it does not occur. *)
Fixpoint index_chars (p l : list ascii) : option nat :=
  if String.prefix (Py.str p) (Py.str l) then Some 0%nat
  else match l with
       | [] => None
       | _ :: l' => S <$> index_chars p l'
       end.

(** [s.index(p)] *)
Definition index (s p : string) : Outcome Exn nat :=
  match index_chars (Py.chars p) (Py.chars s) with
  | Some i => Returns i
  | None => Raises (ValueError "substring not found")
  end.

(** [s[:i]] for [i >= 0] *)
Definition slice_to (i : nat) (s : string) : string := Py.str (take i (Py.chars s)).

(** [Interface._remove_abi_postfix(s)] *)
Definition _remove_abi_postfix (s : string) : Outcome Exn string :=
  match index s "_abi" with
  | Returns i => Returns (slice_to i s)
  | Raises e => Raises e
  end.

(** [[A-Z]] of a regular expression *)
Definition is_upper (c : ascii) : bool :=
  let n := nat_of_ascii c in ((65 <=? n) && (n <=? 90))%nat.

(** [re.match] of [name] against the pattern made of [^], the word and
    a group of one [[A-Z]] and a greedy run of [.]: the text of the
    group when the pattern matches, [None] when it does not.  The group
    is the capital letter and what follows it up to the first newline. *)
Definition match_word (word name : string) : option string :=
  if Py.startswith name word then
    match drop (String.length word) (Py.chars name) with
    | c :: rest => if is_upper c then Some (Py.str (c :: Py.dot_run rest)) else None
    | [] => None
    end
  else None.

(** [Method._lower_first(s)] *)
Definition _lower_first (s : string) : Outcome Exn string :=
  match Py.chars s with
  | c :: rest => Returns (Py.str (Py.lower_char c :: rest))
  | [] => Raises IndexError
  end.

(** [Method.name] *)
Definition method_name (self : Model.Method) : string := Model._name self.

(** [Method.property_setter_name] *)
Definition property_setter_name (self : Model.Method) : Outcome Exn (option string) :=
  if Attr.truthy (Attr.get (Model.method_attributes self) "not_prop") then Returns None
  else if negb (Nat.eqb 1 (List.length (Model.parameters self))) then Returns None
  else
    match match_word "set" (method_name self) with
    | Some group =>
        match _lower_first group with
        | Returns p => Returns (Some p)
        | Raises e => Raises e
        end
    | None => Returns None
    end.

(** [Method.property_getter_name] *)
Definition property_getter_name (self : Model.Method) : Outcome Exn (option string) :=
  if Attr.truthy (Attr.get (Model.method_attributes self) "not_prop") then Returns None
  else if negb (Nat.eqb 0 (List.length (Model.parameters self))) then Returns None
  else
    match match_word "get" (method_name self) with
    | Some group =>
        match _lower_first group with
        | Returns p => Returns (Some p)
        | Raises e => Raises e
        end
    | None =>
        match match_word "is" (method_name self) with
        | Some group =>
            match _lower_first group with
            | Returns p => Returns (Some p)
            | Raises e => Raises e
            end
        | None => Returns None
        end
    end.

(** [Method.is_property] *)
Definition is_property (self : Model.Method) : Outcome Exn bool :=
  match property_getter_name self with
  | Returns (Some _) => Returns true
  | Returns None =>
      match property_setter_name self with
      | Returns prop => Returns (bool_decide (prop <> None))
      | Raises e => Raises e
      end
  | Raises e => Raises e
  end.

(** A value of [Interface.properties]: the dictionary
    [{"set": ..., "get": ...}]. *)
Record Accessors : Type := MkAccessors {
  setter : option Model.Method;
  getter : option Model.Method;
}.

(** [Interface.properties]: a dictionary, kept in insertion order. *)
Definition Properties : Type := list (string * Accessors).

Fixpoint has_key (prop : string) (properties : Properties) : bool :=
  match properties with
  | [] => false
  | (k, _) :: rest => String.eqb k prop || has_key prop rest
  end.

(** [properties[prop][...] = ...] for a key that is present *)
Fixpoint update (prop : string) (f : Accessors -> Accessors) (properties : Properties)
    : Properties :=
  match properties with
  | [] => []
  | (k, v) :: rest =>
      if String.eqb k prop then (k, f v) :: rest else (k, v) :: update prop f rest
  end.

(** [properties[prop]] *)
Fixpoint lookup (prop : string) (properties : Properties) : option Accessors :=
  match properties with
  | [] => None
  | (k, v) :: rest => if String.eqb k prop then Some v else lookup prop rest
  end.

(** The two [if prop:] blocks of the last loop of [Interface.__init__]. *)
Definition add_setter (method : Model.Method) (prop : option string)
    (properties : Properties) : Properties :=
  match prop with
  | Some prop =>
      if negb (String.eqb prop "") then
        if negb (has_key prop properties) then
          (properties ++ [(prop, MkAccessors (Some method) None)])%list
        else update prop (fun v => MkAccessors (Some method) (getter v)) properties
      else properties
  | None => properties
  end.

Definition add_getter (method : Model.Method) (prop : option string)
    (properties : Properties) : Properties :=
  match prop with
  | Some prop =>
      if negb (String.eqb prop "") then
        if negb (has_key prop properties) then
          (properties ++ [(prop, MkAccessors None (Some method))])%list
        else update prop (fun v => MkAccessors (setter v) (Some method)) properties
      else properties
  | None => properties
  end.

(** The fields of an [Interface] object. *)
Record Interface : Type := MkInterface {
  interface_cursor : Cursor;
  interface_attributes : Attr.Attributes;
  abi_name : string;
  name : string;
  methods : list Model.Method;
  baseName : string;
  properties : Properties;
}.

Section TranslationUnit.

Variable tu : TranslationUnit.
Variable depth : nat.
Variable hierarchy : Hierarchy.

(** The loop that builds [self.methods]. *)
Fixpoint build_methods (children : list Cursor) (methods : list Model.Method)
    : M (list Model.Method) :=
  match children with
  | [] => ret methods
  | child :: rest =>
      if cursor_kind_eqb CXX_METHOD (kind (cursor tu child)) then
        method <- Model.Method__init__ tu depth hierarchy child ;;
        build_methods rest (methods ++ [method])%list
      else build_methods rest methods
  end.

(** The loop over [chain]: the first type spelling that starts with
    ["omni::core::Api"]. *)
Fixpoint find_base_name (chain : list Cursor) : option string :=
  match chain with
  | [] => None
  | b :: rest =>
      let baseName := type_spelling (type (cursor tu b)) in
      if Py.startswith baseName "omni::core::Api" then Some baseName
      else find_base_name rest
  end.

(** The loop that builds [self.properties]. *)
Fixpoint build_properties (methods : list Model.Method) (properties : Properties)
    : M Properties :=
  match methods with
  | [] => ret properties
  | method :: rest =>
      prop <- lift (property_setter_name method) ;;
      let properties := add_setter method prop properties in
      prop <- lift (property_getter_name method) ;;
      let properties := add_getter method prop properties in
      build_properties rest properties
  end.

(** [Interface(cursor, hierarchy, reporter)] *)
Definition Interface__init__ (c : Cursor) : M Interface :=
  attributes <- Model.CursorObject__init__ tu c ;;
  let spelling := type_spelling (type (cursor tu c)) in
  names <-
    (if Py.endswith spelling "_abi" then
       name <- lift (_remove_abi_postfix spelling) ;;
       ret (spelling, name)
     else ret (spelling ++ "_abi", spelling)) ;;
  methods <- build_methods (get_children (cursor tu c)) [] ;;
  chain <- get_hierarchy tu depth hierarchy c ;;
  let baseName := default "omni::core::IObject" (find_base_name chain) in
  properties <- build_properties methods [] ;;
  ret {| interface_cursor := c;
         interface_attributes := attributes;
         abi_name := fst names;
         name := snd names;
         methods := methods;
         baseName := baseName;
         properties := properties |}.

(** [Interface.short_name] *)
Definition short_name (self : Interface) : Outcome Exn string :=
  _remove_abi_postfix (spelling (cursor tu (interface_cursor self))).

End TranslationUnit.

End Interfaces.

(* ===================================================================== *)
(** ** Notions used to state properties of interfaces                     *)
(* ===================================================================== *)

Module InterfaceNotions.
Import Interfaces.

(** [name] is [word], a capital letter and a rest, and [p] is the
    capital in lower case and the rest up to its first newline. *)
Definition decapitalised (word name p : string) : Prop :=
  exists c rest,
    is_upper c = true
    /\ name = word ++ String c rest
    /\ p = String (Py.lower_char c) (Py.str (Py.dot_run (Py.chars rest))).

(** [method] is a setter, or a getter, of the property [p]. *)
Definition sets (p : string) (method : Model.Method) : bool :=
  match property_setter_name method with
  | Returns (Some q) => String.eqb q p
  | _ => false
  end.

Definition gets (p : string) (method : Model.Method) : bool :=
  match property_getter_name method with
  | Returns (Some q) => String.eqb q p
  | _ => false
  end.

(** The last method of the list that satisfies [f]. *)
Definition last_where (f : Model.Method -> bool) (methods : list Model.Method)
    : option Model.Method :=
  last (List.filter f methods).

(** What the table holds once the setters of [ds] and the getters of
    [dg] are entered. *)
Definition table (ds dg : list Model.Method) (p : string) : option Accessors :=
  if existsb (sets p) ds || existsb (gets p) dg
  then Some (MkAccessors (last_where (sets p) ds) (last_where (gets p) dg))
  else None.

Definition entered (ds dg : list Model.Method) (props : Properties) : Prop :=
  List.NoDup (fst <$> props) /\ forall p, lookup p props = table ds dg p.

(** [x] is the error of a check of [Method.__init__] that [method]
    fails. *)
Definition failed_check (tu : Clang.TranslationUnit) (depth : nat) (h : Extract.Hierarchy)
    (r : Diagnostics.Reporter) (method : Model.Method) (x : Diagnostics.DiagnosticMessage)
    : Prop :=
  let c := Model.method_cursor method in
  let n := Clang.cursor tu c in
  (x = Report.err tu c "interface ABI methods must end in '_abi'"
   /\ Py.endswith (Clang.spelling n) "_abi" = false)
  \/ (x = Report.err tu c "method must be pure virtual"
      /\ Clang.is_pure_virtual_method n = false)
  \/ (x = Report.err tu c "noexcept must be specified"
      /\ Clang.exception_specification_eqb Clang.BASIC_NOEXCEPT
           (Clang.exception_specification_kind n) = false)
  \/ (x = Report.err tu c "return type is not ABI safe"
      /\ fst (Extract.is_abi_safe_type tu depth h (Some (Model.method_attributes method))
                (Clang.result_type n) r) = Returns false)
  \/ (x = Report.err tu c "ABI method must be protected"
      /\ Clang.access_eqb Clang.PROTECTED (Clang.access_specifier n) = false).

(** What a parameter that is built leaves in the reporter of its
    method: side notes, and the message of its ["checking ABI safety"]
    scope at a level below the error level [e]. *)
Definition scope_note (e : Diagnostics.DiagnosticLevel) (x : Diagnostics.DiagnosticMessage)
    : Prop :=
  Report.side_note x
  \/ (Diagnostics.message x = "checking ABI safety"
      /\ Diagnostics.level_lt (Diagnostics.level x) e = true).

(** The texts of the errors of [Method.__init__]. *)
Definition check_texts : list string :=
  [ "interface ABI methods must end in '_abi'"; "method must be pure virtual";
    "noexcept must be specified"; "return type is not ABI safe";
    "ABI method must be protected" ].

Definition scope_note_or_check (e : Diagnostics.DiagnosticLevel)
    (x : Diagnostics.DiagnosticMessage) : Prop :=
  scope_note e x \/ In (Diagnostics.message x) check_texts.

(** A computation that, when it returns on a reporter with the error
    level [e], has only appended: [P] bounds what it adds to the
    reporter it is run on, [Q] what it adds to the ancestors. *)
Definition Returning {A} (P Q : Diagnostics.DiagnosticMessage -> Prop)
    (e : Diagnostics.DiagnosticLevel) (m : Run.M A) : Prop :=
  forall r a r',
    Diagnostics.diagnostic_error_level r = e ->
    m r = (Returns a, r') -> Run.extends P Q r r'.

End InterfaceNotions.

(* ===================================================================== *)
(** ** A sample parameter                                                 *)
(* ===================================================================== *)

(** The declaration of a parameter [int count], on its own. *)

Module SampleParameter.
Import Clang.

Definition count : Cursor := 0%nat.

Definition int_type : CType :=
  {| type_kind := OTHER_TYPE_KIND "INT"; type_spelling := "int"; is_const_qualified := false;
     get_declaration := Sample.no_declaration; canonical_is_pod := true;
     canonical_get_declaration := Sample.no_declaration;
     pointee := None; template_arguments := [] |}.

Definition declarations : TranslationUnit :=
  [ Sample.declaration PARM_DECL count "count" "c:IFoo.h@count" 3 int_type [] None ].

Definition no_classes : Extract.Hierarchy := Extract.MkHierarchy ∅.

End SampleParameter.

(* ===================================================================== *)
(** ** Notions used to state properties of the class hierarchy            *)
(* ===================================================================== *)

Module HierarchyNotions.
Import Clang Extract.

(** [d] is a definition of the declaration with the USR [usr]. *)
Definition defines (tu : TranslationUnit) (usr : string) (d : DeclInfo) : bool :=
  is_definition d && String.eqb (get_usr (cursor tu (decl_cursor d))) usr.

(** What [_index_declaration] records for a definition: the
    declaration of the canonical cursor, and the declarations of the
    canonical cursors of the bases (none for what is not a class). *)
Definition recorded (tu : TranslationUnit) (d : DeclInfo) : ClassInfo :=
  {| info_cursor := get_declaration (type (cursor tu (canonical (cursor tu (decl_cursor d)))));
     bases :=
       match cxx_class_decl_info d with
       | Some class_bases =>
           (fun base => get_declaration (type (cursor tu (canonical (cursor tu base)))))
             <$> class_bases
       | None => []
       end |}.

End HierarchyNotions.

(* ===================================================================== *)
(** * Part II: properties                                                 *)
(* ===================================================================== *)

Local Open Scope list_scope.

(** ** The diagnostic reporter *)

Section ReporterFacts.
Import Diagnostics.

Lemma level_lt_irrefl a : level_lt a a = false.
Proof. unfold level_lt. apply Z.ltb_irrefl. Qed.

Lemma level_lt_asym a b : level_lt a b = true -> level_lt b a = false.
Proof. unfold level_lt. intros H. apply Z.ltb_lt in H. apply Z.ltb_ge. lia. Qed.

Lemma level_lt_trans a b c :
  level_lt a b = true -> level_lt b c = true -> level_lt a c = true.
Proof. unfold level_lt. rewrite !Z.ltb_lt. lia. Qed.

Lemma level_value_inj a b : level_value a = level_value b -> a = b.
Proof. destruct a, b; simpl; intros H; try reflexivity; discriminate H. Qed.

Lemma level_max_value a b :
  level_value (level_max a b) = Z.max (level_value a) (level_value b).
Proof.
  unfold level_max, level_gt, level_lt.
  destruct (level_value a <? level_value b) eqn:E.
  - apply Z.ltb_lt in E. lia.
  - apply Z.ltb_ge in E. lia.
Qed.

Lemma set_this_this r : set_this r (this r) = r.
Proof. destruct r; reflexivity. Qed.

(** A message below the log level is dropped and nothing changes. *)
Lemma emit_message_rejected msg r :
  level_lt (level msg) (diagnostic_log_level r) = true ->
  emit_message msg r = (None, r).
Proof.
  intros H. unfold emit_message, base_emit_message. rewrite H.
  now rewrite set_this_this.
Qed.

(** A message at or above the log level is appended and returned. *)
Lemma emit_message_accepted msg r :
  level_lt (level msg) (diagnostic_log_level r) = false ->
  fst (emit_message msg r) = Some msg
  /\ diagnostics (snd (emit_message msg r)) = diagnostics r ++ [msg]
  /\ worst_diagnostic_level (snd (emit_message msg r))
     = level_max (worst_diagnostic_level r) (level msg)
  /\ parents (snd (emit_message msg r)) = parents r.
Proof.
  intros H. unfold emit_message, base_emit_message. rewrite H. simpl.
  unfold diagnostics, worst_diagnostic_level, print_into, level_max. simpl.
  destruct (_class (this r)); simpl; auto.
Qed.

Lemma log_level_configured r a :
  _diagnostic_log_level (this r) = Some a -> diagnostic_log_level r = a.
Proof.
  intros H. unfold diagnostic_log_level, _value_for. simpl. now rewrite H.
Qed.

Lemma emit_rejected lvl src text r :
  level_lt lvl (diagnostic_log_level r) = true ->
  emit lvl src text r = (Returns None, r).
Proof. intros H. unfold emit. now rewrite H. Qed.

Lemma emit_accepted lvl src text r :
  level_lt lvl (diagnostic_log_level r) = false ->
  let msg := MkDiagnosticMessage lvl src text [] in
  fst (emit lvl src (Some text) r) = Returns (Some msg)
  /\ diagnostics (snd (emit lvl src (Some text) r)) = diagnostics r ++ [msg].
Proof.
  intros H. cbv zeta. unfold emit. rewrite H.
  destruct (emit_message_accepted (MkDiagnosticMessage lvl src text []) r H)
    as (H1 & H2 & _).
  destruct (emit_message (MkDiagnosticMessage lvl src text []) r) as [res r'].
  simpl in *. subst res. split; [reflexivity | assumption].
Qed.

End ReporterFacts.

(** C8.  For severities [a < b], a reporter configured with log level
    [a] accepts a message at level [b] and a message at level [a]: it
    is appended to the collected diagnostics and returned.  A message at
    a level strictly below [a] is rejected: [None] is returned and the
    reporter is unchanged.  The same holds for [emit], which builds the
    message from its level, source and text. *)
Theorem C8_log_level_filter
    (r : Diagnostics.Reporter) (a b : Diagnostics.DiagnosticLevel)
    (msg : Diagnostics.DiagnosticMessage) :
  Diagnostics._diagnostic_log_level (Diagnostics.this r) = Some a ->
  Diagnostics.level_lt a b = true ->
  (Diagnostics.level msg = b \/ Diagnostics.level msg = a ->
   fst (Diagnostics.emit_message msg r) = Some msg
   /\ Diagnostics.diagnostics (snd (Diagnostics.emit_message msg r))
      = Diagnostics.diagnostics r ++ [msg])
  /\ (Diagnostics.level_lt (Diagnostics.level msg) a = true ->
      Diagnostics.emit_message msg r = (None, r))
  /\ (forall lvl src text,
        lvl = b \/ lvl = a ->
        fst (Diagnostics.emit lvl src (Some text) r)
        = Returns (Some (Diagnostics.MkDiagnosticMessage lvl src text []))
        /\ Diagnostics.diagnostics (snd (Diagnostics.emit lvl src (Some text) r))
           = Diagnostics.diagnostics r ++ [Diagnostics.MkDiagnosticMessage lvl src text []])
  /\ (forall lvl src text,
        Diagnostics.level_lt lvl a = true ->
        Diagnostics.emit lvl src text r = (Returns None, r)).
Proof.
  intros Hlog Hab.
  pose proof (log_level_configured r a Hlog) as Hl.
  assert (Hacc : forall l, l = b \/ l = a ->
                 Diagnostics.level_lt l (Diagnostics.diagnostic_log_level r) = false).
  { intros l [-> | ->]; rewrite Hl.
    - now apply level_lt_asym.
    - apply level_lt_irrefl. }
  repeat split.
  - destruct (emit_message_accepted msg r (Hacc _ H)) as (H1 & _). exact H1.
  - destruct (emit_message_accepted msg r (Hacc _ H)) as (_ & H2 & _). exact H2.
  - intros H. apply emit_message_rejected. now rewrite Hl.
  - destruct (emit_accepted lvl src text r (Hacc _ H)) as (H1 & _). exact H1.
  - destruct (emit_accepted lvl src text r (Hacc _ H)) as (_ & H2). exact H2.
  - intros lvl src text H. apply emit_rejected. now rewrite Hl.
Qed.

(** A reporter whose log level is [note] takes an error and a note and
    drops a verbose message. *)
Lemma C8_log_level_filter_witness :
  let r := Diagnostics.text_reporter (Some Diagnostics.NOTE) in
  let msg := Diagnostics.MkDiagnosticMessage Diagnostics.ERROR None "bad" [] in
  Diagnostics._diagnostic_log_level (Diagnostics.this r) = Some Diagnostics.NOTE
  /\ Diagnostics.level_lt Diagnostics.NOTE Diagnostics.ERROR = true
  /\ fst (Diagnostics.emit_message msg r) = Some msg.
Proof.
  intros r msg.
  split; [reflexivity | split; [reflexivity |]].
  apply (C8_log_level_filter r Diagnostics.NOTE Diagnostics.ERROR msg
           eq_refl eq_refl).
  left; reflexivity.
Defined.

(** C10.  A message the log-level filter rejects leaves the reporter as
    it was: nothing is added to the diagnostics, the worst level is not
    raised, and the reporter is exactly as valid as before, whatever the
    level of the message (error and fatal included). *)
Theorem C10_rejected_message_leaves_reporter_unchanged
    (r : Diagnostics.Reporter) (msg : Diagnostics.DiagnosticMessage) :
  Diagnostics.level_lt (Diagnostics.level msg) (Diagnostics.diagnostic_log_level r) = true ->
  Diagnostics.emit_message msg r = (None, r)
  /\ Diagnostics.diagnostics (snd (Diagnostics.emit_message msg r))
     = Diagnostics.diagnostics r
  /\ Diagnostics.worst_diagnostic_level (snd (Diagnostics.emit_message msg r))
     = Diagnostics.worst_diagnostic_level r
  /\ Diagnostics.valid (snd (Diagnostics.emit_message msg r)) = Diagnostics.valid r
  /\ Diagnostics.validate (snd (Diagnostics.emit_message msg r)) = Diagnostics.validate r.
Proof.
  intros H. rewrite (emit_message_rejected msg r H). simpl. repeat split.
Qed.

(** An error sent to a reporter whose log level is [fatal] is dropped,
    and the reporter stays valid. *)
Lemma C10_rejected_message_leaves_reporter_unchanged_witness :
  let r := Diagnostics.text_reporter (Some Diagnostics.FATAL) in
  let msg := Diagnostics.MkDiagnosticMessage Diagnostics.ERROR None "bad" [] in
  Diagnostics.level_lt (Diagnostics.level msg) (Diagnostics.diagnostic_log_level r) = true
  /\ Diagnostics.emit_message msg r = (None, r)
  /\ Diagnostics.valid (snd (Diagnostics.emit_message msg r)) = true.
Proof.
  intros r msg.
  pose proof (C10_rejected_message_leaves_reporter_unchanged r msg eq_refl)
    as (H1 & _ & _ & H4 & _).
  split; [reflexivity | split; [exact H1 |]].
  rewrite H4. reflexivity.
Defined.

(** ** Nested scopes *)

Section ScopeFacts.
Import Diagnostics.

Lemma worst_of_app l m :
  worst_of (l ++ [m])
  = if level_gt (level m) (worst_of l) then level m else worst_of l.
Proof. unfold worst_of. now rewrite fold_left_app. Qed.

Lemma worst_of_upper l : Forall (fun m => level_lt (worst_of l) (level m) = false) l.
Proof.
  induction l as [| x l IH] using rev_ind; [constructor |].
  rewrite worst_of_app. apply Forall_app. split.
  - eapply Forall_impl; [exact IH |]. simpl. intros m Hm.
    unfold level_gt, level_lt in *.
    destruct (level_value (worst_of l) <? level_value (level x)) eqn:E; [| exact Hm].
    apply Z.ltb_lt in E. apply Z.ltb_ge in Hm. apply Z.ltb_ge. lia.
  - constructor; [| constructor].
    unfold level_gt, level_lt.
    destruct (level_value (worst_of l) <? level_value (level x)) eqn:E.
    + apply Z.ltb_irrefl.
    + exact E.
Qed.

Lemma worst_of_attained l :
  l <> [] -> Exists (fun m => level m = worst_of l) l.
Proof.
  induction l as [| x l IH] using rev_ind; [congruence |]. intros _.
  rewrite worst_of_app. apply Exists_app.
  destruct (level_gt (level x) (worst_of l)) eqn:E.
  - right. constructor. reflexivity.
  - destruct l as [| y l'].
    + right. constructor. simpl.
      unfold level_gt, level_lt, worst_of in *. simpl in *.
      apply Z.ltb_ge in E. apply level_value_inj. simpl.
      destruct (level x); simpl in *; lia.
    + left. apply IH. congruence.
Qed.

Lemma base_emit_message_consistent lvl msg o :
  consistent o -> consistent (snd (base_emit_message lvl msg o)).
Proof.
  unfold consistent, base_emit_message. intros H.
  destruct (level_lt (level msg) lvl); simpl; [exact H |].
  rewrite worst_of_app, H. reflexivity.
Qed.

Lemma print_into_fields msg o :
  _diagnostics (print_into msg o) = _diagnostics o
  /\ _worst_diagnostic_level (print_into msg o) = _worst_diagnostic_level o
  /\ _diagnostic_log_level (print_into msg o) = _diagnostic_log_level o
  /\ _diagnostic_error_level (print_into msg o) = _diagnostic_error_level o
  /\ is_block (print_into msg o) = is_block o.
Proof. unfold print_into, is_block. destruct (_class o) eqn:E; simpl; rewrite ?E; auto. Qed.

Lemma base_emit_message_is_block lvl msg o :
  is_block (snd (base_emit_message lvl msg o)) = is_block o.
Proof. unfold base_emit_message. destruct (level_lt (level msg) lvl); reflexivity. Qed.

(** What [emit_message] leaves alone: the parents, and the class and
    configuration of the reporter. *)
Lemma emit_message_frame msg r :
  parents (snd (emit_message msg r)) = parents r
  /\ is_block (this (snd (emit_message msg r))) = is_block (this r)
  /\ _diagnostic_log_level (this (snd (emit_message msg r))) = _diagnostic_log_level (this r)
  /\ _diagnostic_error_level (this (snd (emit_message msg r)))
     = _diagnostic_error_level (this r)
  /\ (forall initial, _class (this r) = DiagnosticReportBlock initial ->
      _class (this (snd (emit_message msg r))) = DiagnosticReportBlock initial).
Proof.
  unfold emit_message, base_emit_message.
  destruct (level_lt (level msg) (diagnostic_log_level r)); simpl.
  - repeat split; auto.
  - unfold print_into, is_block. simpl.
    destruct (_class (this r)) eqn:E; simpl; rewrite ?E; repeat split; auto;
      intros; congruence.
Qed.

Lemma emit_message_well_formed msg r :
  well_formed r -> well_formed (snd (emit_message msg r)).
Proof.
  unfold well_formed. intros (Hc & Hb & Hrest).
  destruct (emit_message_frame msg r) as (Hp & Hblk & _).
  rewrite Hp. simpl. repeat split; [| now rewrite Hblk | exact Hrest].
  unfold emit_message.
  pose proof (base_emit_message_consistent (diagnostic_log_level r) msg (this r) Hc) as H.
  destruct (base_emit_message (diagnostic_log_level r) msg (this r)) as [[m |] o]; simpl in *.
  - unfold consistent in *.
    destruct (print_into_fields m o) as (H1 & H2 & _). now rewrite H1, H2.
  - exact H.
Qed.

Lemma emit_well_formed lvl src text r :
  well_formed r -> well_formed (snd (emit lvl src text r)).
Proof.
  intros H. unfold emit.
  destruct (level_lt lvl (diagnostic_log_level r)); [exact H |].
  destruct text as [t |]; [| exact H].
  pose proof (emit_message_well_formed (MkDiagnosticMessage lvl src t []) r H) as H'.
  destruct (emit_message (MkDiagnosticMessage lvl src t []) r). exact H'.
Qed.

Lemma emit_frame lvl src text r :
  parents (snd (emit lvl src text r)) = parents r
  /\ is_block (this (snd (emit lvl src text r))) = is_block (this r)
  /\ (forall initial, _class (this r) = DiagnosticReportBlock initial ->
      _class (this (snd (emit lvl src text r))) = DiagnosticReportBlock initial).
Proof.
  unfold emit.
  destruct (level_lt lvl (diagnostic_log_level r)); [auto |].
  destruct text as [t |]; [| auto].
  destruct (emit_message_frame (MkDiagnosticMessage lvl src t []) r) as (H1 & H2 & _ & _ & H3).
  destruct (emit_message (MkDiagnosticMessage lvl src t []) r). auto.
Qed.

Lemma block_exit_well_formed exc r msg res parent :
  well_formed r -> block_exit exc r = Some (msg, res, parent) -> well_formed parent.
Proof.
  unfold block_exit. intros Hwf.
  destruct (_class (this r)) eqn:Ec; try discriminate.
  destruct (parents r) as [| p gp] eqn:Ep; try discriminate.
  destruct (_class (this (match exc with Some text => exit_with_exception text r | None => r end)));
    try discriminate.
  match goal with
  | |- context [emit_message ?m ?q] =>
      pose proof (emit_message_well_formed m q) as H; destruct (emit_message m q) as [res' p']
  end.
  intros E. injection E as _ _ <-. apply H.
  unfold well_formed in *. rewrite Ep in Hwf. simpl in *. tauto.
Qed.

Lemma Step_well_formed r r' : Step r r' -> well_formed r -> well_formed r'.
Proof.
  intros [] Hwf.
  - now apply emit_message_well_formed.
  - now apply emit_well_formed.
  - unfold well_formed in *. simpl in *. exact Hwf.
  - unfold well_formed in *. simpl in *. exact Hwf.
  - unfold well_formed, set_root_level in *.
    destruct (_class (this r0)) eqn:E; try exact Hwf.
    simpl in *. destruct Hwf as (H1 & H2 & H3). repeat split; auto.
    intros _. apply H2. unfold is_block. now rewrite E.
  - unfold reporter_exit. destruct exc; simpl; [| exact Hwf].
    unfold exit_with_exception, fatal. now apply emit_well_formed.
Qed.

Lemma Reachable_well_formed r : Reachable r -> well_formed r.
Proof.
  induction 1.
  - unfold well_formed, consistent, is_block; simpl; repeat split; auto; discriminate.
  - unfold well_formed, consistent, is_block; simpl; repeat split; auto; discriminate.
  - unfold well_formed in *. simpl. split; [reflexivity |]. split; [discriminate | exact IHReachable].
  - eapply Step_well_formed; eauto.
  - unfold well_formed in *. rewrite H0 in IHReachable. simpl in *.
    destruct IHReachable as (H2 & _ & H3).
    split; [exact H2 |]. split; [discriminate |].
    apply (Step_well_formed _ _ H1). exact H3.
  - eapply block_exit_well_formed; eauto.
Qed.


(** The state of a block when it closes is still that block. *)
Lemma closing_block exc r initial :
  _class (this r) = DiagnosticReportBlock initial ->
  _class (this (closing exc r)) = DiagnosticReportBlock initial
  /\ parents (closing exc r) = parents r.
Proof.
  intros H. destruct exc as [text |]; simpl; [| auto].
  unfold exit_with_exception, fatal.
  destruct (emit_frame FATAL None (Some text) r) as (H1 & _ & H3). auto.
Qed.

Lemma closing_well_formed exc r : well_formed r -> well_formed (closing exc r).
Proof.
  destruct exc; simpl; [| auto]. unfold exit_with_exception, fatal. apply emit_well_formed.
Qed.

End ScopeFacts.

(** C3.  When a nested scope closes, one message is handed to the
    parent's [emit_message].  Its nested list is the list of messages the
    scope has accumulated (each one as it was emitted, so with its own
    level); its level is the maximum of the level declared for the scope
    at that moment and the worst level among those messages, hence never
    below the declared level nor below any nested message; its source and
    text are those given when the scope was opened.  In particular a
    scope declared at [warning] that holds an [error] message and nothing
    worse is emitted at [error]. *)
Theorem C3_scope_close
    (r : Diagnostics.Reporter) (initial : Diagnostics.DiagnosticMessage)
    (exc : option string) :
  Diagnostics.Reachable r ->
  Diagnostics._class (Diagnostics.this r) = Diagnostics.DiagnosticReportBlock initial ->
  exists msg res parent grandparents parent',
    Diagnostics.parents r = parent :: grandparents
    /\ Diagnostics.block_exit exc r = Some (msg, res, parent')
    /\ (res, parent')
       = Diagnostics.emit_message msg
           {| Diagnostics.this := parent; Diagnostics.parents := grandparents |}
    /\ Diagnostics.nested msg = Diagnostics.diagnostics (Diagnostics.closing exc r)
    /\ Diagnostics.level_value (Diagnostics.level msg)
       = Z.max (Diagnostics.level_value (Diagnostics.level initial))
               (Diagnostics.level_value (Diagnostics.worst_of (Diagnostics.nested msg)))
    /\ Diagnostics.level_lt (Diagnostics.level msg) (Diagnostics.level initial) = false
    /\ Forall (fun m => Diagnostics.level_lt (Diagnostics.level msg) (Diagnostics.level m) = false)
              (Diagnostics.nested msg)
    /\ Diagnostics.source msg = Diagnostics.source initial
    /\ Diagnostics.message msg = Diagnostics.message initial
    /\ (Diagnostics.level initial = Diagnostics.WARNING ->
        Exists (fun m => Diagnostics.level m = Diagnostics.ERROR) (Diagnostics.nested msg) ->
        Forall (fun m => Diagnostics.level m <> Diagnostics.FATAL) (Diagnostics.nested msg) ->
        Diagnostics.level msg = Diagnostics.ERROR).
Proof.
  intros Hreach Hclass.
  pose proof (Reachable_well_formed r Hreach) as Hwf.
  pose proof (closing_well_formed exc r Hwf) as Hwf1.
  destruct (closing_block exc r initial Hclass) as (Hclass1 & Hparents1).
  assert (Hblock : Diagnostics.is_block (Diagnostics.this r) = true).
  { unfold Diagnostics.is_block. now rewrite Hclass. }
  destruct Hwf as (_ & Hpar & _). specialize (Hpar Hblock).
  destruct (Diagnostics.parents r) as [| parent grandparents] eqn:Ep; [congruence |].
  destruct Hwf1 as (Hcons & _).
  set (msg := Diagnostics.replace_level_nested initial
                (Diagnostics.level_max
                   (Diagnostics.worst_diagnostic_level (Diagnostics.closing exc r))
                   (Diagnostics.level initial))
                (Diagnostics.diagnostics (Diagnostics.closing exc r))).
  destruct (Diagnostics.emit_message msg
              {| Diagnostics.this := parent; Diagnostics.parents := grandparents |})
    as [res parent'] eqn:Eemit.
  exists msg, res, parent, grandparents, parent'.
  assert (Hlevel : Diagnostics.level_value (Diagnostics.level msg)
                   = Z.max (Diagnostics.level_value (Diagnostics.level initial))
                       (Diagnostics.level_value
                          (Diagnostics.worst_of (Diagnostics.nested msg)))).
  { subst msg. simpl. rewrite level_max_value.
    unfold Diagnostics.worst_diagnostic_level, Diagnostics.diagnostics.
    unfold Diagnostics.consistent in Hcons. rewrite Hcons. lia. }
  assert (Hupper : Forall (fun m => Diagnostics.level_lt (Diagnostics.level msg)
                                      (Diagnostics.level m) = false)
                          (Diagnostics.nested msg)).
  { eapply Forall_impl; [apply worst_of_upper |]. intros m Hm. cbv beta in Hm.
    unfold Diagnostics.level_lt in *. apply Z.ltb_ge in Hm. apply Z.ltb_ge.
    rewrite Hlevel. lia. }
  split; [reflexivity |]. split.
  { unfold Diagnostics.block_exit. rewrite Hclass, Ep.
    change (match exc with
            | Some text => Diagnostics.exit_with_exception text r
            | None => r
            end) with (Diagnostics.closing exc r).
    rewrite Hclass1. fold msg. now rewrite Eemit. }
  split; [symmetry; exact Eemit |].
  split; [reflexivity |].
  split; [exact Hlevel |].
  split; [unfold Diagnostics.level_lt; apply Z.ltb_ge; lia |].
  split; [exact Hupper |].
  split; [reflexivity |].
  split; [reflexivity |].
  intros Hw Hex Hall. clearbody msg.
  apply level_value_inj. rewrite Hlevel, Hw.
  assert (Hworst : Diagnostics.level_value
                     (Diagnostics.worst_of (Diagnostics.nested msg)) = 4).
  { generalize dependent (Diagnostics.nested msg). intros acc _ _ Hex Hall.
    apply Exists_exists in Hex. destruct Hex as (m & Hin & Hm).
    pose proof (worst_of_upper acc) as Hup.
    rewrite Forall_forall in Hup. specialize (Hup m Hin).
    unfold Diagnostics.level_lt in Hup. apply Z.ltb_ge in Hup. rewrite Hm in Hup.
    assert (Hne : acc <> []) by (intros ->; inversion Hin).
    pose proof (worst_of_attained acc Hne) as Hat.
    apply Exists_exists in Hat. destruct Hat as (m' & Hin' & Hm').
    rewrite Forall_forall in Hall. specialize (Hall m' Hin').
    rewrite <- Hm' in *.
    destruct (Diagnostics.level m'); simpl in *; try lia; congruence. }
  rewrite Hworst. reflexivity.
Qed.

(** A scope opened at [warning] on a text reporter, holding one
    [error] message, closes into an [error] whose nested list is that
    message. *)
Lemma C3_scope_close_witness :
  let parent := Diagnostics.text_reporter None in
  let initial := Diagnostics.MkDiagnosticMessage Diagnostics.WARNING None "Oh no" [] in
  let r := snd (Diagnostics.emit Diagnostics.ERROR None (Some "Bad value")
                  (Diagnostics.nest_message initial parent)) in
  Diagnostics.Reachable r
  /\ Diagnostics._class (Diagnostics.this r) = Diagnostics.DiagnosticReportBlock initial
  /\ exists msg res parent',
       Diagnostics.block_exit None r = Some (msg, res, parent')
       /\ Diagnostics.level msg = Diagnostics.ERROR.
Proof.
  intros parent initial r.
  assert (Hr : Diagnostics.Reachable r).
  { eapply Diagnostics.reach_step; [| apply Diagnostics.step_emit].
    apply Diagnostics.reach_nest, Diagnostics.reach_text. }
  split; [exact Hr | split; [reflexivity |]].
  destruct (C3_scope_close r initial None Hr eq_refl)
    as (msg & res & p & gp & parent' & _ & Hexit & _ & Hnested & _ & _ & _ & _ & _ & Herr).
  exists msg, res, parent'. split; [exact Hexit |].
  apply Herr.
  - reflexivity.
  - rewrite Hnested. constructor. reflexivity.
  - rewrite Hnested. repeat constructor. discriminate.
Defined.

(** ** The class hierarchy *)

Section HierarchyFacts.
Import Diagnostics Clang Run Extract.

Variable tu : TranslationUnit.
Variable h : Hierarchy.

Local Arguments cursor : simpl never.

Lemma emit_returns lvl src t r :
  exists res r', emit lvl src (Some t) r = (Returns res, r').
Proof.
  unfold emit. destruct (level_lt lvl (diagnostic_log_level r)); [eauto |].
  destruct (emit_message (MkDiagnosticMessage lvl src t []) r). eauto.
Qed.

Lemma on_root_verbose_returns t r :
  exists res r', on_root (verbose None (Some t)) r = (Returns res, r').
Proof.
  unfold on_root, verbose.
  destruct (emit_returns VERBOSE None t (root r)) as (res & r' & E). rewrite E. eauto.
Qed.

(** A canonical class with exactly one recorded base: the chain goes on
    with that base. *)
Lemma _get_hierarchy_single_base depth node out info base r :
  canonical_get_declaration (type (cursor tu node)) = node ->
  _usr2info h !! get_usr (cursor tu node) = Some info ->
  bases info = [base] ->
  exists r1, _get_hierarchy tu (S depth) h node out r
             = _get_hierarchy tu depth h base (out ++ [node]) r1.
Proof.
  intros Hc Hi Hb. simpl. rewrite Hc, Nat.eqb_refl. simpl. rewrite Hi.
  unfold bind.
  destruct (on_root_verbose_returns ("usr: " ++ get_usr (cursor tu node)) r) as (res & r1 & E).
  rewrite E, Hb. eauto.
Qed.

(** A canonical class recorded with no base, or with several: the
    chain ends there. *)
Lemma _get_hierarchy_end depth node out info r :
  canonical_get_declaration (type (cursor tu node)) = node ->
  _usr2info h !! get_usr (cursor tu node) = Some info ->
  List.length (bases info) <> 1%nat ->
  fst (_get_hierarchy tu (S depth) h node out r) = Returns (out ++ [node]).
Proof.
  intros Hc Hi Hb. simpl. rewrite Hc, Nat.eqb_refl. simpl. rewrite Hi.
  unfold bind.
  destruct (on_root_verbose_returns ("usr: " ++ get_usr (cursor tu node)) r) as (res & r1 & E).
  rewrite E. destruct (bases info) as [| b [| b' rest]]; simpl in *; try reflexivity.
  congruence.
Qed.

(** A canonical class the index does not know, whose base is found
    through its template: the chain goes on with that base. *)
Lemma _get_hierarchy_template_base depth node out base r :
  canonical_get_declaration (type (cursor tu node)) = node ->
  _usr2info h !! get_usr (cursor tu node) = None ->
  _get_template_base tu depth node [] = Returns (Some base) ->
  base <> node ->
  _get_hierarchy tu (S depth) h node out r
  = _get_hierarchy tu depth h base (out ++ [node]) r.
Proof.
  intros Hc Hi Hb Hne. simpl. rewrite Hc, Nat.eqb_refl. simpl. rewrite Hi.
  unfold bind, lift. rewrite Hb.
  destruct (Nat.eqb_spec base node) as [-> | _]; [congruence | reflexivity].
Qed.

(** The base of a specialization whose template derives from one of its
    own parameters is the declaration of the argument given for it. *)
Lemma _get_template_base_parameter depth wrapper template params base i argument :
  kind (cursor tu wrapper) = CLASS_DECL \/ kind (cursor tu wrapper) = STRUCT_DECL ->
  specialized_template (cursor tu wrapper) = Some template ->
  kind (cursor tu template) = CLASS_TEMPLATE ->
  template_children tu (get_children (cursor tu template)) [] None = (params, Some base) ->
  find_index (fun param => String.eqb (spelling (cursor tu param)) (spelling (cursor tu base)))
             params = Some i ->
  template_arguments (type (cursor tu wrapper)) !! i = Some argument ->
  _get_template_base tu (S (S depth)) wrapper [] = Returns (Some (get_declaration argument)).
Proof.
  intros Hk Hs Ht Hch Hfi Ha.
  simpl. destruct Hk as [Hk | Hk]; rewrite Hk; simpl;
    rewrite Hs, Ht; simpl; rewrite Hch, Hfi, Ha; reflexivity.
Qed.

End HierarchyFacts.

(** C4.  A class that reaches the root marker [omni::core::IObject_abi]
    through a templated wrapper (its recorded base is a specialization
    the index does not know, whose template derives from one of its own
    parameters, and the argument given for that parameter is the root
    marker) has the chain [concrete; wrapper; root]; a class whose
    recorded base is the root marker has the chain [direct; root].  Both
    chains end in the same root, and [is_interface] answers [True] for
    both, as soon as the interpreter allows four nested calls. *)
Theorem C4_chain_through_template_wrapper
    (tu : Clang.TranslationUnit) (h : Extract.Hierarchy)
    (concrete wrapper template root direct base : Clang.Cursor)
    (params : list Clang.Cursor) (i : nat) (argument : Clang.CType)
    (concrete_info direct_info root_info : Extract.ClassInfo)
    (depth : nat) (r : Diagnostics.Reporter) :
  Clang.canonical_get_declaration (Clang.type (Clang.cursor tu concrete)) = concrete ->
  Clang.canonical_get_declaration (Clang.type (Clang.cursor tu wrapper)) = wrapper ->
  Clang.canonical_get_declaration (Clang.type (Clang.cursor tu root)) = root ->
  Clang.canonical_get_declaration (Clang.type (Clang.cursor tu direct)) = direct ->
  Extract._usr2info h !! Clang.get_usr (Clang.cursor tu concrete) = Some concrete_info ->
  Extract.bases concrete_info = [wrapper] ->
  Extract._usr2info h !! Clang.get_usr (Clang.cursor tu direct) = Some direct_info ->
  Extract.bases direct_info = [root] ->
  Extract._usr2info h !! Clang.get_usr (Clang.cursor tu wrapper) = None ->
  Clang.kind (Clang.cursor tu wrapper) = Clang.CLASS_DECL
  \/ Clang.kind (Clang.cursor tu wrapper) = Clang.STRUCT_DECL ->
  Clang.specialized_template (Clang.cursor tu wrapper) = Some template ->
  Clang.kind (Clang.cursor tu template) = Clang.CLASS_TEMPLATE ->
  Extract.template_children tu (Clang.get_children (Clang.cursor tu template)) [] None
  = (params, Some base) ->
  Extract.find_index
    (fun param => String.eqb (Clang.spelling (Clang.cursor tu param))
                             (Clang.spelling (Clang.cursor tu base)))
    params = Some i ->
  Clang.template_arguments (Clang.type (Clang.cursor tu wrapper)) !! i = Some argument ->
  Clang.get_declaration argument = root ->
  root <> wrapper ->
  Extract._usr2info h !! Clang.get_usr (Clang.cursor tu root) = Some root_info ->
  Extract.bases root_info = [] ->
  Clang.type_spelling (Clang.type (Clang.cursor tu root)) = "omni::core::IObject_abi" ->
  (4 <= depth)%nat ->
  fst (Extract.get_hierarchy tu depth h concrete r) = Returns [concrete; wrapper; root]
  /\ fst (Extract.get_hierarchy tu depth h direct r) = Returns [direct; root]
  /\ List.last [concrete; wrapper; root] root = List.last [direct; root] root
  /\ fst (Extract.is_interface tu depth h concrete r) = Returns true
  /\ fst (Extract.is_interface tu depth h direct r) = Returns true.
Proof.
  intros Hcc Hcw Hcr Hcd Hic Hbc Hid Hbd Hiw Hkw Hsw Hkt Hch Hfi Harg Hdecl Hne Hir Hbr
         Hspell Hdepth.
  destruct depth as [| [| [| [| d]]]]; try lia.
  assert (Hroot_end : forall d' out r', fst (Extract._get_hierarchy tu (S d') h root out r')
                                        = Returns (out ++ [root])).
  { intros. eapply _get_hierarchy_end; eauto. rewrite Hbr. simpl. lia. }
  assert (Hconcrete : fst (Extract.get_hierarchy tu (S (S (S (S d)))) h concrete r)
                      = Returns [concrete; wrapper; root]).
  { unfold Extract.get_hierarchy.
    destruct (_get_hierarchy_single_base tu h (S (S (S d))) concrete [] _ _ r Hcc Hic Hbc)
      as (r1 & ->).
    rewrite (_get_hierarchy_template_base tu h (S (S d)) wrapper ([] ++ [concrete]) root r1).
    - apply Hroot_end.
    - exact Hcw.
    - exact Hiw.
    - rewrite <- Hdecl. eapply _get_template_base_parameter; eauto.
    - exact Hne. }
  assert (Hdirect : fst (Extract.get_hierarchy tu (S (S (S (S d)))) h direct r)
                    = Returns [direct; root]).
  { unfold Extract.get_hierarchy.
    destruct (_get_hierarchy_single_base tu h (S (S (S d))) direct [] _ _ r Hcd Hid Hbd)
      as (r1 & ->).
    apply Hroot_end. }
  split; [exact Hconcrete |]. split; [exact Hdirect |]. split; [reflexivity |].
  unfold Extract.is_interface, Run.bind.
  split.
  - destruct (Extract.get_hierarchy tu (S (S (S (S d)))) h concrete r) as [res r'].
    simpl in Hconcrete. subst res. simpl. now rewrite Hspell.
  - destruct (Extract.get_hierarchy tu (S (S (S (S d)))) h direct r) as [res r'].
    simpl in Hdirect. subst res. simpl. now rewrite Hspell.
Qed.

(** On the sample header, [IFoo_abi] reaches the root marker through
    [Wrapper<omni::core::IObject_abi>] and [IBar_abi] directly. *)
Lemma C4_chain_through_template_wrapper_witness :
  fst (Extract.get_hierarchy Sample.header 4 Sample.header_hierarchy Sample.IFoo_abi
         Diagnostics.default_reporter)
  = Returns [Sample.IFoo_abi; Sample.Wrapper_IObject_abi; Sample.IObject_abi]
  /\ fst (Extract.is_interface Sample.header 4 Sample.header_hierarchy Sample.IFoo_abi
            Diagnostics.default_reporter) = Returns true
  /\ fst (Extract.is_interface Sample.header 4 Sample.header_hierarchy Sample.IBar_abi
            Diagnostics.default_reporter) = Returns true.
Proof.
  destruct (C4_chain_through_template_wrapper
              Sample.header Sample.header_hierarchy
              Sample.IFoo_abi Sample.Wrapper_IObject_abi Sample.Wrapper Sample.IObject_abi
              Sample.IBar_abi Sample.Wrapper_base [Sample.Wrapper_T] 0
              Sample.IObject_abi_type
              (Extract.MkClassInfo Sample.IFoo_abi [Sample.Wrapper_IObject_abi])
              (Extract.MkClassInfo Sample.IBar_abi [Sample.IObject_abi])
              (Extract.MkClassInfo Sample.IObject_abi [])
              4 Diagnostics.default_reporter)
    as (H1 & _ & _ & H4 & H5);
    try reflexivity.
  all: try (left; reflexivity).
  all: try discriminate.
  all: try lia.
  auto.
Defined.

(** ** Attribute annotations *)

(** C6.  Parsing ["*count=len,*in"] gives a root record whose [count]
    is [None] and whose [input] is [False], with a pointee record whose
    [count] is ["len"] and whose [input] is [True]; the chain is one
    record deep, as deep as the most-starred key.  The general statement
    fails on the code: [_parse] accepts the key [pointee], because
    [hasattr] finds the instance attribute of that name, and overwrites
    the pointee record.  Parsing ["*in,pointee"] succeeds with [pointee]
    set to [True]: no pointee record is left although a key had one [*]. *)
Theorem C6_pointee_key_overwrites_the_chain :
  (exists root p,
      Attr.__init__ (Some "omni_attr:*count=len,*in") = Returns root
      /\ Attr.get root "count" = Attr.VNone
      /\ Attr.get root "input" = Attr.VBool false
      /\ Attr.pointee root = Attr.PAttributes p
      /\ Attr.get p "count" = Attr.VStr "len"
      /\ Attr.get p "input" = Attr.VBool true
      /\ Attr.pointee_depth root = 1%nat
      /\ Attr.deepest_stars "omni_attr:*count=len,*in" = 1%nat)
  /\ Attr.__init__ (Some "omni_attr:*in,pointee")
     = Returns (Attr.MkAttributes (list_to_map Attr.attrs) (Attr.PValue (Attr.VBool true)))
  /\ Attr.deepest_stars "omni_attr:*in,pointee" = 1%nat
  /\ Attr.pointee_depth
       (Attr.MkAttributes (list_to_map Attr.attrs) (Attr.PValue (Attr.VBool true))) = 0%nat.
Proof.
  split.
  - eexists. eexists. split; [vm_compute; reflexivity |].
    repeat split; vm_compute; reflexivity.
  - repeat split; vm_compute; reflexivity.
Qed.

(** C9.  The keys [in], [out] and [return] set [input], [output] and
    [returned] on the record at the key's level, and a key such as
    [foo] raises [ValueError].  The key [pointee] is not an option name
    and yet raises nothing: [hasattr(attributes, "pointee")] holds, so
    the value is assigned over the pointee. *)
Theorem C9_pointee_key_is_accepted :
  Attr.__init__ (Some "omni_attr:pointee")
  = Returns (Attr.MkAttributes (list_to_map Attr.attrs) (Attr.PValue (Attr.VBool true)))
  /\ Attr.mem "pointee" (fst <$> Attr.attrs) = false
  /\ Attr.__init__ (Some "omni_attr:foo") = Raises (Diagnostics.ValueError "unknown OMNI_ATTR: 'foo'")
  /\ (exists root p,
        Attr.__init__ (Some "omni_attr:in,*out,*return") = Returns root
        /\ Attr.get root "input" = Attr.VBool true
        /\ Attr.pointee root = Attr.PAttributes p
        /\ Attr.get p "output" = Attr.VBool true
        /\ Attr.get p "returned" = Attr.VBool true).
Proof.
  split; [vm_compute; reflexivity |].
  split; [vm_compute; reflexivity |].
  split; [vm_compute; reflexivity |].
  eexists. eexists. split; [vm_compute; reflexivity |].
  repeat split; vm_compute; reflexivity.
Qed.

(* ===================================================================== *)
(** * Part III: further properties of the code                            *)
(* ===================================================================== *)

(** ** Computations only append *)

Section FrameFacts.
Import Diagnostics Clang Run Extract Report.

Implicit Types P Q : DiagnosticMessage -> Prop.

Lemma same_class_refl o : same_class o o.
Proof. unfold same_class. destruct (_class o); auto. Qed.

Lemma same_class_trans o1 o2 o3 :
  same_class o1 o2 -> same_class o2 o3 -> same_class o1 o3.
Proof.
  unfold same_class.
  destruct (_class o1), (_class o2), (_class o3); auto; try tauto; congruence.
Qed.

Lemma grown_refl P o : grown P o o.
Proof.
  repeat split; auto using same_class_refl.
  exists []. split; [now rewrite app_nil_r | constructor].
Qed.

Lemma grown_trans P o1 o2 o3 : grown P o1 o2 -> grown P o2 o3 -> grown P o1 o3.
Proof.
  intros ((l1 & E1 & F1) & L1 & R1 & C1) ((l2 & E2 & F2) & L2 & R2 & C2).
  repeat split; try congruence; eauto using same_class_trans.
  exists (l1 ++ l2). split; [rewrite E2, E1; now rewrite app_assoc |].
  apply Forall_app; auto.
Qed.

Lemma grown_weaken P P' o o' :
  (forall m, P m -> P' m) -> grown P o o' -> grown P' o o'.
Proof.
  intros H ((l & E & F) & rest). split; [| exact rest].
  exists l. split; [exact E |]. eapply Forall_impl; eauto.
Qed.

Lemma Forall2_grown_refl Q l : Forall2 (grown Q) l l.
Proof. induction l; constructor; auto using grown_refl. Qed.

Lemma Forall2_grown_trans Q l1 l2 l3 :
  Forall2 (grown Q) l1 l2 -> Forall2 (grown Q) l2 l3 -> Forall2 (grown Q) l1 l3.
Proof.
  intros H. revert l3. induction H; intros l3 H3; inversion H3; subst; constructor;
    eauto using grown_trans.
Qed.

Lemma Forall2_grown_weaken Q Q' l l' :
  (forall m, Q m -> Q' m) -> Forall2 (grown Q) l l' -> Forall2 (grown Q') l l'.
Proof. intros H F. induction F; constructor; eauto using grown_weaken. Qed.

Lemma extends_refl P Q r : extends P Q r r.
Proof. split; auto using grown_refl, Forall2_grown_refl. Qed.

Lemma extends_trans P Q r1 r2 r3 :
  extends P Q r1 r2 -> extends P Q r2 r3 -> extends P Q r1 r3.
Proof.
  intros (H1 & H2) (H3 & H4). split; eauto using grown_trans, Forall2_grown_trans.
Qed.

Lemma extends_weaken P Q P' Q' r r' :
  (forall m, P m -> P' m) -> (forall m, Q m -> Q' m) ->
  extends P Q r r' -> extends P' Q' r r'.
Proof.
  intros HP HQ (H1 & H2). split; eauto using grown_weaken, Forall2_grown_weaken.
Qed.

(** The configured levels are read along the parent chain, which a
    computation leaves as it is. *)
Lemma value_for_chain_grown {T} (sel : ReporterObject -> option T) d Q l l' :
  (forall o o', grown Q o o' -> sel o' = sel o) ->
  Forall2 (grown Q) l l' -> value_for_chain sel d l' = value_for_chain sel d l.
Proof.
  intros Hsel F. induction F; simpl; [reflexivity |].
  rewrite (Hsel _ _ H). destruct (sel x); auto.
Qed.

Lemma extends_log_level P Q r r' :
  extends P Q r r' -> diagnostic_log_level r' = diagnostic_log_level r.
Proof.
  intros (H1 & H2). unfold diagnostic_log_level, _value_for. simpl.
  destruct H1 as (_ & L & _). rewrite L.
  destruct (_diagnostic_log_level (this r)); [reflexivity |].
  eapply value_for_chain_grown; [| exact H2]. intros o o' (_ & L' & _). exact L'.
Qed.

Lemma extends_error_level P Q r r' :
  extends P Q r r' -> diagnostic_error_level r' = diagnostic_error_level r.
Proof.
  intros (H1 & H2). unfold diagnostic_error_level, _value_for. simpl.
  destruct H1 as (_ & _ & L & _). rewrite L.
  destruct (_diagnostic_error_level (this r)); [reflexivity |].
  eapply value_for_chain_grown; [| exact H2]. intros o o' (_ & _ & L' & _). exact L'.
Qed.

Lemma extends_diagnostics P Q r r' :
  extends P Q r r' ->
  exists l, diagnostics r' = diagnostics r ++ l /\ Forall P l.
Proof. intros (((l & E & F) & _) & _). exists l. auto. Qed.

(** *** The building blocks *)

Lemma emit_message_extends P Q msg r :
  P msg -> extends P Q r (snd (emit_message msg r)).
Proof.
  intros HP. unfold emit_message, base_emit_message.
  destruct (level_lt (level msg) (diagnostic_log_level r)); simpl.
  - split; simpl; [apply grown_refl | apply Forall2_grown_refl].
  - split; simpl; [| apply Forall2_grown_refl].
    unfold print_into. simpl.
    destruct (_class (this r)) eqn:E; simpl;
      (split; [exists [msg]; split; [reflexivity | repeat constructor; exact HP] |]);
      (split; [reflexivity | split; [reflexivity |]]);
      unfold same_class; simpl; rewrite E; auto.
Qed.

Lemma emit_extends P Q lvl src text r :
  (forall t, text = Some t -> P (MkDiagnosticMessage lvl src t [])) ->
  extends P Q r (snd (emit lvl src text r)).
Proof.
  intros HP. unfold emit.
  destruct (level_lt lvl (diagnostic_log_level r)); [apply extends_refl |].
  destruct text as [t |]; [| apply extends_refl].
  pose proof (emit_message_extends P Q (MkDiagnosticMessage lvl src t []) r (HP t eq_refl)) as H.
  destruct (emit_message (MkDiagnosticMessage lvl src t []) r). exact H.
Qed.

Lemma Mono_ret {A} P Q (a : A) : Mono P Q (ret a).
Proof. intros r. apply extends_refl. Qed.

Lemma Mono_raise {A} P Q e : Mono P Q (@raise Reporter A e).
Proof. intros r. apply extends_refl. Qed.

Lemma Mono_lift {A} P Q (o : Outcome Exn A) : Mono P Q (lift o).
Proof. intros r. apply extends_refl. Qed.

Lemma Mono_bind {A B} P Q (m : M A) (k : A -> M B) :
  Mono P Q m -> (forall a, Mono P Q (k a)) -> Mono P Q (bind m k).
Proof.
  intros Hm Hk r. unfold bind. specialize (Hm r).
  destruct (m r) as [[a | e] r1]; simpl in *; [| exact Hm].
  eapply extends_trans; [exact Hm | apply Hk].
Qed.

Lemma Mono_weaken {A} P Q P' Q' (m : M A) :
  (forall x, P x -> P' x) -> (forall x, Q x -> Q' x) -> Mono P Q m -> Mono P' Q' m.
Proof. intros HP HQ H r. eapply extends_weaken; eauto. Qed.

Lemma Mono_when P Q b (m : M unit) : Mono P Q m -> Mono P Q (when b m).
Proof. intros H. destruct b; simpl; [exact H | apply Mono_ret]. Qed.

Lemma Mono_report P Q lvl src text :
  P (MkDiagnosticMessage lvl src text []) -> Mono P Q (report lvl src text).
Proof.
  intros HP. unfold report. apply Mono_bind; [| intros; apply Mono_ret].
  intros r. apply emit_extends. intros t [= <-]. exact HP.
Qed.

Lemma Pure_ret {A} (a : A) : Pure (@ret Reporter A a).
Proof. intros r1 r2. reflexivity. Qed.

Lemma Pure_raise {A} e : Pure (@raise Reporter A e).
Proof. intros r1 r2. reflexivity. Qed.

Lemma Pure_lift {A} (o : Outcome Exn A) : Pure (@lift Reporter A o).
Proof. intros r1 r2. reflexivity. Qed.

Lemma Pure_bind {A B} (m : M A) (k : A -> M B) :
  Pure m -> (forall a, Pure (k a)) -> Pure (bind m k).
Proof.
  intros Hm Hk r1 r2. unfold bind. specialize (Hm r1 r2).
  destruct (m r1) as [[a | e] r1'], (m r2) as [[a' | e'] r2']; simpl in *;
    try congruence.
  injection Hm as ->. apply Hk.
Qed.

Lemma Pure_when b (m : M unit) : Pure m -> Pure (when b m).
Proof. intros H. destruct b; simpl; [exact H | apply Pure_ret]. Qed.

Lemma Pure_report lvl src text : Pure (report lvl src text).
Proof.
  intros r1 r2. unfold report, bind.
  destruct (emit_returns lvl src text r1) as (x1 & r1' & ->).
  destruct (emit_returns lvl src text r2) as (x2 & r2' & ->). reflexivity.
Qed.


Lemma Forall2_grown_last Q l o' d :
  l <> [] -> grown Q (List.last l d) o' ->
  Forall2 (grown Q) l (removelast l ++ [o']).
Proof.
  induction l as [| a [| b l'] IH]; intros Hne Hg.
  - congruence.
  - simpl in *. constructor; [exact Hg | constructor].
  - change (removelast (a :: b :: l')) with (a :: removelast (b :: l')).
    simpl app. constructor; [apply grown_refl |].
    apply IH; [discriminate | exact Hg].
Qed.

Lemma on_root_extends {A} P Q (m : M A) r :
  (forall x, Q x -> P x) ->
  extends Q Q (root r) (snd (m (root r))) ->
  extends P Q r (snd (on_root m r)).
Proof.
  intros HQP H. unfold on_root.
  destruct (m (root r)) as [res r0]. simpl in *.
  destruct H as (Hthis & _). unfold root in Hthis. simpl in Hthis.
  unfold set_root. destruct (parents r) as [| p ps] eqn:Ep.
  - simpl in Hthis. split; simpl; [| rewrite Ep; constructor].
    eapply grown_weaken; eauto.
  - split; simpl; [apply grown_refl |]. rewrite Ep.
    apply (Forall2_grown_last Q (p :: ps) (this r0) (this r)); [discriminate | exact Hthis].
Qed.

Lemma Mono_on_root_verbose P Q text :
  (forall x, is_verbose x -> P x) -> (forall x, is_verbose x -> Q x) ->
  Mono P Q (on_root (verbose None (Some text))).
Proof.
  intros HP HQ r. eapply extends_weaken; [| | apply (on_root_extends is_verbose is_verbose)].
  - exact HP.
  - exact HQ.
  - auto.
  - unfold verbose. apply emit_extends. intros t _. reflexivity.
Qed.

Lemma Pure_on_root_verbose_then {A} text (k : M A) :
  Pure k -> Pure (bind (on_root (verbose None (Some text))) (fun _ => k)).
Proof.
  intros Hk r1 r2. unfold bind.
  destruct (on_root_verbose_returns text r1) as (x1 & r1' & ->).
  destruct (on_root_verbose_returns text r2) as (x2 & r2' & ->). apply Hk.
Qed.

End FrameFacts.

(** ** The hierarchy and layout functions only append side notes *)

Section ExtractFrame.
Import Diagnostics Clang Run Extract Report.

Variable tu : TranslationUnit.
Variable h : Hierarchy.

Lemma CType_pointee_ind (P : CType -> Prop) :
  (forall t, (forall t', pointee t = Some t' -> P t') -> P t) -> forall t, P t.
Proof.
  intros H. fix IH 1. intros t. apply H.
  destruct t as [k s c d p cd [t' |] ta]; simpl; intros t'' E.
  - injection E as <-. apply IH.
  - discriminate.
Qed.

Lemma block_exit_extends P Q exc sub initial p gp :
  _class (this sub) = DiagnosticReportBlock initial ->
  parents sub = p :: gp ->
  (forall x, message x = message initial -> P x) ->
  exists msg res parent,
    block_exit exc sub = Some (msg, res, parent)
    /\ extends P Q {| this := p; parents := gp |} parent.
Proof.
  intros Hc Hp HP. unfold block_exit. rewrite Hc, Hp.
  set (r1 := match exc with Some text => exit_with_exception text sub | None => sub end).
  assert (Hc1 : _class (this r1) = DiagnosticReportBlock initial).
  { subst r1. destruct exc as [text |]; [| exact Hc].
    unfold exit_with_exception, fatal.
    pose proof (emit_extends anything anything FATAL None (Some text) sub
                  (fun _ _ => I)) as ((_ & _ & _ & Hs) & _).
    unfold same_class in Hs. rewrite Hc in Hs.
    destruct (_class (this (snd (emit FATAL None (Some text) sub)))); try tauto; congruence. }
  rewrite Hc1.
  pose proof (emit_message_extends P Q
                (replace_level_nested initial
                   (level_max (worst_diagnostic_level r1) (level initial)) (diagnostics r1))
                {| this := p; parents := gp |}) as H.
  destruct (emit_message _ _) as [res parent]. simpl in H.
  eexists _, res, parent. split; [reflexivity |]. apply H, HP. reflexivity.
Qed.

Lemma Mono_with_nest {A} P Q P' lvl src text (body : M A) :
  Mono P' is_verbose body ->
  (forall x, is_verbose x -> P x) -> (forall x, is_verbose x -> Q x) ->
  (forall x, message x = text -> P x) ->
  Mono P Q (with_nest lvl src text body).
Proof.
  intros Hbody HvP HvQ Htext r. unfold with_nest.
  specialize (Hbody (nest_message (MkDiagnosticMessage lvl src text []) r)).
  destruct (body _) as [res sub']. simpl in Hbody.
  destruct Hbody as ((_ & _ & _ & Hc) & Hps). simpl in Hps.
  inversion Hps as [| o p l gp Hg Hgs]; subst.
  unfold same_class in Hc. simpl in Hc.
  destruct (_class (this sub')) as [| initial |] eqn:Hcls; try tauto. subst initial.
  destruct (block_exit_extends P Q
              (match res with Raises e => Some (exit_text e) | Returns _ => None end)
              sub' _ p gp Hcls (eq_sym H1) Htext) as (msg & res' & parent & -> & Hext).
  simpl. eapply extends_trans; [| exact Hext].
  split; simpl; [eapply grown_weaken; eauto | eapply Forall2_grown_weaken; eauto].
Qed.

Lemma side_note_verbose x : is_verbose x -> side_note x.
Proof. intros H. left. exact H. Qed.

Lemma side_note_warning src text : side_note (MkDiagnosticMessage WARNING src text []).
Proof. right. left. reflexivity. Qed.

Create HintDb frame.
#[local] Hint Resolve side_note_verbose side_note_warning : frame.

Lemma Mono_get_attributes_loop c children attributes :
  Mono side_note is_verbose (get_attributes_loop tu c children attributes).
Proof.
  revert attributes. induction children as [| child rest IH]; intros attributes; simpl.
  - apply Mono_ret.
  - destruct (_ && _); [| apply IH].
    destruct attributes.
    + apply Mono_bind; [| intros; apply IH].
      apply Mono_report. right. right. reflexivity.
    + apply Mono_bind; [apply Mono_lift | intros; apply IH].
Qed.

Lemma Pure_get_attributes_loop c children attributes :
  Pure (get_attributes_loop tu c children attributes).
Proof.
  revert attributes. induction children as [| child rest IH]; intros attributes; simpl.
  - apply Pure_ret.
  - destruct (_ && _); [| apply IH].
    destruct attributes.
    + apply Pure_bind; [apply Pure_report | intros; apply IH].
    + apply Pure_bind; [apply Pure_lift | intros; apply IH].
Qed.

Lemma Mono_get_attributes c : Mono side_note is_verbose (get_attributes tu c).
Proof. apply Mono_get_attributes_loop. Qed.

Lemma Pure_get_attributes c : Pure (get_attributes tu c).
Proof. apply Pure_get_attributes_loop. Qed.

Lemma Mono__get_hierarchy depth node out :
  Mono side_note is_verbose (_get_hierarchy tu depth h node out).
Proof.
  revert node out. induction depth as [| depth IH]; intros node out; simpl.
  - apply Mono_raise.
  - destruct (negb _).
    + apply Mono_bind; [apply Mono_on_root_verbose; auto with frame | intros; apply IH].
    + destruct (_usr2info h !! _) as [class_info |].
      * apply Mono_bind; [apply Mono_on_root_verbose; auto with frame | intros _].
        destruct (bases class_info) as [| base [| ? ?]]; auto using Mono_ret.
      * apply Mono_bind; [apply Mono_lift | intros [base |]]; [| apply Mono_ret].
        destruct (negb _); [apply IH | apply Mono_ret].
Qed.

Lemma Pure__get_hierarchy depth node out :
  Pure (_get_hierarchy tu depth h node out).
Proof.
  revert node out. induction depth as [| depth IH]; intros node out; simpl.
  - apply Pure_raise.
  - destruct (negb _).
    + apply Pure_on_root_verbose_then, IH.
    + destruct (_usr2info h !! _) as [class_info |].
      * apply Pure_on_root_verbose_then.
        destruct (bases class_info) as [| base [| ? ?]]; auto using Pure_ret.
      * apply Pure_bind; [apply Pure_lift | intros [base |]]; [| apply Pure_ret].
        destruct (negb _); [apply IH | apply Pure_ret].
Qed.

Lemma Mono_chain_last P Q chain : Mono P Q (chain_last chain).
Proof. unfold chain_last. destruct (List.last _ _); [apply Mono_ret | apply Mono_raise]. Qed.

Lemma Pure_chain_last chain : Pure (chain_last chain).
Proof. unfold chain_last. destruct (List.last _ _); [apply Pure_ret | apply Pure_raise]. Qed.

Lemma Mono_is_interface depth c : Mono side_note is_verbose (is_interface tu depth h c).
Proof.
  unfold is_interface, get_hierarchy.
  apply Mono_bind; [apply Mono__get_hierarchy | intros chain].
  apply Mono_bind; [apply Mono_chain_last | intros; apply Mono_ret].
Qed.

Lemma Pure_is_interface depth c : Pure (is_interface tu depth h c).
Proof.
  unfold is_interface, get_hierarchy.
  apply Pure_bind; [apply Pure__get_hierarchy | intros chain].
  apply Pure_bind; [apply Pure_chain_last | intros; apply Pure_ret].
Qed.

Lemma Mono_is_kit_interface depth c :
  Mono side_note is_verbose (is_kit_interface tu depth h c).
Proof.
  unfold is_kit_interface, get_hierarchy.
  apply Mono_bind; [apply Mono__get_hierarchy | intros chain].
  apply Mono_bind; [apply Mono_chain_last | intros; apply Mono_ret].
Qed.

Lemma Mono_is_interface_pointer depth t :
  Mono side_note is_verbose (is_interface_pointer tu depth h t).
Proof.
  unfold is_interface_pointer. destruct (is_pointer t);
    [apply Mono_is_interface | apply Mono_ret].
Qed.

Lemma Pure_is_interface_pointer depth t : Pure (is_interface_pointer tu depth h t).
Proof.
  unfold is_interface_pointer. destruct (is_pointer t);
    [apply Pure_is_interface | apply Pure_ret].
Qed.

Lemma Mono_is_kit_interface_pointer depth t :
  Mono side_note is_verbose (is_kit_interface_pointer tu depth h t).
Proof.
  unfold is_kit_interface_pointer. destruct (is_pointer t);
    [apply Mono_is_kit_interface | apply Mono_ret].
Qed.

Section Layout.

Variable depth : nat.
Variable isl : CType -> M bool.
Hypothesis Mono_isl : forall t, Mono side_note is_verbose (isl t).
Hypothesis Pure_isl : forall t, Pure (isl t).

Lemma Mono_is_abi_safe_type_with attributes t :
  Mono side_note is_verbose (is_abi_safe_type_with isl attributes t).
Proof.
  unfold is_abi_safe_type_with.
  destruct (match attributes with Some _ => _ | None => _ end); [apply Mono_ret |].
  destruct (_ || _); [apply Mono_ret | apply Mono_isl].
Qed.

Lemma Pure_is_abi_safe_type_with attributes t :
  Pure (is_abi_safe_type_with isl attributes t).
Proof.
  unfold is_abi_safe_type_with.
  destruct (match attributes with Some _ => _ | None => _ end); [apply Pure_ret |].
  destruct (_ || _); [apply Pure_ret | apply Pure_isl].
Qed.

Lemma Mono_field_type_check child t :
  Mono side_note is_verbose (field_type_check tu isl child t).
Proof.
  unfold field_type_check.
  apply Mono_bind; [apply Mono_get_attributes | intros attributes].
  apply Mono_bind; [apply Mono_is_abi_safe_type_with | intros safe].
  destruct (negb safe); [| apply Mono_ret].
  apply Mono_bind; [apply Mono_report; auto with frame | intros; apply Mono_ret].
Qed.

Lemma Pure_field_type_check child t : Pure (field_type_check tu isl child t).
Proof.
  unfold field_type_check.
  apply Pure_bind; [apply Pure_get_attributes | intros attributes].
  apply Pure_bind; [apply Pure_is_abi_safe_type_with | intros safe].
  destruct (negb safe); [| apply Pure_ret].
  apply Pure_bind; [apply Pure_report | intros; apply Pure_ret].
Qed.

Lemma field_type_loop_eq child t :
  field_type_loop tu depth h isl child t
  = (returned <- field_type_check tu isl child t ;;
     match returned with
     | Some b => ret (Some b)
     | None =>
         if is_pointer t then
           interface_pointer <- is_interface_pointer tu depth h t ;;
           if negb interface_pointer then
             match pointee t with
             | Some t' => field_type_loop tu depth h isl child t'
             | None => field_type_check tu isl child (get_pointee t)
             end
           else ret None
         else ret None
     end).
Proof. destruct t; reflexivity. Qed.

Lemma Mono_field_type_loop child t :
  Mono side_note is_verbose (field_type_loop tu depth h isl child t).
Proof.
  induction t as [t IH] using CType_pointee_ind. rewrite field_type_loop_eq.
  apply Mono_bind; [apply Mono_field_type_check | intros [b |]]; [apply Mono_ret |].
  destruct (is_pointer t); [| apply Mono_ret].
  apply Mono_bind; [apply Mono_is_interface_pointer | intros ip].
  destruct (negb ip); [| apply Mono_ret].
  destruct (pointee t) as [t' |] eqn:E; [apply IH; reflexivity | apply Mono_field_type_check].
Qed.

Lemma Pure_field_type_loop child t : Pure (field_type_loop tu depth h isl child t).
Proof.
  induction t as [t IH] using CType_pointee_ind. rewrite field_type_loop_eq.
  apply Pure_bind; [apply Pure_field_type_check | intros [b |]]; [apply Pure_ret |].
  destruct (is_pointer t); [| apply Pure_ret].
  apply Pure_bind; [apply Pure_is_interface_pointer | intros ip].
  destruct (negb ip); [| apply Pure_ret].
  destruct (pointee t) as [t' |] eqn:E; [apply IH; reflexivity | apply Pure_field_type_check].
Qed.

Lemma Mono_child_check i child st :
  Mono side_note is_verbose (child_check tu depth h isl i child st).
Proof.
  unfold child_check.
  repeat match goal with
         | |- Mono _ _ (if ?b then _ else _) => destruct b
         | |- Mono _ _ (bind (report _ _ _) _) =>
             apply Mono_bind; [apply Mono_report; auto with frame | intros]
         | |- Mono _ _ (bind (field_type_loop _ _ _ _ _ _) _) =>
             apply Mono_bind; [apply Mono_field_type_loop | intros]
         | |- Mono _ _ (ret _) => apply Mono_ret
         end.
Qed.

Lemma Pure_child_check i child st : Pure (child_check tu depth h isl i child st).
Proof.
  unfold child_check.
  repeat match goal with
         | |- Pure (if ?b then _ else _) => destruct b
         | |- Pure (bind (report _ _ _) _) =>
             apply Pure_bind; [apply Pure_report | intros]
         | |- Pure (bind (field_type_loop _ _ _ _ _ _) _) =>
             apply Pure_bind; [apply Pure_field_type_loop | intros]
         | |- Pure (ret _) => apply Pure_ret
         end.
Qed.

Lemma Mono_children_loop i children st :
  Mono side_note is_verbose (children_loop tu depth h isl i children st).
Proof.
  revert st. induction children as [| child rest IH]; intros st; simpl.
  - apply Mono_ret.
  - apply Mono_bind; [apply Mono_child_check | intros [[b |] st']];
      [apply Mono_ret | apply IH].
Qed.

Lemma Pure_children_loop i children st :
  Pure (children_loop tu depth h isl i children st).
Proof.
  revert st. induction children as [| child rest IH]; intros st; simpl.
  - apply Pure_ret.
  - apply Pure_bind; [apply Pure_child_check | intros [[b |] st']];
      [apply Pure_ret | apply IH].
Qed.

Lemma Mono_chain_loop indices chain st :
  Mono side_note is_verbose (chain_loop tu depth h isl indices chain st).
Proof.
  revert st. induction indices as [| i rest IH]; intros st; simpl.
  - apply Mono_ret.
  - destruct (chain !! i); [| apply Mono_raise].
    apply Mono_bind; [apply Mono_children_loop | intros [[b |] st']];
      [apply Mono_ret | apply IH].
Qed.

Lemma Pure_chain_loop indices chain st :
  Pure (chain_loop tu depth h isl indices chain st).
Proof.
  revert st. induction indices as [| i rest IH]; intros st; simpl.
  - apply Pure_ret.
  - destruct (chain !! i); [| apply Pure_raise].
    apply Pure_bind; [apply Pure_children_loop | intros [[b |] st']];
      [apply Pure_ret | apply IH].
Qed.

Lemma Mono_is_standard_layout_body t :
  Mono side_note is_verbose (is_standard_layout_body tu depth h isl t).
Proof.
  unfold is_standard_layout_body, get_hierarchy.
  apply Mono_bind; [apply Mono__get_hierarchy | intros [| c chain]];
    [apply Mono_raise | apply Mono_chain_loop].
Qed.

Lemma Pure_is_standard_layout_body t :
  Pure (is_standard_layout_body tu depth h isl t).
Proof.
  unfold is_standard_layout_body, get_hierarchy.
  apply Pure_bind; [apply Pure__get_hierarchy | intros [| c chain]];
    [apply Pure_raise | apply Pure_chain_loop].
Qed.

End Layout.

Lemma Mono_is_standard_layout depth t :
  Mono side_note is_verbose (is_standard_layout tu depth h t).
Proof.
  revert t. induction depth as [| depth IH]; intros t; simpl.
  - apply Mono_raise.
  - apply Mono_is_standard_layout_body. exact IH.
Qed.

Lemma Pure_is_standard_layout depth t : Pure (is_standard_layout tu depth h t).
Proof.
  revert t. induction depth as [| depth IH]; intros t; simpl.
  - apply Pure_raise.
  - apply Pure_is_standard_layout_body. exact IH.
Qed.

Lemma Mono_is_abi_safe_type depth attributes t :
  Mono side_note is_verbose (is_abi_safe_type tu depth h attributes t).
Proof. apply Mono_is_abi_safe_type_with, Mono_is_standard_layout. Qed.

Lemma Pure_is_abi_safe_type depth attributes t :
  Pure (is_abi_safe_type tu depth h attributes t).
Proof. apply Pure_is_abi_safe_type_with, Pure_is_standard_layout. Qed.

End ExtractFrame.

(** ** What building a parameter adds *)

Section ModelFrame.
Import Diagnostics Clang Run Extract Model Report.

Variable tu : TranslationUnit.
Variable depth : nat.
Variable h : Hierarchy.

Lemma anything_I x : anything x.
Proof. exact I. Qed.

Lemma Mono_anything {A} (m : M A) : Mono side_note is_verbose m -> Mono anything is_verbose m.
Proof. apply Mono_weaken; auto using anything_I. Qed.

Lemma Mono_error_at c text : Mono anything is_verbose (error_at tu c text).
Proof. apply Mono_report. exact I. Qed.

Lemma Mono_read st name : Mono anything is_verbose (read st name).
Proof. unfold read. destruct (Attr.target _ _); first [apply Mono_raise | apply Mono_ret]. Qed.

Lemma Mono_flag st name : Mono anything is_verbose (flag st name).
Proof. unfold flag. apply Mono_bind; [apply Mono_read | intros; apply Mono_ret]. Qed.

Ltac mono :=
  repeat match goal with
         | |- Mono _ _ (let _ := _ in _) => cbv zeta
         | |- Mono _ _ (ret _) => apply Mono_ret
         | |- Mono _ _ (raise _) => apply Mono_raise
         | |- Mono _ _ (error_at _ _ _) => apply Mono_error_at
         | |- Mono _ _ (flag _ _) => apply Mono_flag
         | |- Mono _ _ (when _ _) => apply Mono_when
         | |- Mono _ _ (is_abi_safe_type _ _ _ _ _) =>
             apply Mono_anything, Mono_is_abi_safe_type
         | |- Mono _ _ (is_interface_pointer _ _ _ _) =>
             apply Mono_anything, Mono_is_interface_pointer
         | |- Mono _ _ (bind _ _) => apply Mono_bind; [| intros ?]
         | |- Mono _ _ (if ?b then _ else _) => destruct b
         | |- Mono _ _ (match ?x with Attr.TValue _ => _ | Attr.TAttributes _ => _ end) =>
             destruct x
         end.

Lemma Mono_validate_round c t st : Mono anything is_verbose (validate_round tu depth h c t st).
Proof. unfold validate_round. mono. Qed.

Lemma validate_loop_eq c t st :
  validate_loop tu depth h c t st
  = (res <- validate_round tu depth h c t st ;;
     let '(st', continue) := res in
     if continue then
       match pointee t with
       | Some t' => validate_loop tu depth h c t' st'
       | None => res' <- validate_round tu depth h c (get_pointee t) st' ;; ret (fst res')
       end
     else ret st').
Proof. destruct t; reflexivity. Qed.

Lemma Mono_validate_loop c t st : Mono anything is_verbose (validate_loop tu depth h c t st).
Proof.
  revert st. induction t as [t IH] using CType_pointee_ind. intros st.
  rewrite validate_loop_eq.
  apply Mono_bind; [apply Mono_validate_round | intros [st' continue]].
  destruct continue; [| apply Mono_ret].
  destruct (pointee t) as [t' |] eqn:E; [apply IH; reflexivity |].
  apply Mono_bind; [apply Mono_validate_round | intros; apply Mono_ret].
Qed.

Lemma Mono__validate_attributes c attributes :
  Mono anything is_verbose (_validate_attributes tu depth h c attributes).
Proof.
  unfold _validate_attributes.
  apply Mono_bind; [apply Mono_validate_loop | intros st]. mono.
Qed.

Lemma Mono_CursorObject__init__ c : Mono side_note is_verbose (CursorObject__init__ tu c).
Proof.
  unfold CursorObject__init__.
  apply Mono_bind; [apply Mono_get_attributes | intros; apply Mono_ret].
Qed.

Lemma Pure_CursorObject__init__ c : Pure (CursorObject__init__ tu c).
Proof.
  unfold CursorObject__init__.
  apply Pure_bind; [apply Pure_get_attributes | intros; apply Pure_ret].
Qed.

Lemma Mono_beside {A} (m : M A) : Mono side_note is_verbose m -> Mono beside is_verbose m.
Proof. apply Mono_weaken; auto. intros x Hx. left. exact Hx. Qed.

Lemma Mono_Parameter__init__ c index :
  Mono beside is_verbose (Parameter__init__ tu depth h c index).
Proof.
  unfold Parameter__init__.
  apply Mono_bind; [apply Mono_beside, Mono_CursorObject__init__ | intros attributes].
  cbv zeta.
  apply Mono_bind; [apply Mono_beside, Mono_is_interface_pointer | intros ip].
  apply Mono_bind; [apply Mono_beside, Mono_is_kit_interface_pointer | intros kip].
  apply Mono_bind.
  { destruct (is_pointer _); [apply Mono_beside, Mono_is_interface_pointer | apply Mono_ret]. }
  intros pip.
  apply Mono_bind; [| intros; apply Mono_ret].
  apply Mono_with_nest with (P' := anything).
  - apply Mono_bind; [apply Mono__validate_attributes | intros st].
    apply Mono_bind; [| intros; apply Mono_ret].
    intros r. apply extends_refl.
  - intros x Hx. left. left. exact Hx.
  - auto.
  - intros x Hx. right. exact Hx.
Qed.

Lemma Mono_build_parameters cursors i acc :
  Mono beside is_verbose (build_parameters tu depth h cursors i acc).
Proof.
  revert i acc. induction cursors as [| c rest IH]; intros i acc; simpl.
  - apply Mono_ret.
  - apply Mono_bind; [apply Mono_Parameter__init__ | intros; apply IH].
Qed.

End ModelFrame.

(** ** A class with a virtual method is never standard layout *)

Section VirtualFacts.
Import Diagnostics Clang Run Extract Report.

Variable tu : TranslationUnit.
Variable h : Hierarchy.

Lemma bind_returns {S A B} (m : ST S A) (k : A -> ST S B) s b s' :
  bind m k s = (Returns b, s') ->
  exists a s1, m s = (Returns a, s1) /\ k a s1 = (Returns b, s').
Proof.
  unfold bind. destruct (m s) as [[a | e] s1]; [eauto | discriminate].
Qed.

Lemma report_returns lvl src text r : exists r', report lvl src text r = (Returns tt, r').
Proof.
  unfold report, bind. destruct (emit_returns lvl src text r) as (x & r' & ->). eauto.
Qed.



Section Layout.

Variable depth : nat.
Variable isl : CType -> M bool.









End Layout.



End VirtualFacts.

(** ** What building a method adds *)

Section MethodFacts.
Import Diagnostics Clang Run Extract Model Report.

Variable tu : TranslationUnit.
Variable depth : nat.
Variable h : Hierarchy.

Lemma prefix_app p s : String.prefix p s = true -> exists t, s = (p ++ t)%string.
Proof.
  revert s. induction p as [| a p IH]; intros s.
  - intros _. exists s. reflexivity.
  - destruct s as [| b s]; simpl; [discriminate |].
    destruct (ascii_dec a b) as [-> |]; [| discriminate].
    intros H. apply IH in H as (t & ->). exists t. reflexivity.
Qed.

Lemma chars_app s t :
  list_ascii_of_string (s ++ t)%string = list_ascii_of_string s ++ list_ascii_of_string t.
Proof. induction s as [| a s IH]; simpl; [reflexivity | now rewrite IH]. Qed.

Lemma str_app l l' :
  string_of_list_ascii (l ++ l') = (string_of_list_ascii l ++ string_of_list_ascii l')%string.
Proof. induction l as [| a l IH]; simpl; [reflexivity | now rewrite IH]. Qed.

Lemma length_chars p : List.length (list_ascii_of_string p) = String.length p.
Proof. induction p; simpl; auto. Qed.

Lemma endswith_slice s p :
  Py.endswith s p = true ->
  (Py.slice_to_minus (String.length p) s ++ p)%string = s.
Proof.
  unfold Py.endswith, Py.slice_to_minus. intros H.
  apply prefix_app in H as (t & H).
  apply (f_equal list_ascii_of_string) in H. rewrite chars_app in H.
  unfold Py.str, Py.chars in *.
  rewrite !list_ascii_of_string_of_list_ascii in H.
  apply (f_equal (@rev ascii)) in H.
  rewrite rev_involutive, rev_app_distr, rev_involutive in H.
  transitivity (string_of_list_ascii (list_ascii_of_string s));
    [| apply string_of_list_ascii_of_string].
  rewrite H, length_app. rewrite (length_chars p). rewrite (str_app _ _).
  f_equal.
  - f_equal. apply take_app_length'. lia.
  - symmetry. apply string_of_list_ascii_of_string.
Qed.

Lemma emit_message_diagnostics msg r :
  level_lt (Diagnostics.level msg) (diagnostic_log_level r) = false ->
  diagnostics (snd (emit_message msg r)) = diagnostics r ++ [msg].
Proof.
  intros H. unfold emit_message, base_emit_message. rewrite H. simpl.
  unfold diagnostics, print_into. simpl. destruct (_class (this r)); reflexivity.
Qed.

Lemma when_error_at b c text r :
  level_lt ERROR (diagnostic_log_level r) = false ->
  exists r',
    when b (error_at tu c text) r = (Returns tt, r')
    /\ diagnostics r' = diagnostics r ++ opt b (err tu c text)
    /\ diagnostic_log_level r' = diagnostic_log_level r.
Proof.
  intros H. destruct b; simpl.
  - unfold error_at, report, bind, emit. rewrite H.
    pose proof (emit_message_diagnostics (err tu c text) r H) as Hd.
    pose proof (emit_message_extends anything anything (err tu c text) r I) as He.
    unfold err in *. destruct (emit_message _ r) as [res r']. simpl in *.
    exists r'. split; [reflexivity |]. split; [exact Hd |].
    eapply extends_log_level; eauto.
  - exists r. split; [reflexivity |]. split; [now rewrite app_nil_r | reflexivity].
Qed.

Lemma Mono_returns {A} P Q (m : M A) r a r' :
  Mono P Q m -> m r = (Returns a, r') ->
  (exists l, diagnostics r' = diagnostics r ++ l /\ Forall P l)
  /\ diagnostic_log_level r' = diagnostic_log_level r.
Proof.
  intros Hm H. specialize (Hm r). rewrite H in Hm. simpl in Hm.
  split; [eapply extends_diagnostics | eapply extends_log_level]; eauto.
Qed.

Lemma Pure_returns {A} (m : M A) r a r' r0 :
  Pure m -> m r = (Returns a, r') -> fst (m r0) = Returns a.
Proof. intros Hm H. rewrite (Hm r0 r), H. reflexivity. Qed.

(** The diagnostics after [Method.__init__], in the order they are
    appended. *)
Lemma Method__init___diagnostics c r m r' :
  Method__init__ tu depth h c r = (Returns m, r') ->
  level_lt ERROR (diagnostic_log_level r) = false ->
  exists safe l_attr l_safe l_params,
    (forall r0, fst (is_abi_safe_type tu depth h (Some (method_attributes m))
                       (result_type (cursor tu c)) r0) = Returns safe)
    /\ _name m = Py.slice_to_minus 4 (spelling (cursor tu c))
    /\ diagnostics r'
       = diagnostics r ++ l_attr
         ++ opt (negb (Py.endswith (spelling (cursor tu c)) "_abi"))
              (err tu c "interface ABI methods must end in '_abi'")
         ++ opt (negb (is_pure_virtual_method (cursor tu c)))
              (err tu c "method must be pure virtual")
         ++ opt (negb (exception_specification_eqb BASIC_NOEXCEPT
                         (exception_specification_kind (cursor tu c))))
              (err tu c "noexcept must be specified")
         ++ l_safe
         ++ opt (negb safe) (err tu c "return type is not ABI safe")
         ++ opt (negb (access_eqb PROTECTED (access_specifier (cursor tu c))))
              (err tu c "ABI method must be protected")
         ++ l_params
    /\ Forall beside l_attr /\ Forall beside l_safe /\ Forall beside l_params.
Proof.
  unfold Method__init__. intros H Hlog.
  apply bind_returns in H as (attributes & r1 & H1 & H).
  destruct (Mono_returns _ _ _ _ _ _ (Mono_beside _ (Mono_CursorObject__init__ tu c)) H1)
    as ((l_attr & D1 & F1) & L1).
  rewrite <- L1 in Hlog.
  apply bind_returns in H as ([] & r2 & H2 & H).
  destruct (when_error_at (negb (Py.endswith (spelling (cursor tu c)) "_abi")) c
              "interface ABI methods must end in '_abi'" r1 Hlog) as (r2' & E2 & D2 & L2).
  rewrite E2 in H2. injection H2 as <-. rewrite <- L2 in Hlog.
  apply bind_returns in H as ([] & r3 & H3 & H).
  destruct (when_error_at (negb (is_pure_virtual_method (cursor tu c))) c
              "method must be pure virtual" r2' Hlog) as (r3' & E3 & D3 & L3).
  rewrite E3 in H3. injection H3 as <-. rewrite <- L3 in Hlog.
  apply bind_returns in H as ([] & r4 & H4 & H).
  destruct (when_error_at
              (negb (exception_specification_eqb BASIC_NOEXCEPT
                       (exception_specification_kind (cursor tu c)))) c
              "noexcept must be specified" r3' Hlog) as (r4' & E4 & D4 & L4).
  rewrite E4 in H4. injection H4 as <-. rewrite <- L4 in Hlog.
  apply bind_returns in H as (safe & r5 & H5 & H).
  destruct (Mono_returns _ _ _ _ _ _
              (Mono_beside _ (Mono_is_abi_safe_type tu h depth (Some attributes)
                                (result_type (cursor tu c)))) H5)
    as ((l_safe & D5 & F5) & L5).
  rewrite <- L5 in Hlog.
  apply bind_returns in H as ([] & r6 & H6 & H).
  destruct (when_error_at (negb safe) c "return type is not ABI safe" r5 Hlog)
    as (r6' & E6 & D6 & L6).
  rewrite E6 in H6. injection H6 as <-. rewrite <- L6 in Hlog.
  apply bind_returns in H as ([] & r7 & H7 & H).
  destruct (when_error_at (negb (access_eqb PROTECTED (access_specifier (cursor tu c)))) c
              "ABI method must be protected" r6' Hlog) as (r7' & E7 & D7 & L7).
  rewrite E7 in H7. injection H7 as <-.
  apply bind_returns in H as (ps & r8 & H8 & H).
  destruct (Mono_returns _ _ _ _ _ _ (Mono_build_parameters tu depth h _ _ _) H8)
    as ((l_params & D8 & F8) & _).
  injection H as <- <-. simpl.
  exists safe, l_attr, l_safe, l_params.
  split; [intros r0; eapply Pure_returns; [apply Pure_is_abi_safe_type | exact H5] |].
  split; [reflexivity |].
  split; [| auto].
  rewrite D8, D7, D6, D5, D4, D3, D2, D1. now rewrite <- !app_assoc.
Qed.

End MethodFacts.

(** ** Methods *)

Lemma In_opt b m x : In x (Report.opt b m) <-> b = true /\ x = m.
Proof.
  destruct b; simpl; split.
  - intros [<- | []]. auto.
  - intros (_ & ->). auto.
  - intros [].
  - intros (H & _). discriminate.
Qed.


Lemma beside_not_err tu c text x :
  Report.beside x -> x = Report.err tu c text ->
  text = "OMNI_ATTR cannot be specified more than once on a declaration"
  \/ text = "checking ABI safety".
Proof.
  intros [[H | [H | H]] | H] ->; simpl in H; try discriminate; auto.
Qed.

Lemma not_In_beside tu c text l :
  Forall Report.beside l ->
  text <> "OMNI_ATTR cannot be specified more than once on a declaration" ->
  text <> "checking ABI safety" ->
  ~ In (Report.err tu c text) l.
Proof.
  intros Hl H1 H2 Hin. rewrite List.Forall_forall in Hl.
  destruct (beside_not_err tu c text _ (Hl _ Hin) eq_refl); contradiction.
Qed.

Lemma In_checks x l0 b1 m1 b2 m2 b3 m3 l1 b4 m4 b5 m5 l2 :
  ~ In x l0 -> ~ In x l1 -> ~ In x l2 ->
  In x (l0 ++ Report.opt b1 m1 ++ Report.opt b2 m2 ++ Report.opt b3 m3 ++ l1
        ++ Report.opt b4 m4 ++ Report.opt b5 m5 ++ l2)
  <-> (b1 = true /\ x = m1) \/ (b2 = true /\ x = m2) \/ (b3 = true /\ x = m3)
      \/ (b4 = true /\ x = m4) \/ (b5 = true /\ x = m5).
Proof.
  intros H0 H1 H2. rewrite !in_app_iff, !In_opt. tauto.
Qed.

(** X1.  With a log level that lets errors through, [Method.__init__]
    records each of its five errors exactly when the check it belongs
    to fails, whatever the parameters add; and the name it keeps is the
    spelling without its last four characters, which is the spelling
    without the suffix when the spelling ends in [_abi]. *)
Theorem Method_reports_each_failed_check
    (tu : Clang.TranslationUnit) (depth : nat) (h : Extract.Hierarchy) (c : Clang.Cursor)
    (r r' : Diagnostics.Reporter) (m : Model.Method) :
  Model.Method__init__ tu depth h c r = (Returns m, r') ->
  Diagnostics.level_lt Diagnostics.ERROR (Diagnostics.diagnostic_log_level r) = false ->
  exists added,
    Diagnostics.diagnostics r' = Diagnostics.diagnostics r ++ added
    /\ (In (Report.err tu c "interface ABI methods must end in '_abi'") added
        <-> Py.endswith (Clang.spelling (Clang.cursor tu c)) "_abi" = false)
    /\ (In (Report.err tu c "method must be pure virtual") added
        <-> Clang.is_pure_virtual_method (Clang.cursor tu c) = false)
    /\ (In (Report.err tu c "noexcept must be specified") added
        <-> Clang.exception_specification_eqb Clang.BASIC_NOEXCEPT
              (Clang.exception_specification_kind (Clang.cursor tu c)) = false)
    /\ (In (Report.err tu c "return type is not ABI safe") added
        <-> fst (Extract.is_abi_safe_type tu depth h (Some (Model.method_attributes m))
                   (Clang.result_type (Clang.cursor tu c)) r) = Returns false)
    /\ (In (Report.err tu c "ABI method must be protected") added
        <-> Clang.access_eqb Clang.PROTECTED (Clang.access_specifier (Clang.cursor tu c))
            = false)
    /\ Model._name m = Py.slice_to_minus 4 (Clang.spelling (Clang.cursor tu c))
    /\ (Py.endswith (Clang.spelling (Clang.cursor tu c)) "_abi" = true ->
        (Model._name m ++ "_abi")%string = Clang.spelling (Clang.cursor tu c)).
Proof.
  intros H Hlog.
  destruct (Method__init___diagnostics tu depth h c r m r' H Hlog)
    as (safe & l_attr & l_safe & l_params & Hsafe & Hname & Hd & Fa & Fs & Fp).
  eexists. split; [exact Hd |].
  assert (Hno : forall text l, Forall Report.beside l ->
            text <> "OMNI_ATTR cannot be specified more than once on a declaration" ->
            text <> "checking ABI safety" -> ~ In (Report.err tu c text) l)
    by (intros; now apply not_In_beside).
  split; [| split; [| split; [| split; [| split; [| split]]]]].
  - rewrite In_checks by (apply Hno; [assumption | discriminate | discriminate]).
    rewrite !negb_true_iff. split; [| intros Hb; left; auto].
    intros [(Hb & _) | [(_ & E) | [(_ & E) | [(_ & E) | (_ & E)]]]];
      try (unfold Report.err in E; discriminate E); exact Hb.
  - rewrite In_checks by (apply Hno; [assumption | discriminate | discriminate]).
    rewrite !negb_true_iff. split; [| intros Hb; right; left; auto].
    intros [(_ & E) | [(Hb & _) | [(_ & E) | [(_ & E) | (_ & E)]]]];
      try (unfold Report.err in E; discriminate E); exact Hb.
  - rewrite In_checks by (apply Hno; [assumption | discriminate | discriminate]).
    rewrite !negb_true_iff. split; [| intros Hb; right; right; left; auto].
    intros [(_ & E) | [(_ & E) | [(Hb & _) | [(_ & E) | (_ & E)]]]];
      try (unfold Report.err in E; discriminate E); exact Hb.
  - rewrite In_checks by (apply Hno; [assumption | discriminate | discriminate]).
    rewrite !negb_true_iff, Hsafe. split.
    + intros [(_ & E) | [(_ & E) | [(_ & E) | [(Hb & _) | (_ & E)]]]];
        try (unfold Report.err in E; discriminate E); now rewrite Hb.
    + intros [= ->]. right. right. right. left. auto.
  - rewrite In_checks by (apply Hno; [assumption | discriminate | discriminate]).
    rewrite !negb_true_iff. split; [| intros Hb; right; right; right; right; auto].
    intros [(_ & E) | [(_ & E) | [(_ & E) | [(_ & E) | (Hb & _)]]]];
      try (unfold Report.err in E; discriminate E); exact Hb.
  - exact Hname.
  - intros He. rewrite Hname. apply (endswith_slice _ "_abi" He).
Qed.


(** On the sample header, [getBar] is neither named [..._abi] nor pure
    virtual. *)
Lemma Method_reports_each_failed_check_witness :
  exists added,
    Diagnostics.diagnostics
      (snd (Model.Method__init__ Sample.header 8 Sample.header_hierarchy Sample.getBar
              Diagnostics.default_reporter))
    = Diagnostics.diagnostics Diagnostics.default_reporter ++ added
    /\ In (Report.err Sample.header Sample.getBar "interface ABI methods must end in '_abi'")
          added
    /\ In (Report.err Sample.header Sample.getBar "method must be pure virtual") added.
Proof.
  destruct (Method_reports_each_failed_check Sample.header 8 Sample.header_hierarchy
              Sample.getBar Diagnostics.default_reporter
              (snd (Model.Method__init__ Sample.header 8 Sample.header_hierarchy Sample.getBar
                      Diagnostics.default_reporter))
              (Model.MkMethod Sample.getBar Attr.Attributes_None "ge" []))
    as (added & Hd & H1 & H2 & _).
  - vm_compute. reflexivity.
  - reflexivity.
  - exists added. split; [exact Hd |]. split; [apply H1 | apply H2]; reflexivity.
Defined.

(** ** Reporters *)

Section ReporterInvariants.
Import Diagnostics Run Extract.

Lemma level_eq_refl a : level_eq a a = true.
Proof. unfold level_eq. apply Z.eqb_refl. Qed.

Lemma level_eq_eq a b : level_eq a b = true -> a = b.
Proof. unfold level_eq. intros H. apply Z.eqb_eq in H. now apply level_value_inj. Qed.

(** The first element of a list that satisfies [f]. *)
Lemma filter_first {A} (f : A -> bool) l x rest :
  List.filter f l = x :: rest ->
  exists before after,
    l = before ++ x :: after /\ f x = true /\ Forall (fun y => f y = false) before.
Proof.
  induction l as [| y l IH]; simpl; [discriminate |].
  destruct (f y) eqn:E.
  - intros [= -> <-]. exists [], l. auto.
  - intros H. destruct (IH H) as (before & after & -> & Hx & Hb).
    exists (y :: before), after. auto.
Qed.

Lemma filter_nil_none {A} (f : A -> bool) l :
  List.filter f l = [] -> Forall (fun y => f y = false) l.
Proof.
  induction l as [| y l IH]; simpl; [constructor |].
  destruct (f y) eqn:E; [discriminate |]. intros H. constructor; auto.
Qed.

Lemma level_lt_IGNORED a : level_lt IGNORED a = false -> a = IGNORED.
Proof. destruct a; simpl; intros H; try reflexivity; discriminate H. Qed.

End ReporterInvariants.

Lemma worst_level_is_attained_aux (r : Diagnostics.Reporter) :
  Diagnostics.Reachable r ->
  Forall (fun m => Diagnostics.level_lt (Diagnostics.worst_diagnostic_level r)
                     (Diagnostics.level m) = false)
         (Diagnostics.diagnostics r)
  /\ (Diagnostics.diagnostics r <> [] ->
      Exists (fun m => Diagnostics.level m = Diagnostics.worst_diagnostic_level r)
             (Diagnostics.diagnostics r))
  /\ (Diagnostics.diagnostics r = [] ->
      Diagnostics.worst_diagnostic_level r = Diagnostics.IGNORED).
Proof.
  intros H. apply Reachable_well_formed in H. destruct H as (Hc & _).
  unfold Diagnostics.consistent in Hc.
  unfold Diagnostics.worst_diagnostic_level, Diagnostics.diagnostics. rewrite Hc.
  split; [apply worst_of_upper |]. split; [apply worst_of_attained |].
  intros ->. reflexivity.
Qed.

(** X5.  For every reporter a program can build, the worst level it
    tracks is the worst level among the messages it has collected: no
    collected message is worse, some collected message is as bad, and
    it is [IGNORED] when nothing was collected. *)
Theorem worst_level_is_attained (r : Diagnostics.Reporter) :
  Diagnostics.Reachable r ->
  Forall (fun m => Diagnostics.level_lt (Diagnostics.worst_diagnostic_level r)
                     (Diagnostics.level m) = false)
         (Diagnostics.diagnostics r)
  /\ (Diagnostics.diagnostics r <> [] ->
      Exists (fun m => Diagnostics.level m = Diagnostics.worst_diagnostic_level r)
             (Diagnostics.diagnostics r))
  /\ (Diagnostics.diagnostics r = [] ->
      Diagnostics.worst_diagnostic_level r = Diagnostics.IGNORED).
Proof. exact (worst_level_is_attained_aux r). Qed.

Lemma worst_level_is_attained_witness :
  let r := snd (Diagnostics.warning None (Some "w")
                  (snd (Diagnostics.error None (Some "e") Diagnostics.default_reporter))) in
  Diagnostics.worst_diagnostic_level r = Diagnostics.ERROR
  /\ Exists (fun m => Diagnostics.level m = Diagnostics.worst_diagnostic_level r)
            (Diagnostics.diagnostics r).
Proof.
  intros r. split; [reflexivity |].
  apply (worst_level_is_attained r); [| discriminate].
  eapply Diagnostics.reach_step; [| apply Diagnostics.step_emit].
  eapply Diagnostics.reach_step; [| apply Diagnostics.step_emit].
  apply Diagnostics.reach_text.
Defined.

(** X6.  [validate] on a reporter a program can build: it returns when
    the reporter is valid; otherwise it raises [DiagnosticException]
    with the first collected message whose level is the worst level,
    which is at or above the error level.  The [StopIteration] of
    [next] comes out only when nothing was collected, which takes an
    error level of [IGNORED]. *)
Theorem validate_outcome (r : Diagnostics.Reporter) :
  Diagnostics.Reachable r ->
  (Diagnostics.valid r = true /\ Diagnostics.validate r = Returns tt)
  \/ (Diagnostics.valid r = false
      /\ exists d before after,
           Diagnostics.validate r = Raises (Diagnostics.DiagnosticException d)
           /\ Diagnostics.diagnostics r = before ++ d :: after
           /\ Diagnostics.level d = Diagnostics.worst_diagnostic_level r
           /\ Forall (fun m => Diagnostics.level m <> Diagnostics.worst_diagnostic_level r)
                     before
           /\ Diagnostics.level_lt (Diagnostics.level d)
                (Diagnostics.diagnostic_error_level r) = false)
  \/ (Diagnostics.valid r = false
      /\ Diagnostics.validate r = Raises Diagnostics.StopIteration
      /\ Diagnostics.diagnostics r = []
      /\ Diagnostics.diagnostic_error_level r = Diagnostics.IGNORED).
Proof.
  intros H. destruct (worst_level_is_attained_aux r H) as (Hup & Hatt & Hnil).
  unfold Diagnostics.validate.
  destruct (Diagnostics.valid r) eqn:Hv; [left; auto | right].
  destruct (List.filter _ (Diagnostics.diagnostics r)) as [| d rest] eqn:Hf.
  - right. destruct (Diagnostics.diagnostics r) as [| m l] eqn:Hd.
    + repeat split; auto.
      unfold Diagnostics.valid in Hv. rewrite (Hnil eq_refl) in Hv.
      now apply level_lt_IGNORED.
    + exfalso. apply filter_nil_none in Hf.
      specialize (Hatt ltac:(discriminate)). rewrite List.Exists_exists in Hatt.
      destruct Hatt as (x & Hin & Hx). rewrite List.Forall_forall in Hf.
      specialize (Hf x Hin). simpl in Hf. rewrite Hx, level_eq_refl in Hf. discriminate.
  - left. split; [reflexivity |].
    apply filter_first in Hf as (before & after & Hd & Hx & Hb).
    apply level_eq_eq in Hx.
    exists d, before, after. repeat split; auto.
    + eapply Forall_impl; [exact Hb |]. simpl. intros m Hm E.
      rewrite E, level_eq_refl in Hm. discriminate.
    + rewrite Hx. exact Hv.
Qed.

Lemma validate_outcome_witness :
  let r := snd (Diagnostics.warning None (Some "w")
                  (snd (Diagnostics.error None (Some "e") Diagnostics.default_reporter))) in
  Diagnostics.validate r
  = Raises (Diagnostics.DiagnosticException
              (Diagnostics.MkDiagnosticMessage Diagnostics.ERROR None "e" [])).
Proof.
  intros r.
  assert (Hr : Diagnostics.Reachable r).
  { eapply Diagnostics.reach_step; [| apply Diagnostics.step_emit].
    eapply Diagnostics.reach_step; [| apply Diagnostics.step_emit].
    apply Diagnostics.reach_text. }
  destruct (validate_outcome r Hr) as [(Hv & _) | [(_ & d & b & a & Hd & _) | (_ & _ & Hn & _)]].
  - discriminate Hv.
  - reflexivity.
  - discriminate Hn.
Defined.

Lemma emit_message_levels (msg : Diagnostics.DiagnosticMessage) (r : Diagnostics.Reporter) :
  (Diagnostics.worst_diagnostic_level (snd (Diagnostics.emit_message msg r))
   = Diagnostics.worst_diagnostic_level r
   \/ Diagnostics.worst_diagnostic_level (snd (Diagnostics.emit_message msg r))
      = Diagnostics.level_max (Diagnostics.worst_diagnostic_level r) (Diagnostics.level msg))
  /\ Diagnostics.diagnostic_error_level (snd (Diagnostics.emit_message msg r))
     = Diagnostics.diagnostic_error_level r.
Proof.
  split.
  - destruct (Diagnostics.level_lt (Diagnostics.level msg) (Diagnostics.diagnostic_log_level r))
      eqn:E.
    + left. now rewrite (emit_message_rejected msg r E).
    + right. now destruct (emit_message_accepted msg r E) as (_ & _ & -> & _).
  - destruct (emit_message_frame msg r) as (Hp & _ & _ & Herr & _).
    unfold Diagnostics.diagnostic_error_level, Diagnostics._value_for. simpl.
    now rewrite Hp, Herr.
Qed.

(** X7.  Emitting never repairs a reporter: after [emit_message] the
    worst level is not below the old one, the error level is the same,
    and so a reporter that was not valid is still not valid. *)
Theorem emit_message_never_revalidates
    (msg : Diagnostics.DiagnosticMessage) (r : Diagnostics.Reporter) :
  let r' := snd (Diagnostics.emit_message msg r) in
  Diagnostics.level_lt (Diagnostics.worst_diagnostic_level r')
    (Diagnostics.worst_diagnostic_level r) = false
  /\ Diagnostics.diagnostic_error_level r' = Diagnostics.diagnostic_error_level r
  /\ (Diagnostics.valid r = false -> Diagnostics.valid r' = false).
Proof.
  intros r'. subst r'. destruct (emit_message_levels msg r) as (Hw & He).
  assert (Hge : Diagnostics.level_lt
                  (Diagnostics.worst_diagnostic_level (snd (Diagnostics.emit_message msg r)))
                  (Diagnostics.worst_diagnostic_level r) = false).
  { destruct Hw as [-> | ->]; [apply level_lt_irrefl |].
    unfold Diagnostics.level_lt. rewrite level_max_value. apply Z.ltb_ge. lia. }
  split; [exact Hge |]. split; [exact He |].
  unfold Diagnostics.valid. rewrite He. unfold Diagnostics.level_lt in *.
  rewrite !Z.ltb_ge in *. lia.
Qed.

(** X8.  Opening a scope and closing it with nothing emitted inside is
    the same as emitting the opening message on the reporter: the
    message reaches the parent at its own level, with no nested
    messages, if the parent's log level lets it through. *)
Theorem with_nest_nothing_emitted {A}
    (lvl : Diagnostics.DiagnosticLevel) (src : option Diagnostics.SourceLocation)
    (text : string) (a : A) (r : Diagnostics.Reporter) :
  Extract.with_nest lvl src text (Run.ret a) r
  = (Returns a, snd (Diagnostics.emit_message (Diagnostics.MkDiagnosticMessage lvl src text []) r)).
Proof.
  unfold Extract.with_nest, Run.ret, Diagnostics.block_exit. destruct r as [o ps].
  cbn [Diagnostics.nest_message Diagnostics.this Diagnostics.parents Diagnostics._class
       Diagnostics.init Diagnostics.worst_diagnostic_level Diagnostics.diagnostics
       Diagnostics._worst_diagnostic_level Diagnostics._diagnostics Diagnostics.level
       Diagnostics.replace_level_nested Diagnostics.source Diagnostics.message snd fst].
  replace (Diagnostics.level_max Diagnostics.IGNORED lvl) with lvl
    by (destruct lvl; reflexivity).
  destruct (Diagnostics.emit_message _ _). reflexivity.
Qed.

(** ** The ABI check and the reporters *)

(** X3.  What [is_abi_safe_type] answers does not depend on the
    reporter it is given (its log level, what it holds, the scopes
    open on it), and all it does to the reporters is append: to the
    reporter it is given only verbose lines, warnings and the error of
    a repeated [OMNI_ATTR]; to the reporters below it only verbose
    lines; the configured levels and the open scopes stay as they
    are. *)
Theorem is_abi_safe_type_only_reports
    (tu : Clang.TranslationUnit) (depth : nat) (h : Extract.Hierarchy)
    (attributes : option Attr.Attributes) (t : Clang.CType)
    (r r0 : Diagnostics.Reporter) :
  let r' := snd (Extract.is_abi_safe_type tu depth h attributes t r) in
  fst (Extract.is_abi_safe_type tu depth h attributes t r)
  = fst (Extract.is_abi_safe_type tu depth h attributes t r0)
  /\ (exists added,
        Diagnostics.diagnostics r' = Diagnostics.diagnostics r ++ added
        /\ Forall Report.side_note added)
  /\ Forall2 (Run.grown Report.is_verbose) (Diagnostics.parents r) (Diagnostics.parents r')
  /\ Diagnostics.diagnostic_log_level r' = Diagnostics.diagnostic_log_level r
  /\ Diagnostics.diagnostic_error_level r' = Diagnostics.diagnostic_error_level r.
Proof.
  intros r'. subst r'.
  pose proof (Mono_is_abi_safe_type tu h depth attributes t r) as He.
  split; [apply Pure_is_abi_safe_type |].
  split; [eapply extends_diagnostics; exact He |].
  split; [exact (proj2 He) |].
  split; [eapply extends_log_level | eapply extends_error_level]; exact He.
Qed.

(** ** Annotations of a declaration *)

Section AttributeFacts.
Import Diagnostics Clang Run Extract Report.

Variable tu : TranslationUnit.

Lemma report_error_diagnostics src text r :
  level_lt ERROR (diagnostic_log_level r) = false ->
  exists r',
    report ERROR src text r = (Returns tt, r')
    /\ diagnostics r' = diagnostics r ++ [MkDiagnosticMessage ERROR src text []]
    /\ diagnostic_log_level r' = diagnostic_log_level r.
Proof.
  intros H. unfold report, bind, emit. rewrite H.
  pose proof (emit_message_diagnostics (MkDiagnosticMessage ERROR src text []) r H) as Hd.
  pose proof (emit_message_extends anything anything (MkDiagnosticMessage ERROR src text []) r I)
    as He.
  destruct (emit_message _ r) as [res r']. simpl in *.
  exists r'. split; [reflexivity |]. split; [exact Hd |].
  eapply extends_log_level; eauto.
Qed.

Lemma get_attributes_loop_cons c child rest attributes :
  get_attributes_loop tu c (child :: rest) attributes
  = if Notions.valid_annotation tu child then
      match attributes with
      | None =>
          a <- lift (Attr.__init__ (Some (spelling (cursor tu child)))) ;;
          get_attributes_loop tu c rest (Some a)
      | Some _ =>
          report ERROR (source_of tu c)
            "OMNI_ATTR cannot be specified more than once on a declaration" ;;;
          get_attributes_loop tu c rest attributes
      end
    else get_attributes_loop tu c rest attributes.
Proof. reflexivity. Qed.

Lemma filter_cons_if {A} (f : A -> bool) x l :
  List.filter f (x :: l) = if f x then x :: List.filter f l else List.filter f l.
Proof. reflexivity. Qed.

(** Once an annotation was found, every further valid annotation adds
    the error and the result stays. *)
Lemma get_attributes_loop_found c children a r :
  fst (get_attributes_loop tu c children (Some a) r) = Returns (Some a)
  /\ (level_lt ERROR (diagnostic_log_level r) = false ->
      diagnostics (snd (get_attributes_loop tu c children (Some a) r))
      = diagnostics r
        ++ List.repeat
             (err tu c "OMNI_ATTR cannot be specified more than once on a declaration")
             (List.length (List.filter (Notions.valid_annotation tu) children))).
Proof.
  revert r. induction children as [| child rest IH]; intros r.
  - simpl. split; [reflexivity |]. intros _. now rewrite app_nil_r.
  - rewrite get_attributes_loop_cons, filter_cons_if.
    destruct (Notions.valid_annotation tu child); [| apply IH].
    unfold bind.
    destruct (report_returns ERROR (source_of tu c)
                "OMNI_ATTR cannot be specified more than once on a declaration" r) as (r1 & E).
    rewrite E. destruct (IH r1) as (H1 & H2). split; [exact H1 |].
    intros Hlog.
    destruct (report_error_diagnostics (source_of tu c)
                "OMNI_ATTR cannot be specified more than once on a declaration" r Hlog)
      as (r1' & E' & Hd & Hl).
    rewrite E in E'. injection E' as <-.
    rewrite H2 by (now rewrite Hl). rewrite Hd. simpl. now rewrite <- app_assoc.
Qed.

End AttributeFacts.

(** X4.  [get_attributes] answers with the attributes of the first
    valid [OMNI_ATTR] annotation among the children of the cursor
    ([None] when there is none), raises what parsing that annotation
    raises, and records one error for each further valid annotation
    (when the log level lets errors through).  The further annotations
    are not parsed. *)
Theorem get_attributes_first_annotation
    (tu : Clang.TranslationUnit) (c : Clang.Cursor) (r : Diagnostics.Reporter) :
  match List.filter (Notions.valid_annotation tu) (Clang.get_children (Clang.cursor tu c)) with
  | [] => Extract.get_attributes tu c r = (Returns None, r)
  | first :: others =>
      match Attr.__init__ (Some (Clang.spelling (Clang.cursor tu first))) with
      | Raises e => Extract.get_attributes tu c r = (Raises e, r)
      | Returns a =>
          fst (Extract.get_attributes tu c r) = Returns (Some a)
          /\ (Diagnostics.level_lt Diagnostics.ERROR (Diagnostics.diagnostic_log_level r)
              = false ->
              Diagnostics.diagnostics (snd (Extract.get_attributes tu c r))
              = Diagnostics.diagnostics r
                ++ List.repeat
                     (Report.err tu c
                        "OMNI_ATTR cannot be specified more than once on a declaration")
                     (List.length others))
      end
  end.
Proof.
  unfold Extract.get_attributes.
  induction (Clang.get_children (Clang.cursor tu c)) as [| child rest IH].
  - reflexivity.
  - rewrite get_attributes_loop_cons, filter_cons_if.
    destruct (Notions.valid_annotation tu child); [| exact IH].
    unfold Run.bind, Run.lift.
    destruct (Attr.__init__ (Some (Clang.spelling (Clang.cursor tu child)))) as [a | e];
      [| reflexivity].
    apply get_attributes_loop_found.
Qed.

(** ** Parsing annotations *)

Section ParseFacts.
Import Attr Notions.



Lemma along_None P : P (list_to_map attrs) -> along P Attributes_None.
Proof. intros H. exact H. Qed.









(** What [parse_token] splits off a token it accepts. *)
Lemma parse_token_inv t self self' :
  parse_token t self = Returns self' ->
  exists value self1 attributes attributes',
    descend (token_stars t) self = Returns self1
    /\ target (token_stars t) self1 = TAttributes attributes
    /\ self' = store (token_stars t) attributes' self1
    /\ ((hasattr attributes (token_name t) = true
         /\ setattr attributes (token_name t) value = Returns attributes')
        \/ (hasattr attributes (token_name t) = false
            /\ ((token_name t = "in" /\ setattr attributes "input" value = Returns attributes')
                \/ (token_name t = "out"
                    /\ setattr attributes "output" value = Returns attributes')
                \/ (token_name t = "return"
                    /\ setattr attributes "returned" value = Returns attributes')))).
Proof.
  unfold parse_token, token_stars, token_name, token_key.
  destruct (Py.find t "="%char) as [i |].
  - destruct (Py.strip <$> Py.split t "="%char) as [| left_ [| value [| ? ?]]]; try discriminate.
    unfold _get_key_and_attributes.
    destruct (strip_stars (Py.chars left_)) as [level k] eqn:Es. simpl.
    destruct (descend level self) as [self1 |] eqn:Ed; [| discriminate].
    destruct (target level self1) as [attributes | v] eqn:Et;
      [| destruct (_ || _); discriminate].
    destruct (hasattr attributes (Py.str k)) eqn:Eh.
    + destruct (setattr attributes (Py.str k) (VStr value)) as [attributes' |] eqn:Ea;
        [| discriminate].
      intros [= <-]. exists (VStr value), self1, attributes, attributes'. auto 10.
    + destruct (String.eqb (Py.str k) "in") eqn:E1.
      * apply String.eqb_eq in E1.
        destruct (setattr attributes "input" (VStr value)) as [attributes' |] eqn:Ea;
          [| discriminate].
        intros [= <-]. exists (VStr value), self1, attributes, attributes'. auto 10.
      * destruct (String.eqb (Py.str k) "out") eqn:E2.
        -- apply String.eqb_eq in E2.
           destruct (setattr attributes "output" (VStr value)) as [attributes' |] eqn:Ea;
             [| discriminate].
           intros [= <-]. exists (VStr value), self1, attributes, attributes'. auto 10.
        -- destruct (String.eqb (Py.str k) "return") eqn:E3; [| discriminate].
           apply String.eqb_eq in E3.
           destruct (setattr attributes "returned" (VStr value)) as [attributes' |] eqn:Ea;
             [| discriminate].
           intros [= <-]. exists (VStr value), self1, attributes, attributes'. auto 10.
  - unfold _get_key_and_attributes.
    destruct (strip_stars (Py.chars t)) as [level k] eqn:Es. simpl.
    destruct (descend level self) as [self1 |] eqn:Ed; [| discriminate].
    destruct (target level self1) as [attributes | v] eqn:Et;
      [| destruct (_ || _); discriminate].
    destruct (hasattr attributes (Py.str k)) eqn:Eh.
    + destruct (setattr attributes (Py.str k) (VBool true)) as [attributes' |] eqn:Ea;
        [| discriminate].
      intros [= <-]. exists (VBool true), self1, attributes, attributes'. auto 10.
    + destruct (String.eqb (Py.str k) "in") eqn:E1.
      * apply String.eqb_eq in E1.
        destruct (setattr attributes "input" (VBool true)) as [attributes' |] eqn:Ea;
          [| discriminate].
        intros [= <-]. exists (VBool true), self1, attributes, attributes'. auto 10.
      * destruct (String.eqb (Py.str k) "out") eqn:E2.
        -- apply String.eqb_eq in E2.
           destruct (setattr attributes "output" (VBool true)) as [attributes' |] eqn:Ea;
             [| discriminate].
           intros [= <-]. exists (VBool true), self1, attributes, attributes'. auto 10.
        -- destruct (String.eqb (Py.str k) "return") eqn:E3; [| discriminate].
           apply String.eqb_eq in E3.
           destruct (setattr attributes "returned" (VBool true)) as [attributes' |] eqn:Ea;
             [| discriminate].
           intros [= <-]. exists (VBool true), self1, attributes, attributes'. auto 10.
Qed.

End ParseFacts.

Section ParseTheorems.
Import Attr Notions.



(** *** The depth of the chain *)

Lemma descend_depth level self self1 :
  open_ended self -> descend level self = Returns self1 ->
  open_ended self1 /\ pointee_depth self1 = Nat.max (pointee_depth self) level.
Proof.
  revert self self1. induction level as [| n IH]; intros [d p] self1; simpl.
  - intros H [= <-]. split; [exact H |]. now rewrite Nat.max_0_r.
  - destruct p as [v | a]; simpl.
    + intros Hv. rewrite Hv. simpl.
      destruct (descend n Attributes_None) as [a' |] eqn:E; [| discriminate].
      intros [= <-]. simpl.
      destruct (IH Attributes_None a' (eq_refl : open_ended Attributes_None) E) as (H1 & H2).
      split; [exact H1 |]. rewrite H2. reflexivity.
    + intros Ha. destruct (descend n a) as [a' |] eqn:E; [| discriminate].
      intros [= <-]. simpl. destruct (IH _ _ Ha E) as (H1 & H2).
      split; [exact H1 |]. rewrite H2. reflexivity.
Qed.

Lemma store_same_pointee level self a d' :
  target level self = TAttributes a ->
  pointee_depth (store level (MkAttributes d' (pointee a)) self) = pointee_depth self
  /\ (open_ended self -> open_ended (store level (MkAttributes d' (pointee a)) self)).
Proof.
  revert self. induction level as [| n IH]; intros [d p]; simpl.
  - intros [= <-]. simpl. destruct p; auto.
  - destruct p as [v | a']; [discriminate |]. intros Ht. simpl.
    destruct (IH _ Ht) as (H1 & H2). split; [now rewrite H1 | exact H2].
Qed.

Lemma setattr_same_pointee a key value a' :
  key <> "pointee" -> setattr a key value = Returns a' ->
  exists d', a' = MkAttributes d' (pointee a).
Proof.
  intros Hne. unfold setattr.
  destruct (String.eqb key "pointee") eqn:E; [apply String.eqb_eq in E; contradiction |].
  destruct (_ || _); [discriminate |].
  destruct (String.eqb key "__weakref__"); [discriminate |].
  intros [= <-]. eauto.
Qed.

Lemma parse_token_depth t self self' :
  open_ended self -> token_name t <> "pointee" -> parse_token t self = Returns self' ->
  open_ended self' /\ pointee_depth self' = Nat.max (pointee_depth self) (token_stars t).
Proof.
  intros Ho Hne H.
  apply parse_token_inv in H
    as (value & self1 & attributes & attributes' & Hd & Ht & -> & Hcase).
  destruct (descend_depth _ _ _ Ho Hd) as (Ho1 & Hdepth).
  assert (Hsame : exists d', attributes' = MkAttributes d' (pointee attributes)).
  { destruct Hcase as [(_ & Hs) | (_ & [(_ & Hs) | [(_ & Hs) | (_ & Hs)]])];
      eapply setattr_same_pointee; try exact Hs; try exact Hne; discriminate. }
  destruct Hsame as (d' & ->).
  destruct (store_same_pointee _ _ _ d' Ht) as (H1 & H2).
  split; [auto |]. now rewrite H1.
Qed.

Lemma parse_tokens_depth tokens self self' :
  open_ended self -> Forall (fun t => token_name t <> "pointee") tokens ->
  parse_tokens tokens self = Returns self' ->
  pointee_depth self'
  = Nat.max (pointee_depth self) (fold_right Nat.max O (token_stars <$> tokens)).
Proof.
  revert self. induction tokens as [| t rest IH]; intros self Ho Hall; simpl.
  - intros [= <-]. now rewrite Nat.max_0_r.
  - destruct (parse_token t self) as [self1 |] eqn:E; [| discriminate].
    inversion Hall as [| ? ? Hne Hrest]; subst.
    destruct (parse_token_depth _ _ _ Ho Hne E) as (Ho1 & Hd1).
    intros H. rewrite (IH _ Ho1 Hrest H), Hd1. symmetry. apply Nat.max_assoc.
Qed.

End ParseTheorems.



(** X10.  When no key of the annotation is [pointee], the chain of
    [pointee] records [Attributes(cursor)] builds is exactly as deep as
    the largest number of stars on a key. *)
Theorem Attributes_chain_depth (spelling : string) (a : Attr.Attributes) :
  Attr.__init__ (Some spelling) = Returns a ->
  Forall (fun t => Notions.token_name t <> "pointee") (Attr.tokens_of spelling) ->
  Attr.pointee_depth a = Attr.deepest_stars spelling.
Proof.
  unfold Attr.__init__, Attr._parse, Attr.tokens_of, Attr.deepest_stars, Attr.tokens_of.
  destruct (Attr.match_omni_attr spelling) as [s |]; [| discriminate].
  intros H Hall.
  rewrite (parse_tokens_depth _ Attr.Attributes_None a
             (eq_refl : Notions.open_ended Attr.Attributes_None) Hall H).
  reflexivity.
Qed.

Lemma Attributes_chain_depth_witness :
  exists a,
    Attr.__init__ (Some "omni_attr:**in,*count=len,not_null") = Returns a
    /\ Attr.pointee_depth a = 2%nat.
Proof.
  destruct (Attr.__init__ (Some "omni_attr:**in,*count=len,not_null")) as [a | e] eqn:E.
  - exists a. split; [reflexivity |].
    rewrite (Attributes_chain_depth _ a E).
    + vm_compute. reflexivity.
    + vm_compute. repeat constructor; discriminate.
  - vm_compute in E. discriminate E.
Defined.

(** ** The generated files *)

Section WorldFacts.
Import Diagnostics Run Generate Notions.

Lemma same_files_refl w : same_files w w.
Proof. repeat split. Qed.

Lemma same_files_trans w1 w2 w3 : same_files w1 w2 -> same_files w2 w3 -> same_files w1 w3.
Proof. unfold same_files. intros (? & ? & ?) (? & ? & ?). repeat split; congruence. Qed.

Lemma quiet_refl w : quiet w w.
Proof. split; [apply same_files_refl | auto]. Qed.

Lemma quiet_trans w1 w2 w3 : quiet w1 w2 -> quiet w2 w3 -> quiet w1 w3.
Proof. intros (H1 & H2) (H3 & H4). split; [eapply same_files_trans; eauto | auto]. Qed.

Lemma say_returns lvl text w :
  exists w', say lvl (Some text) w = (Returns tt, w') /\ same_files w w'.
Proof.
  unfold say, reporting, bind.
  destruct (emit_returns lvl None text (reporter w)) as (x & r' & ->).
  eexists. split; [reflexivity |]. repeat split.
Qed.

(** A message below [ERROR] leaves a reporter without errors so. *)
Lemma emit_no_error lvl src text r :
  level_lt lvl ERROR = true -> no_error r -> no_error (snd (emit lvl src text r)).
Proof.
  intros Hl Hr. unfold emit.
  destruct (level_lt lvl (diagnostic_log_level r)); [exact Hr |].
  destruct text as [t |]; [| exact Hr].
  destruct (emit_message_levels (MkDiagnosticMessage lvl src t []) r) as (Hw & He).
  destruct (emit_message (MkDiagnosticMessage lvl src t []) r) as [res r']. simpl in *.
  destruct Hr as (H1 & H2). split; [| now rewrite He].
  destruct Hw as [-> | ->]; [exact H1 |].
  unfold level_lt in *. rewrite level_max_value. simpl level_value in *.
  apply Z.ltb_lt in Hl, H1. apply Z.ltb_lt. lia.
Qed.

Lemma say_quiet lvl text w :
  level_lt lvl ERROR = true ->
  exists w', say lvl (Some text) w = (Returns tt, w') /\ quiet w w'.
Proof.
  intros Hl. unfold say, reporting, bind.
  pose proof (emit_no_error lvl None (Some text) (reporter w) Hl) as Hn.
  destruct (emit_returns lvl None text (reporter w)) as (x & r' & E).
  rewrite E in *. simpl in Hn.
  eexists. split; [reflexivity |]. split; [repeat split | exact Hn].
Qed.

Lemma output_timestamps_spec outputs acc w :
  exists res w',
    output_timestamps outputs acc w = (Returns res, w') /\ quiet w w'
    /\ match res with
       | Some stamps =>
           Forall (fun out => is_Some (files w !! out)) outputs
           /\ stamps = acc ++ (stamp_of (files w) <$> outputs)
       | None => ~ Forall (fun out => is_Some (files w !! out)) outputs
       end.
Proof.
  revert acc w. induction outputs as [| out rest IH]; intros acc w; simpl.
  - exists (Some acc), w. split; [reflexivity |]. split; [apply quiet_refl |].
    split; [constructor | now rewrite app_nil_r].
  - destruct (files w !! out) as [f |] eqn:E.
    + destruct (IH (acc ++ [(out, mtime f)]) w) as (res & w' & -> & Hs & Hres).
      exists res, w'. split; [reflexivity |]. split; [exact Hs |].
      destruct res as [stamps |].
      * destruct Hres as (H1 & ->).
        split; [constructor; [rewrite E; eauto | exact H1] |].
        rewrite <- app_assoc. simpl. unfold stamp_of at 2. now rewrite E.
      * intros Hall. apply Hres. now inversion Hall.
    + destruct (say_quiet NOTE ("out-of-date: output " ++ out ++ " does not exist") w eq_refl)
        as (w' & Hsay & Hs).
      exists None, w'. unfold bind. rewrite Hsay. split; [reflexivity |].
      split; [exact Hs |]. intros Hall. inversion Hall as [| ? ? [f Hf] _]; subst.
      rewrite E in Hf. discriminate.
Qed.

Lemma check_outputs_spec inc included_time outs w :
  exists b w',
    check_outputs inc included_time outs w = (Returns b, w') /\ quiet w w'
    /\ (b = true <-> Forall (fun stamp => (included_time <= snd stamp)%Z) outs).
Proof.
  revert w. induction outs as [| [out output_time] rest IH]; intros w; simpl.
  - exists true, w. split; [reflexivity |]. split; [apply quiet_refl |].
    split; [constructor | reflexivity].
  - unfold bind at 1.
    destruct (say_quiet VERBOSE
                ("checking " ++ inc ++ " with ('" ++ out ++ "', " ++ pretty output_time ++ ")")
                w eq_refl)
      as (w1 & -> & Hs1).
    destruct (output_time <? included_time)%Z eqn:E.
    + unfold bind.
      destruct (say_quiet NOTE ("out-of-date: input " ++ inc ++ " is newer than " ++ out)
                  w1 eq_refl)
        as (w2 & -> & Hs2).
      exists false, w2. split; [reflexivity |].
      split; [eapply quiet_trans; eauto |].
      split; [discriminate |]. intros Hall. inversion Hall; subst. simpl in *.
      apply Z.ltb_lt in E. lia.
    + destruct (IH w1) as (b & w2 & -> & Hs2 & Hb).
      exists b, w2. split; [reflexivity |]. split; [eapply quiet_trans; eauto |].
      rewrite Hb. apply Z.ltb_ge in E. split.
      * intros H. constructor; [exact E | exact H].
      * intros H. now inversion H.
Qed.

Lemma check_includes_spec includes outs w :
  exists b w',
    check_includes includes outs w = (Returns b, w') /\ quiet w w'
    /\ (b = true <->
        Forall (fun inc => exists fi, files w !! inc = Some fi
                             /\ Forall (fun stamp => (mtime fi <= snd stamp)%Z) outs)
               includes).
Proof.
  revert w. induction includes as [| inc rest IH]; intros w; simpl.
  - exists true, w. split; [reflexivity |]. split; [apply quiet_refl |].
    split; [constructor | reflexivity].
  - destruct (files w !! inc) as [f |] eqn:E.
    + unfold bind.
      destruct (check_outputs_spec inc (mtime f) outs w) as (ok & w1 & -> & Hs1 & Hok).
      destruct ok.
      * destruct (IH w1) as (b & w2 & -> & Hs2 & Hb).
        exists b, w2. split; [reflexivity |]. split; [eapply quiet_trans; eauto |].
        rewrite Hb. destruct Hs1 as ((Hf & _) & _). rewrite Hf. split.
        -- intros H. constructor; [| exact H]. exists f. split; [exact E | now apply Hok].
        -- intros H. now inversion H.
      * exists false, w1. split; [reflexivity |]. split; [exact Hs1 |].
        split; [discriminate |]. intros H. inversion H as [| ? ? (fi & Hfi & Hall) _]; subst.
        rewrite E in Hfi. injection Hfi as <-. apply Hok in Hall. discriminate.
    + unfold bind.
      destruct (say_quiet WARNING ("out-of-date: input " ++ inc ++ " does not exist") w eq_refl)
        as (w1 & -> & Hs1).
      exists false, w1. split; [reflexivity |]. split; [exact Hs1 |].
      split; [discriminate |]. intros H. inversion H as [| ? ? (fi & Hfi & _) _]; subst.
      rewrite E in Hfi. discriminate.
Qed.

(** [is_output_up_to_date] answers, quietly, whether the outputs are
    fresh. *)
Lemma is_output_up_to_date_quiet outputs includes_filename w :
  exists b w',
    is_output_up_to_date outputs includes_filename w = (Returns b, w')
    /\ quiet w w'
    /\ (b = true <-> fresh (files w) outputs includes_filename).
Proof.
  unfold is_output_up_to_date, exists_, fresh.
  destruct (files w !! includes_filename) as [m |] eqn:Em; simpl.
  - unfold bind at 1.
    destruct (output_timestamps_spec outputs [] w) as (res & w1 & -> & Hs1 & Hres).
    destruct res as [stamps |].
    + destruct Hres as (Hall & ->). simpl.
      unfold bind at 1, read.
      destruct Hs1 as ((Hf1 & Hd1 & Ho1) & Hn1). rewrite Hf1, Em.
      destruct (check_includes_spec (manifest_lines (content m))
                  (stamp_of (files w) <$> outputs) w1)
        as (b & w2 & Hc & Hs2 & Hb).
      unfold manifest_lines in *. rewrite Hc.
      exists b, w2. split; [reflexivity |].
      split; [eapply quiet_trans; [| exact Hs2]; split; [repeat split; assumption | exact Hn1] |].
      rewrite Hb, Hf1. split.
      * intros H. exists m. split; [reflexivity |]. split; [exact Hall |].
        eapply Forall_impl; [exact H |]. simpl. intros inc (fi & Hfi & Hst).
        exists fi. split; [exact Hfi |]. rewrite List.Forall_forall in Hst |- *.
        intros out Hin fo Hfo. specialize (Hst (stamp_of (files w) out)).
        unfold stamp_of in Hst. rewrite Hfo in Hst. simpl in Hst. apply Hst.
        apply in_map_iff. exists out. split; [| exact Hin].
        unfold stamp_of. now rewrite Hfo.
      * intros (m' & [= <-] & _ & H).
        eapply Forall_impl; [exact H |]. simpl. intros inc (fi & Hfi & Hst).
        exists fi. split; [exact Hfi |]. rewrite List.Forall_forall in Hst |- *.
        intros stamp Hin. apply in_map_iff in Hin as (out & <- & Hin).
        rewrite List.Forall_forall in Hall. destruct (Hall out Hin) as (fo & Hfo).
        unfold stamp_of. rewrite Hfo. simpl. now apply (Hst out Hin).
    + exists false, w1. split; [reflexivity |]. split; [exact Hs1 |].
      split; [discriminate |]. intros (m' & _ & Hall & _). contradiction.
  - unfold bind.
    destruct (say_quiet WARNING ("out-of-date: " ++ includes_filename ++ " does not exist!")
                w eq_refl)
      as (w1 & -> & Hs1).
    exists false, w1. split; [reflexivity |]. split; [exact Hs1 |].
    split; [discriminate |]. intros (m' & Hm & _). discriminate.
Qed.

End WorldFacts.

(** X11.  [is_output_up_to_date] never raises and changes nothing but
    the reporter: no file, no directory, nothing printed.  It answers
    [True] exactly when the outputs are fresh: the manifest and every
    output exist, and every file the manifest lists (its stripped,
    non-empty lines) exists and is not newer than any output. *)
Theorem is_output_up_to_date_spec
    (outputs : list string) (includes_filename : string) (w : Generate.World) :
  exists b w',
    Generate.is_output_up_to_date outputs includes_filename w = (Returns b, w')
    /\ Notions.same_files w w'
    /\ (b = true <-> Notions.fresh (Generate.files w) outputs includes_filename).
Proof.
  destruct (is_output_up_to_date_quiet outputs includes_filename w)
    as (b & w' & H & (Hs & _) & Hb).
  exists b, w'. auto.
Qed.

Section CommitFacts.
Import Diagnostics Run Generate Notions.

Variable env : Environment.

Lemma say_frame lvl text w : same_files w (snd (say lvl text w)).
Proof.
  unfold say, reporting. destruct ((emit lvl None text;;; ret tt) (reporter w)). repeat split.
Qed.

Lemma string_length_app (s t : string) :
  String.length (s ++ t) = (String.length s + String.length t)%nat.
Proof. induction s as [| a s IH]; simpl; [reflexivity | now rewrite IH]. Qed.

Lemma tmp_neq (out : string) : (out ++ ".~nv")%string <> out.
Proof.
  intros H. apply (f_equal String.length) in H. rewrite string_length_app in H.
  simpl in H. lia.
Qed.

(** Reading files changes nothing. *)
Lemma read_frame path w : snd (read path w) = w.
Proof. unfold read. destruct (files w !! path); reflexivity. Qed.

Lemma compare_files_frame cur gen w : snd (compare_files env cur gen w) = w.
Proof.
  unfold compare_files, bind, read.
  destruct (files w !! gen); [| reflexivity].
  destruct (files w !! cur); reflexivity.
Qed.

Lemma _compare_files_frame out tmp w : snd (_compare_files env out tmp w) = w.
Proof.
  unfold _compare_files. destruct (negb (exists_ out w)); [reflexivity |].
  apply compare_files_frame.
Qed.

(** [_compare_files] answers only when the temporary file is there or
    the output is missing. *)
Lemma _compare_files_returns out tmp w res w' :
  _compare_files env out tmp w = (Returns res, w') ->
  w' = w /\ (are_same res = true -> is_Some (files w !! tmp) /\ is_Some (files w !! out)).
Proof.
  intros H. pose proof (_compare_files_frame out tmp w) as Hf. rewrite H in Hf. simpl in Hf.
  split; [exact Hf |]. revert H. unfold _compare_files, exists_.
  destruct (files w !! out) eqn:Eo; simpl.
  - unfold compare_files, bind, read. destruct (files w !! tmp) eqn:Et; [| discriminate].
    intros _ _. rewrite ?Eo. eauto.
  - intros [= <- _]. discriminate.
Qed.

End CommitFacts.

Section CommitTheorems.
Import Diagnostics Run Generate Notions.

Variable env : Environment.

(** The failing branch of [_commit]: with [--fail-on-write] the
    temporary file is removed before [shutil.move] looks for it. *)
Lemma fail_on_write_branch (out tmp : string) (w : World) res w' :
  tmp <> out ->
  (say NOTE (Some ("Generated: " ++ out)%string) ;;;
   (compare <- _compare_files env out tmp ;;
    let error_message := (fail_on_write_text out ++ differences compare)%string in
    remove tmp ;;;
    say ERROR (Py.format0 error_message)) ;;;
   move tmp out) w = (res, w') ->
  (exists e, res = Raises e) /\ files w' !! out = files w !! out.
Proof.
  intros Hne. unfold bind at 1.
  destruct (say_returns NOTE ("Generated: " ++ out)%string w) as (w1 & -> & Hf1 & _).
  unfold bind at 1. unfold bind at 1.
  destruct (_compare_files env out tmp w1) as [[compare | e] w2] eqn:Ec;
    pose proof (_compare_files_frame env out tmp w1) as Hw2; rewrite Ec in Hw2;
    simpl in Hw2; subst w2.
  - cbv zeta. unfold bind at 1. unfold remove at 1.
    destruct (files w1 !! tmp) as [f |] eqn:Et.
    + pose proof (say_frame ERROR
                    (Py.format0 (fail_on_write_text out ++ differences compare)%string)
                    (set_files (delete tmp (files w1)) w1)) as (Hf3 & _).
      destruct (say ERROR _ _) as [[[] | e] w3]; simpl in Hf3.
      * unfold move. rewrite Hf3, lookup_delete_eq.
        intros [= <- <-]. split; [eauto |]. rewrite Hf3.
        rewrite lookup_delete_ne by exact Hne. now rewrite Hf1.
      * intros [= <- <-]. split; [eauto |]. rewrite Hf3.
        rewrite lookup_delete_ne by exact Hne. now rewrite Hf1.
    + intros [= <- <-]. split; [eauto |]. now rewrite Hf1.
  - intros [= <- <-]. split; [eauto |]. now rewrite Hf1.
Qed.


End CommitTheorems.



(** X14.  Whenever [_commit] returns, the temporary file is gone and no
    other file than the output has changed; the output holds either
    its old text under a new time stamp ([--skip-write-if-same], when
    the texts agree) or, without [--fail-on-write], the text of the
    temporary file with the final newline, formatted. *)
Theorem commit_returns
    (env : Generate.Environment) (self : Generate.CodeGenerator) (out : string)
    (w w' : Generate.World) :
  Generate._out_filename self = Some out ->
  Generate._tmp_filename self = Some (out ++ ".~nv")%string ->
  Generate._commit env self w = (Returns tt, w') ->
  Generate.files w' !! (out ++ ".~nv")%string = None
  /\ (forall path, path <> out -> path <> (out ++ ".~nv")%string ->
      Generate.files w' !! path = Generate.files w !! path)
  /\ ((Generate._skip_write_if_same self = true
       /\ exists fo, Generate.files w !! out = Some fo
            /\ Generate.files w' !! out
               = Some (Generate.MkFile (Generate.content fo) (Generate.now env)))
      \/ (Generate._fail_on_write self = false
          /\ exists ft, Generate.files w !! (out ++ ".~nv")%string = Some ft
               /\ Generate.files w' !! out
                  = Some (Generate.MkFile
                            (match Generate._format_module self with
                             | Some module =>
                                 Generate.format_cpp env module
                                   (Generate.content ft ++ String Py.newline "")
                             | None => (Generate.content ft ++ String Py.newline "")%string
                             end)
                            (Generate.now env)))).
Proof.
  intros Hout Htmp.
  pose proof (tmp_neq out) as Hne. set (tmp := (out ++ ".~nv")%string) in *.
  unfold Generate._commit. rewrite Hout, Htmp. fold tmp.
  unfold Run.bind at 1. unfold Generate.write at 1.
  set (w1 := Generate.set_files _ w).
  unfold Run.bind at 1.
  set (fmt := match Generate._format_module self with Some _ => _ | None => _ end).
  set (text := fun ft : Generate.File =>
                 match Generate._format_module self with
                 | Some module =>
                     Generate.format_cpp env module
                       (Generate.content ft ++ String Py.newline "")
                 | None => (Generate.content ft ++ String Py.newline "")%string
                 end).
  assert (Hfmt : exists w2, fmt w1 = (Returns tt, w2)
                   /\ (forall path, path <> tmp ->
                       Generate.files w2 !! path = Generate.files w !! path)
                   /\ Generate.files w2 !! tmp
                      = (fun ft => Generate.MkFile (text ft) (Generate.now env))
                          <$> (Generate.files w !! tmp)).
  { subst fmt w1 text. destruct (Generate._format_module self).
    - eexists. split; [reflexivity |]. simpl. split.
      + intros path Hp. rewrite !lookup_alter_ne by (intros E; apply Hp; now symmetry).
        reflexivity.
      + rewrite !lookup_alter_eq. destruct (Generate.files w !! tmp); reflexivity.
    - eexists. split; [reflexivity |]. simpl. split.
      + intros path Hp. rewrite !lookup_alter_ne by (intros E; apply Hp; now symmetry).
        reflexivity.
      + rewrite !lookup_alter_eq. destruct (Generate.files w !! tmp); reflexivity. }
  destruct Hfmt as (w2 & -> & H2 & H2t). clearbody w1. clear w1.
  assert (H2o : Generate.files w2 !! out = Generate.files w !! out)
    by (apply H2; intros E; apply Hne; now symmetry).
  unfold Run.bind at 1.
  assert (Hmove : forall w3 res w4,
             Generate.files w3 = Generate.files w2 ->
             Generate.move tmp out w3 = (res, w4) -> res = Returns tt ->
             Generate.files w4 !! tmp = None
             /\ (forall path, path <> out -> path <> tmp ->
                 Generate.files w4 !! path = Generate.files w !! path)
             /\ exists ft, Generate.files w !! tmp = Some ft
                  /\ Generate.files w4 !! out
                     = Some (Generate.MkFile (text ft) (Generate.now env))).
  { intros w3 res0 w4 Hf3. unfold Generate.move. rewrite Hf3, H2t.
    destruct (Generate.files w !! tmp) as [ft |] eqn:Et; simpl; [| intros [= <- _]; discriminate].
    intros [= <- <-] _. simpl. split.
    - rewrite lookup_insert_ne by (intros E; apply Hne; now symmetry).
      apply lookup_delete_eq.
    - split.
      + intros path Hp1 Hp2. rewrite lookup_insert_ne by (intros E; apply Hp1; now symmetry).
        rewrite lookup_delete_ne by (intros E; apply Hp2; now symmetry).
        apply H2. exact Hp2.
      + exists ft. split; [reflexivity |]. apply lookup_insert_eq. }
  assert (Hwrite : forall res0 w4,
             (Generate.say Diagnostics.NOTE (Some ("Generated: " ++ out)%string) ;;;
              (if Generate._fail_on_write self then
                 compare <- Generate._compare_files env out tmp ;;
                 let error_message :=
                   (Generate.fail_on_write_text out ++ Generate.differences compare)%string in
                 Generate.remove tmp ;;;
                 Generate.say Diagnostics.ERROR (Py.format0 error_message)
               else Run.ret tt) ;;;
              Generate.move tmp out) w2 = (res0, w4) ->
             res0 = Returns tt ->
             Generate._fail_on_write self = false
             /\ Generate.files w4 !! tmp = None
             /\ (forall path, path <> out -> path <> tmp ->
                 Generate.files w4 !! path = Generate.files w !! path)
             /\ exists ft, Generate.files w !! tmp = Some ft
                  /\ Generate.files w4 !! out
                     = Some (Generate.MkFile (text ft) (Generate.now env))).
  { intros res0 w4. destruct (Generate._fail_on_write self) eqn:Ef.
    - intros Hrun ->. apply fail_on_write_branch in Hrun as ((e & He) & _); [| exact Hne].
      discriminate.
    - unfold Run.bind at 1.
      destruct (say_returns Diagnostics.NOTE ("Generated: " ++ out)%string w2)
        as (w3 & -> & Hf3 & _).
      unfold Run.bind at 1. unfold Run.ret at 1.
      intros Hm Hr. split; [reflexivity |]. eapply Hmove; eauto. }
  destruct (Generate._skip_write_if_same self && Generate.exists_ out w2) eqn:Eskip.
  - unfold Run.bind at 1.
    destruct (Generate._compare_files env out tmp w2) as [[compare | e] w3] eqn:Ec;
      [| discriminate].
    apply _compare_files_returns in Ec as Hc. destruct Hc as (-> & Hsame).
    unfold Run.ret at 1. cbv beta iota.
    destruct (Generate.are_same compare) eqn:Esame.
    + destruct (Hsame eq_refl) as ((ft & Hft) & (fo & Hfo)).
      unfold Run.bind at 1. unfold Generate.touch at 1. rewrite Hfo.
      unfold Run.bind at 1. unfold Generate.remove at 1. simpl Generate.files.
      rewrite lookup_insert_ne by (intros E; apply Hne; now symmetry).
      rewrite Hft.
      match goal with
      | |- Generate.say ?l ?t ?w0 = _ -> _ =>
          destruct (say_returns l ("skipped writing: " ++ out)%string w0)
            as (w4 & Hsay & Hf4 & _)
      end.
      rewrite Hsay. intros [= <-]. rewrite Hf4. simpl.
      split; [apply lookup_delete_eq |]. split.
      * intros path Hp1 Hp2. rewrite lookup_delete_ne by (intros E; apply Hp2; now symmetry).
        rewrite lookup_insert_ne by (intros E; apply Hp1; now symmetry).
        apply H2. exact Hp2.
      * left. apply andb_true_iff in Eskip as (Hs & _). split; [exact Hs |].
        exists fo. rewrite <- H2o. split; [exact Hfo |].
        rewrite lookup_delete_ne by exact Hne. now rewrite lookup_insert_eq.
    + intros Hrun. destruct (Hwrite _ _ Hrun eq_refl) as (Hf & Ht & Hp & Ho).
      split; [exact Ht |]. split; [exact Hp |]. right. split; [exact Hf | exact Ho].
  - intros Hrun. destruct (Hwrite _ _ Hrun eq_refl) as (Hf & Ht & Hp & Ho).
    split; [exact Ht |]. split; [exact Hp |]. right. split; [exact Hf | exact Ho].
Qed.

Lemma commit_returns_witness :
  let w := SampleRun.old_and_new "old api" "new api" in
  Generate.files (snd (Generate._commit SampleRun.env (SampleRun.generator false false) w))
    !! "IFoo.gen.h.~nv" = None.
Proof.
  intros w.
  destruct (Generate._commit SampleRun.env (SampleRun.generator false false) w)
    as [res w'] eqn:E.
  assert (Hres : res = Returns tt).
  { apply (f_equal fst) in E. simpl in E. rewrite <- E. vm_compute. reflexivity. }
  subst res.
  exact (proj1 (commit_returns SampleRun.env (SampleRun.generator false false) "IFoo.gen.h"
                  w w' eq_refl eq_refl E)).
Defined.

Section ManifestFacts.
Import Diagnostics Run Generate Notions.

Variable env : Environment.

Lemma existsb_eqb_In key keys : existsb (String.eqb key) keys = true <-> In key keys.
Proof.
  rewrite existsb_exists. split.
  - intros (x & Hin & Heq). apply String.eqb_eq in Heq. now subst.
  - intros H. exists key. split; [exact H | apply String.eqb_refl].
Qed.

Lemma add_key_In key keys k : In k (add_key key keys) <-> k = key \/ In k keys.
Proof.
  unfold add_key. destruct (existsb (String.eqb key) keys) eqn:E.
  - apply existsb_eqb_In in E. split; [auto |]. intros [-> | H]; auto.
  - rewrite in_app_iff. simpl. split; [intros [H | [<- | []]]; auto |].
    intros [-> | H]; auto.
Qed.

Lemma add_key_NoDup key keys : List.NoDup keys -> List.NoDup (add_key key keys).
Proof.
  intros H. unfold add_key. destruct (existsb (String.eqb key) keys) eqn:E; [exact H |].
  apply NoDup_ListNoDup. apply NoDup_app. split; [now apply NoDup_ListNoDup |].
  split; [| apply NoDup_singleton].
  intros x Hx Hx'. apply list_elem_of_singleton in Hx'. subst x.
  apply list_elem_of_In in Hx. apply existsb_eqb_In in Hx. congruence.
Qed.

Lemma fold_add_key (f : string -> bool) l acc :
  let keys := fold_left (fun acc path => if f path then add_key path acc else acc) l acc in
  (List.NoDup acc -> List.NoDup keys)
  /\ (forall k, In k keys <-> In k acc \/ (In k l /\ f k = true)).
Proof.
  revert acc. induction l as [| x l IH]; intros acc; simpl.
  - split; [auto |]. intros k. split; [auto | intros [H | (H & _)]; [exact H | contradiction]].
  - destruct (IH (if f x then add_key x acc else acc)) as (H1 & H2). split.
    + intros Hn. apply H1. destruct (f x); [now apply add_key_NoDup | exact Hn].
    + intros k. rewrite H2. destruct (f x) eqn:E.
      * rewrite add_key_In. split.
        -- intros [[-> | H] | (H & Hf)]; auto.
        -- intros [H | ([<- | H] & Hf)]; auto.
      * split.
        -- intros [H | (H & Hf)]; auto.
        -- intros [H | ([<- | H] & Hf)]; auto. congruence.
Qed.

Lemma string_app_assoc (a b c : string) : ((a ++ b) ++ c = a ++ (b ++ c))%string.
Proof.
  induction a as [| x a IH]; [reflexivity |].
  change (String x ((a ++ b) ++ c) = String x (a ++ (b ++ c)))%string. now rewrite IH.
Qed.

Lemma string_app_nil_r (a : string) : (a ++ "")%string = a.
Proof.
  induction a as [| x a IH]; [reflexivity |].
  change (String x (a ++ "") = String x a)%string. now rewrite IH.
Qed.

(** The text of the lines for the keys. *)
Lemma lines_of_cons key rest :
  lines_of (key :: rest) = (key ++ String Py.newline "" ++ lines_of rest)%string.
Proof.
  unfold lines_of. destruct rest as [| key' rest].
  - reflexivity.
  - change (String.concat "" ((fun k => k ++ String Py.newline "")%string <$> key :: key' :: rest))
      with ((key ++ String Py.newline "") ++ ""
            ++ String.concat "" ((fun k => k ++ String Py.newline "")%string <$> key' :: rest))%string.
    now rewrite string_app_assoc.
Qed.

(** Writing the lines of the manifest one after the other. *)
Lemma write_lines out keys w text :
  files w !! out = Some (MkFile text (now env)) ->
  exists w',
    for_each keys (fun key => write env out (key ++ String Py.newline "")%string) w
    = (Returns tt, w')
    /\ files w' = <[out := MkFile (text ++ lines_of keys) (now env)]> (files w)
    /\ dirs w' = dirs w /\ reporter w' = reporter w /\ stdout w' = stdout w.
Proof.
  revert w text. induction keys as [| key rest IH]; intros w text Hf.
  - exists w. split; [reflexivity |]. split; [| auto].
    unfold lines_of. simpl. rewrite string_app_nil_r. symmetry. now apply insert_id.
  - simpl for_each. unfold bind, write at 1.
    set (w1 := set_files _ w).
    assert (Halter : files w1
                     = <[out := MkFile (text ++ key ++ String Py.newline "") (now env)]>
                         (files w)).
    { subst w1. simpl. apply map_eq. intros p. destruct (decide (p = out)) as [-> |].
      - rewrite lookup_alter_eq, lookup_insert_eq, Hf. reflexivity.
      - rewrite lookup_alter_ne, lookup_insert_ne by congruence. reflexivity. }
    assert (Hf1 : files w1 !! out
                  = Some (MkFile (text ++ key ++ String Py.newline "") (now env))).
    { rewrite Halter. apply lookup_insert_eq. }
    destruct (IH w1 _ Hf1) as (w' & -> & Hfs & Hd & Hr & Ho).
    exists w'. split; [reflexivity |]. split; [| subst w1; auto].
    rewrite Hfs, Halter, insert_insert_eq, lines_of_cons.
    now rewrite !string_app_assoc.
Qed.

End ManifestFacts.

(** X15.  [write_includes] with no tool dependencies raises before
    anything is written.  Otherwise it returns and the manifest holds
    the name of the translation unit on its first line and then one
    line per key, where no key is listed twice and the keys are exactly
    the tool dependencies and the included files that exist and do not
    end in [.gen.h]; no other file changes. *)
Theorem write_includes_manifest
    (env : Generate.Environment) (out_filename tu_spelling : string)
    (tu_includes deps : list string) (w : Generate.World) :
  match deps with
  | [] =>
      exists e, Generate.write_includes env out_filename tu_spelling tu_includes deps w
                = (Raises e, w)
  | _ =>
      exists keys w',
        Generate.write_includes env out_filename tu_spelling tu_includes deps w
        = (Returns tt, w')
        /\ Generate.files w'
           = <[out_filename :=
                 Generate.MkFile (tu_spelling ++ String Py.newline "" ++ Notions.lines_of keys)
                                 (Generate.now env)]> (Generate.files w)
        /\ List.NoDup keys
        /\ (forall key, In key keys <->
              In key deps
              \/ (In key tu_includes /\ is_Some (Generate.files w !! key)
                  /\ Py.endswith key ".gen.h" = false))
  end.
Proof.
  destruct deps as [| dep deps]; [eexists; reflexivity |].
  unfold Generate.write_includes.
  set (f := fun path => Generate.exists_ path w && negb (Py.endswith path ".gen.h")).
  set (included := fold_left _ tu_includes []).
  set (keys := fold_left _ (dep :: deps) included).
  assert (Hn1 : List.NoDup included) by (apply (fold_add_key f tu_includes []); constructor).
  assert (Hi1 : forall k, In k included <-> In k [] \/ (In k tu_includes /\ f k = true))
    by (apply (fold_add_key f tu_includes [])).
  assert (Hn2 : List.NoDup keys)
    by (apply (fold_add_key (fun _ => true) (dep :: deps) included); exact Hn1).
  assert (Hi2 : forall k, In k keys <-> In k included \/ (In k (dep :: deps) /\ true = true))
    by (apply (fold_add_key (fun _ => true) (dep :: deps) included)).
  exists keys.
  unfold Run.bind at 1.
  assert (Hmk : exists w1, Generate.make_dirs env out_filename w = (Returns tt, w1)
                  /\ Generate.files w1 = Generate.files w).
  { unfold Generate.make_dirs. destruct (bool_decide _); [eauto |].
    unfold Run.bind.
    destruct (say_returns Diagnostics.VERBOSE
                ("making: " ++ Generate.parent_of env out_filename)%string w)
      as (w1 & -> & Hf & _).
    eexists. split; [reflexivity |]. exact Hf. }
  destruct Hmk as (w1 & -> & Hf1).
  unfold Run.bind at 1, Generate.open_w at 1.
  unfold Run.bind at 1, Generate.write at 1.
  set (w3 := Generate.set_files _ _).
  assert (Hf3 : Generate.files w3
                = <[out_filename := Generate.MkFile (tu_spelling ++ String Py.newline "")
                                      (Generate.now env)]> (Generate.files w)).
  { subst w3. simpl. rewrite Hf1. apply map_eq. intros p.
    destruct (decide (p = out_filename)) as [-> |].
    - rewrite lookup_alter_eq, !lookup_insert_eq. reflexivity.
    - rewrite lookup_alter_ne, !lookup_insert_ne by congruence. reflexivity. }
  destruct (write_lines env out_filename keys w3 (tu_spelling ++ String Py.newline ""))
    as (w' & Hrun & Hfs & _).
  { rewrite Hf3. apply lookup_insert_eq. }
  exists w'. split; [exact Hrun |].
  split; [rewrite Hfs, Hf3, insert_insert_eq; now rewrite string_app_assoc |].
  split; [exact Hn2 |].
  intros key. rewrite Hi2, Hi1. subst f. simpl. unfold Generate.exists_.
  rewrite andb_true_iff, negb_true_iff.
  destruct (Generate.files w !! key) eqn:E; split.
  - intros [[[] | (H1 & _ & H3)] | (H & _)]; eauto.
  - intros [H | (H1 & _ & H3)]; auto.
  - intros [[[] | (_ & H & _)] | (H & _)]; [discriminate | auto].
  - intros [H | (_ & (x & Hx) & _)]; [auto | discriminate].
Qed.

(** ** Comparing with the file on disk *)

Section CompareFacts.
Import Diagnostics Run Generate Notions.

Lemma universal_newlines_line l1 l2 :
  Forall (fun c => c <> Py.carriage_return) l1 ->
  Py.universal_newlines_chars (l1 ++ Py.newline :: l2)
  = l1 ++ Py.newline :: Py.universal_newlines_chars l2.
Proof.
  induction l1 as [| x l1 IH]; intros H.
  - reflexivity.
  - inversion H as [| ? ? Hx Hrest]; subst.
    change ((x :: l1) ++ Py.newline :: l2) with (x :: (l1 ++ Py.newline :: l2)).
    cbn [Py.universal_newlines_chars].
    destruct (Ascii.eqb x Py.carriage_return) eqn:E;
      [apply Ascii.eqb_eq in E; contradiction |].
    rewrite (IH Hrest). reflexivity.
Qed.

Lemma readlines_line cur l1 l2 :
  Forall (fun c => c <> Py.newline) l1 ->
  Py.readlines_chars cur (l1 ++ Py.newline :: l2)
  = rev (Py.newline :: rev l1 ++ cur) :: Py.readlines_chars [] l2.
Proof.
  revert cur. induction l1 as [| x l1 IH]; intros cur H.
  - simpl. rewrite ?Ascii.eqb_refl. reflexivity.
  - inversion H as [| ? ? Hx Hrest]; subst.
    change ((x :: l1) ++ Py.newline :: l2) with (x :: (l1 ++ Py.newline :: l2)).
    cbn [Py.readlines_chars].
    destruct (Ascii.eqb x Py.newline) eqn:E; [apply Ascii.eqb_eq in E; contradiction |].
    rewrite (IH _ Hrest). simpl. now rewrite <- app_assoc.
Qed.

Lemma prefix_app_intro p t : String.prefix p (p ++ t) = true.
Proof.
  induction p as [| a p IH]; [destruct t; reflexivity |].
  change (String.prefix (String a p) (String a (p ++ t)) = true). simpl.
  destruct (ascii_dec a a); [exact IH | contradiction].
Qed.

Lemma prefix_app_r p s t : String.prefix p s = true -> String.prefix p (s ++ t) = true.
Proof.
  intros H. apply prefix_app in H as (u & ->).
  rewrite string_app_assoc. apply prefix_app_intro.
Qed.

(** The lines [compare_files] keeps of a text whose first line is a
    copyright comment: those after it. *)
Lemma read_lines_copyright (first body : string) :
  Py.startswith first "// Copyright" = true ->
  Forall (fun c => c <> Py.newline /\ c <> Py.carriage_return) (Py.chars first) ->
  read_lines (Py.universal_newlines (first ++ String Py.newline body))
  = Py.readlines (Py.universal_newlines body).
Proof.
  intros Hs Hc. unfold read_lines, Py.readlines, Py.universal_newlines.
  unfold Py.chars, Py.str in *.
  rewrite chars_app. cbn [list_ascii_of_string].
  rewrite universal_newlines_line by (eapply Forall_impl; [exact Hc |]; simpl; tauto).
  rewrite !list_ascii_of_string_of_list_ascii.
  rewrite readlines_line by (eapply Forall_impl; [exact Hc |]; simpl; tauto).
  cbn [fmap list_fmap]. 
  assert (Hp : Py.startswith
                 (string_of_list_ascii (rev (Py.newline :: rev (list_ascii_of_string first) ++ [])))
                 "// Copyright" = true).
  { rewrite app_nil_r. cbn [rev]. rewrite rev_involutive, str_app.
    rewrite string_of_list_ascii_of_string. unfold Py.startswith in *.
    now apply prefix_app_r. }
  unfold Py.str. rewrite Hp. reflexivity.
Qed.

End CompareFacts.

(** X12.  [compare_files] does not look at a leading copyright
    comment: two files whose first lines both start with
    [// Copyright] and which agree after that line compare as the
    same, whatever the two first lines say.  ([difflib] reports no
    difference between equal lists of lines.) *)
Theorem compare_files_ignores_copyright_line
    (env : Generate.Environment) (current generated : string) (w : Generate.World)
    (fo fn : Generate.File) (first_o first_n body : string) :
  (forall lines name, Generate.context_diff env lines lines name = []) ->
  Generate.files w !! current = Some fo ->
  Generate.files w !! generated = Some fn ->
  Generate.content fo = (first_o ++ String Py.newline body)%string ->
  Generate.content fn = (first_n ++ String Py.newline body)%string ->
  Py.startswith first_o "// Copyright" = true ->
  Py.startswith first_n "// Copyright" = true ->
  Forall (fun c => c <> Py.newline /\ c <> Py.carriage_return) (Py.chars first_o) ->
  Forall (fun c => c <> Py.newline /\ c <> Py.carriage_return) (Py.chars first_n) ->
  Generate.compare_files env current generated w
  = (Returns {| Generate.are_same := true; Generate.differences := "" |}, w).
Proof.
  intros Hdiff Ho Hn Hco Hcn Hso Hsn Hfo Hfn.
  unfold Generate.compare_files, Run.bind, Generate.read. rewrite Hn, Ho, Hco, Hcn.
  rewrite !read_lines_copyright by assumption.
  rewrite Hdiff. reflexivity.
Qed.

Lemma compare_files_ignores_copyright_line_witness :
  fst (Generate.compare_files SampleRun.env "IFoo.gen.h" "IFoo.gen.h.~nv"
         (SampleRun.old_and_new
            ("// Copyright (c) 2020" ++ String Py.newline "api")
            ("// Copyright (c) 2020-2022" ++ String Py.newline "api")))
  = Returns {| Generate.are_same := true; Generate.differences := "" |}.
Proof.
  rewrite (compare_files_ignores_copyright_line SampleRun.env "IFoo.gen.h" "IFoo.gen.h.~nv"
             _ (Generate.MkFile ("// Copyright (c) 2020" ++ String Py.newline "api") 10)
             (Generate.MkFile ("// Copyright (c) 2020-2022" ++ String Py.newline "api") 100)
             "// Copyright (c) 2020" "// Copyright (c) 2020-2022" "api").
  - reflexivity.
  - intros lines name. simpl. destruct (decide (lines = lines)); [reflexivity | contradiction].
  - reflexivity.
  - reflexivity.
  - reflexivity.
  - reflexivity.
  - reflexivity.
  - reflexivity.
  - vm_compute. repeat constructor; discriminate.
  - vm_compute. repeat constructor; discriminate.
Defined.

(** ** The driver *)

Section MainFacts.
Import Diagnostics Run Generate Cli Notions.

Variable env : Environment.

Lemma no_error_valid r : no_error r -> valid r = true.
Proof. intros (H1 & H2). unfold valid. now rewrite H2. Qed.

Lemma text_reporter_no_error lvl : no_error (text_reporter (Some lvl)).
Proof. split; reflexivity. Qed.

(** The [except] clauses end in the exit status 1. *)
Lemma main_except_exit_code args e w :
  exit_code (fst (main_except args e w)) = 1.
Proof.
  unfold main_except.
  assert (Hsay : forall text w0,
             exit_code (fst ((say FATAL (Some text) ;;; ret 1) w0)) = 1).
  { intros text w0. unfold bind.
    destruct (say_returns FATAL text w0) as (w1 & -> & _). reflexivity. }
  destruct e; try (destruct (debug args); [reflexivity | apply Hsay]).
  - destruct (debug args); reflexivity.
  - unfold bind at 1. destruct (say_returns FATAL text w) as (w1 & -> & _). apply Hsay.
Qed.

Lemma main_except_returns args e w :
  debug args = false -> exists w', main_except args e w = (Returns 1, w').
Proof.
  intros Hd. unfold main_except. rewrite Hd.
  assert (Hsay : forall text w0, exists w', (say FATAL (Some text) ;;; ret 1) w0 = (Returns 1, w')).
  { intros text w0. unfold bind.
    destruct (say_returns FATAL text w0) as (w1 & -> & _). eexists. reflexivity. }
  destruct e; try apply Hsay.
  - eexists. reflexivity.
  - unfold bind at 1. destruct (say_returns FATAL text w) as (w1 & -> & _). apply Hsay.
Qed.

(** [with reporter: print_ast(...); return 0] returns only with a
    valid reporter, and then 0. *)
Lemma print_ast_and_exit_returns tu w code w' :
  print_ast_and_exit env tu w = (Returns code, w') ->
  code = 0 /\ valid (reporter w') = true.
Proof.
  unfold print_ast_and_exit, reporting.
  destruct (print_ast env tu (reporter w)) as [[[] | e] r']; [| discriminate].
  unfold reporter_exit, validate.
  destruct (valid r') eqn:Hv.
  - intros [= <- <-]. auto.
  - destruct (List.filter _ _); discriminate.
Qed.

(** When [main_analyse] hands back a return value, it is 0 and the
    reporter is valid. *)
Lemma main_analyse_returns args w code w' :
  no_error (reporter w) ->
  main_analyse env args w = (Returns (inl code), w') ->
  code = 0 /\ valid (reporter w') = true.
Proof.
  intros Hn. unfold main_analyse. cbv zeta. unfold bind at 1.
  set (generated_files := _ ++ _ ++ _).
  destruct (negb (ast args) && given (M_ args)) eqn:Eup.
  - destruct (is_output_up_to_date_quiet generated_files (filename (M_ args)) w)
      as (b & w1 & -> & (_ & Hq) & _).
    destruct b.
    + unfold bind, print, ret. intros [= <- <-]. simpl.
      split; [reflexivity |]. apply no_error_valid. auto.
    + apply andb_true_iff in Eup as (Hast & _). apply negb_true_iff in Hast.
      rewrite Hast. intros H.
      repeat (apply bind_returns in H as (? & ? & _ & H)). discriminate.
  - unfold ret at 1. cbv beta iota.
    intros H.
    apply bind_returns in H as (? & w1 & _ & H).
    apply bind_returns in H as (tu & w2 & _ & H).
    apply bind_returns in H as (? & w3 & _ & H).
    destruct (ast args).
    + apply bind_returns in H as (code' & w4 & Hp & H). injection H as <- <-.
      eapply print_ast_and_exit_returns; eauto.
    + repeat (apply bind_returns in H as (? & ? & _ & H)). discriminate.
Qed.

Lemma main_body_returns args w code w' :
  no_error (reporter w) ->
  main_body env args w = (Returns code, w') ->
  (code = 0 /\ valid (reporter w') = true) \/ (code = 1 /\ valid (reporter w') = false).
Proof.
  intros Hn H. unfold main_body in H.
  apply bind_returns in H as ([code' | a] & w1 & Ha & H).
  - injection H as <- <-. left. eapply main_analyse_returns; eauto.
  - unfold main_outputs in H.
    repeat (apply bind_returns in H as (? & ? & _ & H)).
    injection H as <- <-. destruct (valid (reporter _)); auto.
Qed.

End MainFacts.

(** X16.  The exit status of [main] is 0 only if the reporter is valid
    at the end: a run in which an error or worse was recorded, or from
    which an exception escaped, ends with a status that is not 0. *)
Theorem main_exit_zero_only_if_valid
    (env : Generate.Environment) (args : Cli.Args) (w : Generate.World) :
  Cli.exit_code (fst (Cli.main env args w)) = 0 ->
  Diagnostics.valid (Generate.reporter (snd (Cli.main env args w))) = true.
Proof.
  unfold Cli.main, Run.catch.
  set (w0 := Generate.set_reporter _ w).
  destruct (Cli.main_body env args w0) as [[code | e] w1] eqn:Hb.
  - simpl. intros ->.
    destruct (main_body_returns env args w0 0 w1 (text_reporter_no_error _) Hb)
      as [(_ & Hv) | (Hc & _)]; [exact Hv | discriminate].
  - intros H. rewrite main_except_exit_code in H. discriminate.
Qed.

(** X17.  Without [--debug] no exception leaves [main]: it returns 0 or
    1, and 0 exactly when it ends with a valid reporter. *)
Theorem main_returns_status
    (env : Generate.Environment) (args : Cli.Args) (w : Generate.World) :
  Cli.debug args = false ->
  exists code w',
    Cli.main env args w = (Returns code, w')
    /\ (code = 0 \/ code = 1)
    /\ (code = 0 -> Diagnostics.valid (Generate.reporter w') = true).
Proof.
  intros Hd. unfold Cli.main, Run.catch.
  set (w0 := Generate.set_reporter _ w).
  destruct (Cli.main_body env args w0) as [[code | e] w1] eqn:Hb.
  - exists code, w1. split; [reflexivity |].
    destruct (main_body_returns env args w0 code w1 (text_reporter_no_error _) Hb)
      as [(-> & Hv) | (-> & _)]; split; auto; discriminate.
  - destruct (main_except_returns args e w1 Hd) as (w' & ->).
    exists 1, w'. split; [reflexivity |]. split; [auto | discriminate].
Qed.

Lemma main_exit_zero_only_if_valid_witness :
  Diagnostics.valid
    (Generate.reporter (snd (Cli.main SampleRun.env SampleRun.args SampleRun.sources))) = true.
Proof.
  apply main_exit_zero_only_if_valid. vm_compute. reflexivity.
Defined.

Lemma main_returns_status_witness :
  exists code w',
    Cli.main SampleRun.env SampleRun.args SampleRun.sources = (Returns code, w')
    /\ (code = 0 \/ code = 1).
Proof.
  destruct (main_returns_status SampleRun.env SampleRun.args SampleRun.sources eq_refl)
    as (code & w' & H & Hc & _).
  exists code, w'. auto.
Defined.

(** X18.  When the outputs are fresh (and [--ast] is not given, [-M]
    is), [main] does nothing: it returns 0, prints that all outputs are
    up to date, and leaves every file and directory as it was; the
    front end is not run. *)
Theorem main_up_to_date_does_nothing
    (env : Generate.Environment) (args : Cli.Args) (w : Generate.World) :
  Cli.ast args = false ->
  Cli.given (Cli.M_ args) = true ->
  Notions.fresh (Generate.files w)
    ((if Cli.given (Cli.api args) then [Cli.filename (Cli.api args)] else [])
     ++ (if Cli.given (Cli.py args) then [Cli.filename (Cli.py args)] else [])
     ++ [Cli.filename (Cli.M_ args)])
    (Cli.filename (Cli.M_ args)) ->
  exists w',
    Cli.main env args w = (Returns 0, w')
    /\ Generate.files w' = Generate.files w
    /\ Generate.dirs w' = Generate.dirs w
    /\ Generate.stdout w'
       = Generate.stdout w ++ [(Cli.input args ++ ": All outputs up-to-date")%string].
Proof.
  intros Hast HM Hfresh. unfold Cli.main, Run.catch, Cli.main_body.
  set (w0 := Generate.set_reporter _ w).
  unfold Run.bind at 1. unfold Cli.main_analyse. cbv zeta. rewrite Hast, HM. simpl negb.
  simpl andb. unfold Run.bind at 1.
  destruct (is_output_up_to_date_quiet
              ((if Cli.given (Cli.api args) then [Cli.filename (Cli.api args)] else [])
               ++ (if Cli.given (Cli.py args) then [Cli.filename (Cli.py args)] else [])
               ++ [Cli.filename (Cli.M_ args)])
              (Cli.filename (Cli.M_ args)) w0)
    as (b & w1 & -> & ((Hf & Hd & Ho) & _) & Hb).
  assert (b = true) as -> by (apply Hb; exact Hfresh).
  unfold Run.bind, Generate.print, Run.ret. eexists. split; [reflexivity |].
  simpl. rewrite Hf, Hd, Ho. auto.
Qed.

Lemma main_up_to_date_does_nothing_witness :
  exists w',
    Cli.main SampleRun.env SampleRun.args SampleRun.built = (Returns 0, w')
    /\ Generate.files w' = Generate.files SampleRun.built.
Proof.
  destruct (main_up_to_date_does_nothing SampleRun.env SampleRun.args SampleRun.built
              eq_refl eq_refl) as (w' & H & Hf & _).
  - exists (Generate.MkFile ("IFoo.h" ++ SampleRun.nl) 60).
    split; [reflexivity |].
    split.
    + repeat constructor; eexists; reflexivity.
    + vm_compute Notions.manifest_lines.
      repeat constructor.
      eexists. split; [reflexivity |].
      repeat constructor; intros fo [= <-]; vm_compute; discriminate.
  - exists w'. auto.
Defined.

(** ** Chains of base classes *)

Section ChainFacts.
Import Diagnostics Clang Run Extract.

Variable tu : TranslationUnit.
Variable h : Hierarchy.

(** [_get_hierarchy] appends at least one declaration, and only
    declarations that are their own canonical declaration. *)
Lemma _get_hierarchy_appends depth node out r chain r' :
  _get_hierarchy tu depth h node out r = (Returns chain, r') ->
  exists d rest,
    chain = out ++ d :: rest
    /\ Forall (fun n => canonical_get_declaration (type (cursor tu n)) = n) (d :: rest).
Proof.
  revert node out r. induction depth as [| depth IH]; intros node out r; simpl.
  - discriminate.
  - destruct (Nat.eqb node (canonical_get_declaration (type (cursor tu node)))) eqn:Ec; simpl.
    + apply Nat.eqb_eq in Ec. symmetry in Ec.
      assert (Hdone : exists d rest,
                 out ++ [node] = out ++ d :: rest
                 /\ Forall (fun n => canonical_get_declaration (type (cursor tu n)) = n)
                           (d :: rest))
        by (exists node, []; split; [reflexivity | repeat constructor; exact Ec]).
      assert (Hmore : forall base r0,
                 _get_hierarchy tu depth h base (out ++ [node]) r0 = (Returns chain, r') ->
                 exists d rest,
                   chain = out ++ d :: rest
                   /\ Forall (fun n => canonical_get_declaration (type (cursor tu n)) = n)
                             (d :: rest)).
      { intros base r0 H. apply IH in H as (d & rest & -> & Hall).
        exists node, (d :: rest). split; [now rewrite <- app_assoc |].
        constructor; [exact Ec | exact Hall]. }
      destruct (_usr2info h !! _) as [class_info |].
      * intros H. apply bind_returns in H as (? & r1 & _ & H).
        destruct (bases class_info) as [| base [| ? ?]].
        -- injection H as <- _. exact Hdone.
        -- eapply Hmore; eauto.
        -- injection H as <- _. exact Hdone.
      * intros H. apply bind_returns in H as ([base |] & r1 & _ & H).
        -- destruct (negb _).
           ++ eapply Hmore; eauto.
           ++ injection H as <- _. exact Hdone.
        -- injection H as <- _. exact Hdone.
    + intros H. apply bind_returns in H as (? & r1 & _ & H). eapply IH; eauto.
Qed.

End ChainFacts.

Lemma last_fmap_Some {A} (l : list A) (d : A) :
  l <> [] -> List.last (Some <$> l) None = Some (List.last l d).
Proof.
  induction l as [| a [| b l'] IH]; intros Hne; [congruence | reflexivity |].
  change (List.last (Some <$> a :: b :: l') None) with (List.last (Some <$> b :: l') None).
  change (List.last (a :: b :: l') d) with (List.last (b :: l') d).
  apply IH. discriminate.
Qed.

(** X19.  A chain [get_hierarchy] returns is never empty and holds only
    declarations that are their own canonical declaration; so
    [chain[-1]], as [is_interface] and [is_kit_interface] take it, never
    raises [IndexError]. *)
Theorem get_hierarchy_chain
    (tu : Clang.TranslationUnit) (depth : nat) (h : Extract.Hierarchy) (c : Clang.Cursor)
    (r r' : Diagnostics.Reporter) (chain : list Clang.Cursor) :
  Extract.get_hierarchy tu depth h c r = (Returns chain, r') ->
  chain <> []
  /\ Forall (fun n => Clang.canonical_get_declaration (Clang.type (Clang.cursor tu n)) = n)
            chain
  /\ forall r0, Extract.chain_last chain r0 = (Returns (List.last chain c), r0).
Proof.
  unfold Extract.get_hierarchy. intros H.
  apply _get_hierarchy_appends in H as (d & rest & -> & Hall). simpl in *.
  split; [discriminate |]. split; [exact Hall |].
  intros r0. unfold Extract.chain_last.
  rewrite (last_fmap_Some (d :: rest) c) by discriminate. reflexivity.
Qed.

Lemma get_hierarchy_chain_witness :
  [Sample.IFoo_abi; Sample.Wrapper_IObject_abi; Sample.IObject_abi] <> []
  /\ Forall (fun n => Clang.canonical_get_declaration
                        (Clang.type (Clang.cursor Sample.header n)) = n)
            [Sample.IFoo_abi; Sample.Wrapper_IObject_abi; Sample.IObject_abi]
  /\ forall r0,
       Extract.chain_last [Sample.IFoo_abi; Sample.Wrapper_IObject_abi; Sample.IObject_abi] r0
       = (Returns Sample.IObject_abi, r0).
Proof.
  apply (get_hierarchy_chain Sample.header 4 Sample.header_hierarchy Sample.IFoo_abi
           Diagnostics.default_reporter
           (snd (Extract.get_hierarchy Sample.header 4 Sample.header_hierarchy Sample.IFoo_abi
                   Diagnostics.default_reporter))).
  vm_compute. reflexivity.
Defined.

(** ** Names of interfaces *)

Section IndexFacts.
Import Interfaces.

Lemma chars_str l : Py.chars (Py.str l) = l.
Proof. apply list_ascii_of_string_of_list_ascii. Qed.

Lemma str_chars s : Py.str (Py.chars s) = s.
Proof. apply string_of_list_ascii_of_string. Qed.

Lemma prefix_chars p l :
  String.prefix (Py.str p) (Py.str l) = true <-> exists rest, l = p ++ rest.
Proof.
  split.
  - intros H. apply prefix_app in H as (t & H). exists (Py.chars t).
    rewrite <- (chars_str l), H. unfold Py.chars. rewrite chars_app.
    fold (Py.chars (Py.str p)). now rewrite chars_str.
  - intros (rest & ->). unfold Py.str. rewrite str_app. apply prefix_app_intro.
Qed.

Lemma index_chars_eq p l :
  index_chars p l
  = if String.prefix (Py.str p) (Py.str l) then Some 0%nat
    else match l with
         | [] => None
         | _ :: l' => S <$> index_chars p l'
         end.
Proof. destruct l; reflexivity. Qed.

Lemma index_chars_found p l i :
  index_chars p l = Some i ->
  (exists rest, l = take i l ++ p ++ rest)
  /\ forall pre post, l = pre ++ p ++ post -> (i <= List.length pre)%nat.
Proof.
  revert i. induction l as [| x l IH]; intros i; rewrite index_chars_eq.
  - destruct (String.prefix (Py.str p) (Py.str [])) eqn:E; [| discriminate].
    intros [= <-]. apply prefix_chars in E as (rest & E).
    split; [exists rest; exact E | intros; lia].
  - destruct (String.prefix (Py.str p) (Py.str (x :: l))) eqn:E.
    + intros [= <-]. apply prefix_chars in E as (rest & E).
      split; [exists rest; exact E | intros; lia].
    + destruct (index_chars p l) as [j |] eqn:Ej; [| discriminate].
      intros [= <-]. destruct (IH j eq_refl) as ((rest & Hrest) & Hfirst).
      split.
      * exists rest. simpl. now rewrite <- Hrest.
      * intros [| y pre] post Hl.
        -- assert (String.prefix (Py.str p) (Py.str (x :: l)) = true)
             by (apply prefix_chars; exists post; exact Hl).
           congruence.
        -- injection Hl as _ Hl. apply Hfirst in Hl. simpl. lia.
Qed.

Lemma index_chars_missing p l :
  index_chars p l = None -> forall pre post, l <> pre ++ p ++ post.
Proof.
  induction l as [| x l IH]; rewrite index_chars_eq.
  - destruct (String.prefix (Py.str p) (Py.str [])) eqn:E; [discriminate |].
    intros _ [| y pre] post Hl; [| discriminate].
    assert (String.prefix (Py.str p) (Py.str []) = true)
      by (apply prefix_chars; exists post; exact Hl).
    congruence.
  - destruct (String.prefix (Py.str p) (Py.str (x :: l))) eqn:E; [discriminate |].
    destruct (index_chars p l) as [j |] eqn:Ej; [discriminate |].
    intros _ [| y pre] post Hl.
    + assert (String.prefix (Py.str p) (Py.str (x :: l)) = true)
        by (apply prefix_chars; exists post; exact Hl).
      congruence.
    + injection Hl as _ Hl. exact (IH eq_refl pre post Hl).
Qed.

Lemma chars_inj s t : Py.chars s = Py.chars t -> s = t.
Proof. intros H. rewrite <- (str_chars s), <- (str_chars t). now rewrite H. Qed.

Lemma chars_split3 (s pre post p : string) :
  s = (pre ++ p ++ post)%string <-> Py.chars s = Py.chars pre ++ Py.chars p ++ Py.chars post.
Proof.
  unfold Py.chars. rewrite <- !chars_app. split; [now intros -> | apply chars_inj].
Qed.

(** What [_remove_abi_postfix] returns, and when it raises. *)
Lemma _remove_abi_postfix_cases s :
  match _remove_abi_postfix s with
  | Returns name =>
      (exists rest, s = (name ++ "_abi" ++ rest)%string)
      /\ forall pre post, s = (pre ++ "_abi" ++ post)%string ->
                          (String.length name <= String.length pre)%nat
  | Raises e =>
      e = Diagnostics.ValueError "substring not found"
      /\ forall pre post, s <> (pre ++ "_abi" ++ post)%string
  end.
Proof.
  unfold _remove_abi_postfix, index.
  destruct (index_chars (Py.chars "_abi") (Py.chars s)) as [i |] eqn:E.
  - apply index_chars_found in E as ((rest & Hrest) & Hfirst). split.
    + exists (Py.str rest). apply chars_split3. unfold slice_to.
      now rewrite !chars_str.
    + intros pre post Hs. apply chars_split3 in Hs. apply Hfirst in Hs.
      unfold slice_to. rewrite <- !length_chars. fold (Py.chars (Py.str (take i (Py.chars s)))).
      rewrite chars_str, length_take. fold (Py.chars pre). lia.
  - split; [reflexivity |]. intros pre post Hs. apply chars_split3 in Hs.
    exact (index_chars_missing _ _ E _ _ Hs).
Qed.

Lemma endswith_app s p : Py.endswith (s ++ p)%string p = true.
Proof.
  unfold Py.endswith, Py.chars. rewrite chars_app, rev_app_distr.
  unfold Py.str. rewrite str_app. apply prefix_app_intro.
Qed.

Lemma endswith_split s p :
  Py.endswith s p = true -> exists pre, s = (pre ++ p ++ "")%string.
Proof.
  intros H. exists (Py.slice_to_minus (String.length p) s).
  rewrite string_app_nil_r. symmetry. now apply endswith_slice.
Qed.

Lemma _remove_abi_postfix_endswith s :
  Py.endswith s "_abi" = true -> exists name, _remove_abi_postfix s = Returns name.
Proof.
  intros H. apply endswith_split in H as (pre & H).
  pose proof (_remove_abi_postfix_cases s) as Hc.
  destruct (_remove_abi_postfix s) as [name | e]; [eauto |].
  destruct Hc as (_ & Hc). now apply Hc in H.
Qed.

End IndexFacts.

(** X20.  [_remove_abi_postfix] cuts its argument at the first occurrence
    of ["_abi"], wherever that is, and raises [ValueError] when the
    argument holds no ["_abi"]; so does [Interface.short_name] on the
    spelling of the class. *)
Theorem _remove_abi_postfix_first_occurrence (s : string) :
  match Interfaces._remove_abi_postfix s with
  | Returns name =>
      (exists rest, s = (name ++ "_abi" ++ rest)%string)
      /\ forall pre post, s = (pre ++ "_abi" ++ post)%string ->
                          (String.length name <= String.length pre)%nat
  | Raises e =>
      e = Diagnostics.ValueError "substring not found"
      /\ forall pre post, s <> (pre ++ "_abi" ++ post)%string
  end.
Proof. apply _remove_abi_postfix_cases. Qed.

(** ** Property names *)

Section PropertyNameFacts.
Import Interfaces InterfaceNotions.

Lemma match_word_spec word name g :
  match_word word name = Some g <->
  exists c rest,
    is_upper c = true /\ name = (word ++ String c rest)%string
    /\ g = String c (Py.str (Py.dot_run (Py.chars rest))).
Proof.
  unfold match_word, Py.startswith. split.
  - destruct (String.prefix word name) eqn:E; [| discriminate].
    apply prefix_app in E as (t & ->).
    unfold Py.chars. rewrite chars_app, <- length_chars, drop_app_length.
    destruct t as [| c rest]; simpl; [discriminate |].
    destruct (is_upper c) eqn:Ec; [| discriminate].
    intros [= <-]. exists c, rest. auto.
  - intros (c & rest & Hc & -> & ->). rewrite prefix_app_intro.
    unfold Py.chars. rewrite chars_app, <- length_chars, drop_app_length.
    simpl. now rewrite Hc.
Qed.

Lemma _lower_first_String c rest :
  _lower_first (String c rest) = Returns (String (Py.lower_char c) rest).
Proof.
  unfold _lower_first. simpl. unfold Py.str. simpl.
  now rewrite string_of_list_ascii_of_string.
Qed.

Lemma word_name_cases word name :
  match match_word word name with
  | Some g => exists p, _lower_first g = Returns p /\ decapitalised word name p
  | None => forall p, ~ decapitalised word name p
  end.
Proof.
  destruct (match_word word name) as [g |] eqn:E.
  - apply match_word_spec in E as (c & rest & Hc & -> & ->).
    rewrite _lower_first_String. eexists. split; [reflexivity |].
    exists c, rest. auto.
  - intros p (c & rest & Hc & Hn & _).
    assert (match_word word name = Some (String c (Py.str (Py.dot_run (Py.chars rest)))))
      by (apply match_word_spec; eauto).
    congruence.
Qed.

Lemma decapitalised_inj word name p q :
  decapitalised word name p -> decapitalised word name q -> p = q.
Proof.
  intros (c & rest & _ & Hn & ->) (c' & rest' & _ & Hn' & ->).
  rewrite Hn in Hn'. clear Hn. induction word as [| a word IH].
  - injection Hn' as -> ->. reflexivity.
  - injection Hn' as Hn'. auto.
Qed.

Lemma decapitalised_nonempty word name p : decapitalised word name p -> p <> "".
Proof. intros (c & rest & _ & _ & ->). discriminate. Qed.

(** A capital after ["get"] rules out a capital after ["is"]. *)
Lemma get_not_is name p q :
  decapitalised "get" name p -> decapitalised "is" name q -> False.
Proof.
  intros (c & rest & _ & -> & _) (c' & rest' & _ & H & _). discriminate H.
Qed.

Lemma property_setter_name_cases m :
  exists o, property_setter_name m = Returns o
    /\ forall p, o = Some p <->
         Attr.truthy (Attr.get (Model.method_attributes m) "not_prop") = false
         /\ List.length (Model.parameters m) = 1%nat
         /\ decapitalised "set" (Model._name m) p.
Proof.
  unfold property_setter_name, method_name.
  destruct (Attr.truthy _) eqn:En.
  { exists None. split; [reflexivity |]. intros p. split; [discriminate |].
    intros (H & _). discriminate. }
  destruct (Nat.eqb_spec 1 (List.length (Model.parameters m))) as [El | El]; simpl.
  2: { exists None. split; [reflexivity |]. intros p. split; [discriminate |].
       intros (_ & H & _). congruence. }
  pose proof (word_name_cases "set" (Model._name m)) as Hw.
  destruct (match_word "set" (Model._name m)) as [g |].
  - destruct Hw as (p & -> & Hp). exists (Some p). split; [reflexivity |].
    intros q. split.
    + intros [= <-]. auto.
    + intros (_ & _ & Hq). f_equal. eapply decapitalised_inj; eauto.
  - exists None. split; [reflexivity |]. intros p. split; [discriminate |].
    intros (_ & _ & H). now apply Hw in H.
Qed.

Lemma property_getter_name_cases m :
  exists o, property_getter_name m = Returns o
    /\ forall p, o = Some p <->
         Attr.truthy (Attr.get (Model.method_attributes m) "not_prop") = false
         /\ List.length (Model.parameters m) = 0%nat
         /\ (decapitalised "get" (Model._name m) p
             \/ decapitalised "is" (Model._name m) p).
Proof.
  unfold property_getter_name, method_name.
  destruct (Attr.truthy _) eqn:En.
  { exists None. split; [reflexivity |]. intros p. split; [discriminate |].
    intros (H & _). discriminate. }
  destruct (Nat.eqb_spec 0 (List.length (Model.parameters m))) as [El | El]; simpl.
  2: { exists None. split; [reflexivity |]. intros p. split; [discriminate |].
       intros (_ & H & _). congruence. }
  pose proof (word_name_cases "get" (Model._name m)) as Hw.
  destruct (match_word "get" (Model._name m)) as [g |].
  - destruct Hw as (p & -> & Hp). exists (Some p). split; [reflexivity |].
    intros q. split.
    + intros [= <-]. auto.
    + intros (_ & _ & [Hq | Hq]).
      * f_equal. eapply decapitalised_inj; eauto.
      * destruct (get_not_is _ _ _ Hp Hq).
  - pose proof (word_name_cases "is" (Model._name m)) as Hi.
    destruct (match_word "is" (Model._name m)) as [g |].
    + destruct Hi as (p & -> & Hp). exists (Some p). split; [reflexivity |].
      intros q. split.
      * intros [= <-]. auto.
      * intros (_ & _ & [Hq | Hq]).
        -- now apply Hw in Hq.
        -- f_equal. eapply decapitalised_inj; eauto.
    + exists None. split; [reflexivity |]. intros p. split; [discriminate |].
      intros (_ & _ & [H | H]); [now apply Hw in H | now apply Hi in H].
Qed.

End PropertyNameFacts.

(** X21.  [property_setter_name] never raises.  It gives a name exactly
    for a method without [not_prop] that has one parameter and whose
    name is ["set"], a capital letter and a rest: the name is the
    capital in lower case followed by the rest (up to a newline). *)
Theorem property_setter_name_spec (m : Model.Method) :
  exists o, Interfaces.property_setter_name m = Returns o
    /\ forall p, o = Some p <->
         Attr.truthy (Attr.get (Model.method_attributes m) "not_prop") = false
         /\ List.length (Model.parameters m) = 1%nat
         /\ InterfaceNotions.decapitalised "set" (Model._name m) p.
Proof. apply property_setter_name_cases. Qed.

(** X22.  [property_getter_name] never raises.  It gives a name exactly
    for a method without [not_prop] that has no parameter and whose
    name is ["get"] or ["is"], a capital letter and a rest; such a
    method is no setter, so no method is both. *)
Theorem property_getter_name_spec (m : Model.Method) :
  exists o, Interfaces.property_getter_name m = Returns o
    /\ (forall p, o = Some p <->
          Attr.truthy (Attr.get (Model.method_attributes m) "not_prop") = false
          /\ List.length (Model.parameters m) = 0%nat
          /\ (InterfaceNotions.decapitalised "get" (Model._name m) p
              \/ InterfaceNotions.decapitalised "is" (Model._name m) p))
    /\ (o <> None -> Interfaces.property_setter_name m = Returns None).
Proof.
  destruct (property_getter_name_cases m) as (o & Ho & Hspec).
  exists o. split; [exact Ho |]. split; [exact Hspec |].
  intros Hsome. destruct o as [p |]; [| congruence].
  destruct (proj1 (Hspec p) eq_refl) as (_ & Hlen & _).
  destruct (property_setter_name_cases m) as ([q |] & Hq & Hs); [| exact Hq].
  destruct (proj1 (Hs q) eq_refl) as (_ & Hlen' & _). congruence.
Qed.

(** ** Interfaces *)

Section InterfaceFacts.
Import Diagnostics Clang Run Extract Interfaces InterfaceNotions.

Variable tu : TranslationUnit.
Variable depth : nat.
Variable h : Hierarchy.

Lemma Method__init___cursor c r m r' :
  Model.Method__init__ tu depth h c r = (Returns m, r') ->
  Model.method_cursor m = c
  /\ Model._name m = Py.slice_to_minus 4 (spelling (cursor tu c)).
Proof.
  unfold Model.Method__init__. intros H.
  repeat (apply bind_returns in H as (? & ? & _ & H)).
  injection H as <- _. split; reflexivity.
Qed.

Lemma build_methods_cursors children acc r ms r' :
  build_methods tu depth h children acc r = (Returns ms, r') ->
  Model.method_cursor <$> ms
  = (Model.method_cursor <$> acc)
    ++ List.filter (fun child => cursor_kind_eqb CXX_METHOD (kind (cursor tu child))) children
  /\ exists new, ms = acc ++ new
     /\ Forall (fun m => Model._name m
                         = Py.slice_to_minus 4 (spelling (cursor tu (Model.method_cursor m))))
               new.
Proof.
  revert acc r. induction children as [| child rest IH]; intros acc r.
  - intros [= <- _]. simpl. rewrite !app_nil_r. split; [reflexivity |].
    exists []. now rewrite app_nil_r.
  - cbn [build_methods List.filter].
    destruct (cursor_kind_eqb CXX_METHOD (kind (cursor tu child))); [| apply IH].
    intros H. apply bind_returns in H as (m & r1 & Hm & H).
    apply Method__init___cursor in Hm as (Hc & Hn).
    apply IH in H as (Hcs & new & -> & Hall). split.
    + rewrite Hcs, fmap_app. simpl. rewrite Hc, <- app_assoc. reflexivity.
    + exists (m :: new). split; [now rewrite <- app_assoc |].
      constructor; [now rewrite Hc | exact Hall].
Qed.

(** [Interface.__init__], step by step. *)
Lemma Interface__init___steps c r i r' :
  Interface__init__ tu depth h c r = (Returns i, r') ->
  exists attributes r1 names ms r2 chain r3 props,
    Model.CursorObject__init__ tu c r = (Returns attributes, r1)
    /\ (if Py.endswith (type_spelling (type (cursor tu c))) "_abi" then
          exists name, _remove_abi_postfix (type_spelling (type (cursor tu c))) = Returns name
                       /\ names = (type_spelling (type (cursor tu c)), name)
        else names = ((type_spelling (type (cursor tu c)) ++ "_abi")%string,
                      type_spelling (type (cursor tu c))))
    /\ build_methods tu depth h (get_children (cursor tu c)) [] r1 = (Returns ms, r2)
    /\ get_hierarchy tu depth h c r2 = (Returns chain, r3)
    /\ build_properties ms [] r3 = (Returns props, r')
    /\ i = MkInterface c attributes (fst names) (snd names) ms
             (default "omni::core::IObject" (find_base_name tu chain)) props.
Proof.
  unfold Interface__init__. intros H.
  apply bind_returns in H as (attributes & r1 & H1 & H).
  apply bind_returns in H as (names & r1' & Hn & H).
  apply bind_returns in H as (ms & r2 & Hm & H).
  apply bind_returns in H as (chain & r3 & Hc & H).
  apply bind_returns in H as (props & r4 & Hp & H).
  injection H as <- <-.
  assert (r1' = r1
          /\ if Py.endswith (type_spelling (type (cursor tu c))) "_abi" then
               exists name,
                 _remove_abi_postfix (type_spelling (type (cursor tu c))) = Returns name
                 /\ names = (type_spelling (type (cursor tu c)), name)
             else names = ((type_spelling (type (cursor tu c)) ++ "_abi")%string,
                           type_spelling (type (cursor tu c)))) as (-> & Hnames).
  { destruct (Py.endswith _ "_abi").
    - apply bind_returns in Hn as (name & r0 & Hl & Hn). unfold lift in Hl.
      injection Hl as Hl <-. injection Hn as <- <-. eauto.
    - injection Hn as <- <-. auto. }
  exists attributes, r1, names, ms, r2, chain, r3, props. auto 10.
Qed.

(** Every [CXX_METHOD] child has its method. *)
Lemma Interface_methods_cursor_in c r i r' child :
  Interface__init__ tu depth h c r = (Returns i, r') ->
  In child (List.filter (fun child => cursor_kind_eqb CXX_METHOD (kind (cursor tu child)))
              (get_children (cursor tu c))) ->
  exists m, In m (methods i) /\ Model.method_cursor m = child.
Proof.
  intros H Hin.
  apply Interface__init___steps in H
    as (attributes & r1 & names & ms & r2 & chain & r3 & props & _ & _ & Hm & _ & _ & ->).
  cbn [methods]. apply build_methods_cursors in Hm as (Hcs & _).
  change (Model.method_cursor <$> []) with (@nil Cursor) in Hcs. rewrite app_nil_l in Hcs.
  rewrite <- Hcs in Hin. apply in_map_iff in Hin as (m & Hc & Hin). eauto.
Qed.

End InterfaceFacts.

(** X23.  The names of an interface.  When the type spelling ends in
    ["_abi"], it is the ABI name, and the name is the spelling up to its
    first ["_abi"]; otherwise the spelling is the name and the ABI name
    is the spelling with ["_abi"] appended.  The ABI name always ends in
    ["_abi"]. *)
Theorem Interface_names
    (tu : Clang.TranslationUnit) (depth : nat) (h : Extract.Hierarchy) (c : Clang.Cursor)
    (r r' : Diagnostics.Reporter) (i : Interfaces.Interface) :
  Interfaces.Interface__init__ tu depth h c r = (Returns i, r') ->
  let spelling := Clang.type_spelling (Clang.type (Clang.cursor tu c)) in
  Py.endswith (Interfaces.abi_name i) "_abi" = true
  /\ (Py.endswith spelling "_abi" = true ->
      Interfaces.abi_name i = spelling
      /\ (exists rest, spelling = (Interfaces.name i ++ "_abi" ++ rest)%string)
      /\ forall pre post, spelling = (pre ++ "_abi" ++ post)%string ->
                          (String.length (Interfaces.name i) <= String.length pre)%nat)
  /\ (Py.endswith spelling "_abi" = false ->
      Interfaces.abi_name i = (spelling ++ "_abi")%string
      /\ Interfaces.name i = spelling).
Proof.
  intros H spelling.
  apply Interface__init___steps in H
    as (attributes & r1 & names & ms & r2 & chain & r3 & props & _ & Hn & _ & _ & _ & ->).
  fold spelling in Hn. simpl.
  destruct (Py.endswith spelling "_abi") eqn:E.
  - destruct Hn as (name & Hname & ->). simpl. split; [exact E |].
    split; [| discriminate]. intros _. split; [reflexivity |].
    pose proof (_remove_abi_postfix_cases spelling) as Hc. rewrite Hname in Hc. exact Hc.
  - subst names. simpl. split; [apply endswith_app |].
    split; [discriminate | auto].
Qed.

(** X24.  An interface has one method for each [CXX_METHOD] child of its
    declaration, in the order of the children, and none for its other
    children; the name of each is the spelling of its cursor without the
    last four characters. *)
Theorem Interface_methods
    (tu : Clang.TranslationUnit) (depth : nat) (h : Extract.Hierarchy) (c : Clang.Cursor)
    (r r' : Diagnostics.Reporter) (i : Interfaces.Interface) :
  Interfaces.Interface__init__ tu depth h c r = (Returns i, r') ->
  Model.method_cursor <$> Interfaces.methods i
  = List.filter (fun child => Clang.cursor_kind_eqb Clang.CXX_METHOD
                                (Clang.kind (Clang.cursor tu child)))
                (Clang.get_children (Clang.cursor tu c))
  /\ Forall (fun m => Model._name m
                      = Py.slice_to_minus 4
                          (Clang.spelling (Clang.cursor tu (Model.method_cursor m))))
            (Interfaces.methods i).
Proof.
  intros H.
  apply Interface__init___steps in H
    as (attributes & r1 & names & ms & r2 & chain & r3 & props & _ & _ & Hm & _ & _ & ->).
  simpl. apply build_methods_cursors in Hm as (Hcs & new & -> & Hall).
  split; [exact Hcs | exact Hall].
Qed.

(** ** The table of properties *)

Section PropertyTableFacts.
Import Diagnostics Clang Run Extract Interfaces InterfaceNotions.

Lemma has_key_lookup p props :
  has_key p props = match lookup p props with Some _ => true | None => false end.
Proof.
  induction props as [| [k v] rest IH]; [reflexivity |].
  simpl. destruct (String.eqb k p); [reflexivity | exact IH].
Qed.

Lemma has_key_keys p props : has_key p props = false -> ~ In p (fst <$> props).
Proof.
  induction props as [| [k v] rest IH]; simpl; [tauto |].
  destruct (String.eqb_spec k p) as [-> | Hne]; [discriminate |].
  intros H [Hk | Hin]; [congruence | now apply IH].
Qed.

Lemma lookup_snoc q p v props :
  lookup q (props ++ [(p, v)])
  = match lookup q props with
    | Some a => Some a
    | None => if String.eqb p q then Some v else None
    end.
Proof.
  induction props as [| [k a] rest IH]; simpl; [reflexivity |].
  destruct (String.eqb k q); [reflexivity | exact IH].
Qed.

Lemma lookup_update q p f props :
  lookup q (update p f props)
  = if String.eqb p q then f <$> lookup q props else lookup q props.
Proof.
  induction props as [| [k a] rest IH]; simpl; [now destruct (String.eqb p q) |].
  destruct (String.eqb_spec k p) as [-> | Hkp]; simpl.
  - destruct (String.eqb_spec p q) as [-> | Hpq]; reflexivity.
  - destruct (String.eqb_spec k q) as [-> | Hkq].
    + destruct (String.eqb_spec p q) as [-> | Hpq]; [congruence | reflexivity].
    + exact IH.
Qed.

Lemma keys_update p f props : fst <$> update p f props = fst <$> props.
Proof.
  induction props as [| [k a] rest IH]; [reflexivity |].
  cbn [update]. destruct (String.eqb k p); rewrite !fmap_cons; [reflexivity | now rewrite IH].
Qed.

Lemma last_where_snoc f l m :
  last_where f (l ++ [m]) = if f m then Some m else last_where f l.
Proof.
  unfold last_where. rewrite List.filter_app. simpl.
  destruct (f m); [apply last_snoc | now rewrite app_nil_r].
Qed.

Lemma last_where_none f l : existsb f l = false -> last_where f l = None.
Proof.
  unfold last_where. induction l as [| x l IH]; simpl; [reflexivity |].
  destruct (f x); simpl; [discriminate | exact IH].
Qed.

Lemma NoDup_snoc_key p v props :
  List.NoDup (fst <$> props) -> has_key p props = false ->
  List.NoDup (fst <$> props ++ [(p, v)]).
Proof.
  intros Hnd Hk. rewrite fmap_app. simpl.
  apply NoDup_ListNoDup, NoDup_app. split; [now apply NoDup_ListNoDup |].
  split; [| apply NoDup_singleton].
  intros x Hx Hp. apply list_elem_of_singleton in Hp as ->.
  apply list_elem_of_In in Hx. now apply has_key_keys in Hk.
Qed.

Lemma add_setter_entered ds dg props m o :
  property_setter_name m = Returns o ->
  entered ds dg props -> entered (ds ++ [m]) dg (add_setter m o props).
Proof.
  intros Ho (Hnd & Hlook).
  assert (Hsets : forall p, sets p m = match o with Some q => String.eqb q p | None => false end)
    by (intros p; unfold sets; now rewrite Ho).
  assert (Hne : forall q, o = Some q -> q <> "").
  { intros q ->. destruct (property_setter_name_cases m) as (o' & Ho' & Hspec).
    rewrite Ho in Ho'. injection Ho' as <-.
    destruct (proj1 (Hspec q) eq_refl) as (_ & _ & Hd).
    eapply decapitalised_nonempty; eauto. }
  destruct o as [q |]; simpl.
  2: { split; [exact Hnd |]. intros p. rewrite Hlook. unfold table.
       rewrite existsb_app, last_where_snoc. simpl. rewrite Hsets, !orb_false_r.
       reflexivity. }
  destruct (String.eqb_spec q "") as [Hq | _]; [now apply Hne in Hq |]. simpl.
  pose proof (Hlook q) as Hq. unfold table in Hq.
  rewrite (has_key_lookup q props).
  destruct (lookup q props) as [a |] eqn:Ea; simpl.
  - split; [now rewrite keys_update |].
    intros p. rewrite lookup_update. unfold table.
    rewrite existsb_app, last_where_snoc. simpl. rewrite Hsets, orb_false_r.
    destruct (String.eqb_spec q p) as [<- | Hqp].
    + rewrite Ea, orb_true_r. simpl.
      destruct (existsb (sets q) ds || existsb (gets q) dg); [| discriminate].
      injection Hq as ->. reflexivity.
    + rewrite orb_false_r. apply Hlook.
  - split; [apply NoDup_snoc_key; [exact Hnd | now rewrite has_key_lookup, Ea] |].
    intros p. rewrite lookup_snoc. unfold table.
    rewrite existsb_app, last_where_snoc. simpl. rewrite Hsets, orb_false_r.
    destruct (String.eqb_spec q p) as [<- | Hqp].
    + rewrite Ea, orb_true_r. simpl.
      destruct (existsb (sets q) ds || existsb (gets q) dg) eqn:Ex; [discriminate |].
      apply orb_false_iff in Ex as (_ & Ex). now rewrite (last_where_none _ _ Ex).
    + rewrite orb_false_r. rewrite Hlook. unfold table.
      destruct (existsb (sets p) ds || existsb (gets p) dg); reflexivity.
Qed.

Lemma add_getter_entered ds dg props m o :
  property_getter_name m = Returns o ->
  entered ds dg props -> entered ds (dg ++ [m]) (add_getter m o props).
Proof.
  intros Ho (Hnd & Hlook).
  assert (Hgets : forall p, gets p m = match o with Some q => String.eqb q p | None => false end)
    by (intros p; unfold gets; now rewrite Ho).
  assert (Hne : forall q, o = Some q -> q <> "").
  { intros q ->. destruct (property_getter_name_cases m) as (o' & Ho' & Hspec).
    rewrite Ho in Ho'. injection Ho' as <-.
    destruct (proj1 (Hspec q) eq_refl) as (_ & _ & [Hd | Hd]);
      eapply decapitalised_nonempty; eauto. }
  destruct o as [q |]; simpl.
  2: { split; [exact Hnd |]. intros p. rewrite Hlook. unfold table.
       rewrite existsb_app, last_where_snoc. simpl. rewrite Hgets, !orb_false_r.
       reflexivity. }
  destruct (String.eqb_spec q "") as [Hq | _]; [now apply Hne in Hq |]. simpl.
  pose proof (Hlook q) as Hq. unfold table in Hq.
  rewrite (has_key_lookup q props).
  destruct (lookup q props) as [a |] eqn:Ea; simpl.
  - split; [now rewrite keys_update |].
    intros p. rewrite lookup_update. unfold table.
    rewrite existsb_app, last_where_snoc. simpl. rewrite Hgets, orb_false_r.
    destruct (String.eqb_spec q p) as [<- | Hqp].
    + rewrite Ea, !orb_true_r. simpl.
      destruct (existsb (sets q) ds || existsb (gets q) dg); [| discriminate].
      injection Hq as ->. reflexivity.
    + rewrite orb_false_r. apply Hlook.
  - split; [apply NoDup_snoc_key; [exact Hnd | now rewrite has_key_lookup, Ea] |].
    intros p. rewrite lookup_snoc. unfold table.
    rewrite existsb_app, last_where_snoc. simpl. rewrite Hgets, orb_false_r.
    destruct (String.eqb_spec q p) as [<- | Hqp].
    + rewrite Ea, !orb_true_r. simpl.
      destruct (existsb (sets q) ds || existsb (gets q) dg) eqn:Ex; [discriminate |].
      apply orb_false_iff in Ex as (Ex & _). now rewrite (last_where_none _ _ Ex).
    + rewrite orb_false_r. rewrite Hlook. unfold table.
      destruct (existsb (sets p) ds || existsb (gets p) dg); reflexivity.
Qed.

(** The loop over the methods never raises, leaves the reporter alone,
    and enters every method. *)
Lemma build_properties_entered ms done props r :
  entered done done props ->
  exists props', build_properties ms props r = (Returns props', r)
                 /\ entered (done ++ ms) (done ++ ms) props'.
Proof.
  revert done props. induction ms as [| m ms IH]; intros done props Hin.
  - exists props. rewrite app_nil_r. split; [reflexivity | exact Hin].
  - destruct (property_setter_name_cases m) as (os & Hs & _).
    destruct (property_getter_name_cases m) as (og & Hg & _).
    destruct (IH (done ++ [m]) (add_getter m og (add_setter m os props)) 
                 (add_getter_entered _ _ _ _ _ Hg (add_setter_entered _ _ _ _ _ Hs Hin)))
      as (props' & Hrun & Hin').
    exists props'. rewrite <- app_assoc in Hin'. split; [| exact Hin'].
    cbn [build_properties]. unfold bind, lift. rewrite Hs, Hg. exact Hrun.
Qed.

End PropertyTableFacts.

(** X25.  The table of properties of an interface has one entry for each
    property name some method sets or gets, and no other; the entry
    holds the last method that sets the property and the last that gets
    it ([None] where there is none).  No name is entered twice. *)
Theorem Interface_properties
    (tu : Clang.TranslationUnit) (depth : nat) (h : Extract.Hierarchy) (c : Clang.Cursor)
    (r r' : Diagnostics.Reporter) (i : Interfaces.Interface) :
  Interfaces.Interface__init__ tu depth h c r = (Returns i, r') ->
  List.NoDup (fst <$> Interfaces.properties i)
  /\ forall p,
       Interfaces.lookup p (Interfaces.properties i)
       = if existsb (InterfaceNotions.sets p) (Interfaces.methods i)
            || existsb (InterfaceNotions.gets p) (Interfaces.methods i)
         then Some (Interfaces.MkAccessors
                      (InterfaceNotions.last_where (InterfaceNotions.sets p)
                         (Interfaces.methods i))
                      (InterfaceNotions.last_where (InterfaceNotions.gets p)
                         (Interfaces.methods i)))
         else None.
Proof.
  intros H.
  apply Interface__init___steps in H
    as (attributes & r1 & names & ms & r2 & chain & r3 & props & _ & _ & _ & _ & Hp & ->).
  simpl.
  destruct (build_properties_entered ms [] [] r3) as (props' & Hrun & Hin).
  { split; [constructor | reflexivity]. }
  rewrite Hrun in Hp. injection Hp as -> _. exact Hin.
Qed.

(** X26.  Neither the names nor the table of properties make
    [Interface.__init__] raise: it returns whenever reading the
    attributes, building the methods and walking the chain of bases
    return, with the reporter as the walk left it. *)
Theorem Interface__init___returns
    (tu : Clang.TranslationUnit) (depth : nat) (h : Extract.Hierarchy) (c : Clang.Cursor)
    (r r1 r2 r3 : Diagnostics.Reporter) (attributes : Attr.Attributes)
    (ms : list Model.Method) (chain : list Clang.Cursor) :
  Model.CursorObject__init__ tu c r = (Returns attributes, r1) ->
  Interfaces.build_methods tu depth h (Clang.get_children (Clang.cursor tu c)) [] r1
  = (Returns ms, r2) ->
  Extract.get_hierarchy tu depth h c r2 = (Returns chain, r3) ->
  exists i, Interfaces.Interface__init__ tu depth h c r = (Returns i, r3)
            /\ Interfaces.methods i = ms
            /\ Interfaces.interface_attributes i = attributes.
Proof.
  intros Ha Hm Hc. unfold Interfaces.Interface__init__.
  destruct (build_properties_entered ms [] [] r3) as (props' & Hrun & _).
  { split; [constructor | reflexivity]. }
  unfold Run.bind at 1. rewrite Ha.
  destruct (Py.endswith (Clang.type_spelling (Clang.type (Clang.cursor tu c))) "_abi") eqn:E.
  - destruct (_remove_abi_postfix_endswith _ E) as (name & Hname).
    unfold Run.bind, Run.lift, Run.ret. rewrite Hname, Hm, Hc, Hrun.
    eexists. split; [reflexivity |]. split; reflexivity.
  - unfold Run.bind, Run.lift, Run.ret. rewrite Hm, Hc, Hrun.
    eexists. split; [reflexivity |]. split; reflexivity.
Qed.

(** ** What a parameter that is built leaves behind *)

Section ReturningFacts.
Import Diagnostics Clang Run Extract Report Interfaces InterfaceNotions.

Lemma Returning_Mono {A} P Q e (m : M A) : Mono P Q m -> Returning P Q e m.
Proof. intros H r a r' _ E. specialize (H r). now rewrite E in H. Qed.

Lemma Returning_bind {A B} P Q e (m : M A) (k : A -> M B) :
  Returning P Q e m -> (forall a, Returning P Q e (k a)) -> Returning P Q e (bind m k).
Proof.
  intros Hm Hk r b r' He E. apply bind_returns in E as (a & r1 & E1 & E2).
  pose proof (Hm _ _ _ He E1) as H1.
  eapply extends_trans; [exact H1 |].
  eapply Hk; [| exact E2]. rewrite <- He. eapply extends_error_level; exact H1.
Qed.

Lemma Returning_weaken {A} P Q P' Q' e (m : M A) :
  (forall x, P x -> P' x) -> (forall x, Q x -> Q' x) ->
  Returning P Q e m -> Returning P' Q' e m.
Proof. intros HP HQ H r a r' He E. eapply extends_weaken; eauto. Qed.

Lemma level_lt_max a b e :
  level_lt a e = true -> level_lt b e = true -> level_lt (level_max a b) e = true.
Proof. intros Ha Hb. unfold level_max. now destruct (level_gt b a). Qed.

(** A scope whose body ends with [subreporter.validate()]: when the
    statement returns, the message of the scope is below the error
    level. *)
Lemma with_nest_validated {A} P' lvl src text (body : M A) e :
  Mono P' is_verbose body ->
  level_lt lvl e = true ->
  Returning (fun x => is_verbose x \/ (message x = text /\ level_lt (level x) e = true))
            is_verbose e
            (with_nest lvl src text
               (st <- body ;; (fun sub => (validate sub, sub)) ;;; ret st)).
Proof.
  intros Hbody Hlvl r a r' He E. unfold with_nest in E.
  set (sub := nest_message (MkDiagnosticMessage lvl src text []) r) in *.
  specialize (Hbody sub).
  unfold bind at 1 in E.
  destruct (body sub) as [[st | ex] sub2] eqn:Eb; simpl in Hbody.
  2: { destruct (block_exit _ sub2) as [[[? ?] ?] |]; discriminate E. }
  unfold bind, ret in E.
  destruct (validate sub2) as [[] | ex] eqn:Ev.
  2: { destruct (block_exit _ sub2) as [[[? ?] ?] |]; discriminate E. }
  assert (Hvalid : level_lt (worst_diagnostic_level sub2) e = true).
  { unfold validate in Ev. destruct (valid sub2) eqn:Hv.
    - unfold valid in Hv. rewrite (extends_error_level _ _ _ _ Hbody) in Hv.
      rewrite <- He. exact Hv.
    - destruct (List.filter _ _); discriminate Ev. }
  destruct Hbody as ((_ & _ & _ & Hc) & Hps). simpl in Hps.
  inversion Hps as [| o p l gp Hg Hgs Ho Hp]; subst o l.
  unfold same_class in Hc. simpl in Hc.
  destruct (_class (this sub2)) as [| initial |] eqn:Hcls; try tauto. subst initial.
  unfold block_exit in E. rewrite Hcls, <- Hp in E.
  set (msg := replace_level_nested (MkDiagnosticMessage lvl src text [])
                (level_max (worst_diagnostic_level sub2)
                   (level (MkDiagnosticMessage lvl src text [])))
                (diagnostics sub2)) in *.
  pose proof (emit_message_extends
                (fun x => is_verbose x \/ (message x = text /\ level_lt (level x) e = true))
                is_verbose msg {| this := p; parents := gp |}) as Hemit.
  destruct (emit_message msg {| this := p; parents := gp |}) as [res parent].
  injection E as <- <-.
  apply (extends_trans _ _ r {| this := p; parents := gp |}).
  - split; simpl; [eapply grown_weaken; [| exact Hg]; auto | exact Hgs].
  - apply Hemit. right. split; [reflexivity |]. simpl. now apply level_lt_max.
Qed.

Variable tu : TranslationUnit.
Variable depth : nat.
Variable h : Hierarchy.

Lemma scope_note_side x e : side_note x -> scope_note e x.
Proof. intros H. left. exact H. Qed.

Lemma Returning_Parameter__init__ c index e :
  level_lt VERBOSE e = true ->
  Returning (scope_note e) is_verbose e (Model.Parameter__init__ tu depth h c index).
Proof.
  intros He. unfold Model.Parameter__init__.
  assert (Hside : forall A (m : M A), Mono side_note is_verbose m ->
                                      Returning (scope_note e) is_verbose e m).
  { intros A m Hm. apply Returning_Mono. eapply Mono_weaken; [| | exact Hm]; auto.
    intros x Hx. now left. }
  apply Returning_bind; [apply Hside, Mono_CursorObject__init__ | intros attributes].
  cbv zeta.
  apply Returning_bind; [apply Hside, Mono_is_interface_pointer | intros ip].
  apply Returning_bind; [apply Hside, Mono_is_kit_interface_pointer | intros kip].
  apply Returning_bind.
  { destruct (is_pointer _); [apply Hside, Mono_is_interface_pointer | apply Hside, Mono_ret]. }
  intros pip.
  apply Returning_bind; [| intros; apply Hside, Mono_ret].
  eapply Returning_weaken;
    [| | apply (with_nest_validated anything VERBOSE _ _ _ e
                  (Mono__validate_attributes tu depth h c attributes) He)]; auto.
  intros x [Hx | Hx]; [left; left; exact Hx | right; exact Hx].
Qed.

Lemma Returning_build_parameters cursors i acc e :
  level_lt VERBOSE e = true ->
  Returning (scope_note e) is_verbose e (Model.build_parameters tu depth h cursors i acc).
Proof.
  intros He. revert i acc. induction cursors as [| c rest IH]; intros i acc; simpl.
  - apply Returning_Mono, Mono_ret.
  - apply Returning_bind; [now apply Returning_Parameter__init__ | intros; apply IH].
Qed.

Lemma Returning_Method__init__ c e :
  level_lt VERBOSE e = true ->
  Returning (scope_note_or_check e) is_verbose e (Model.Method__init__ tu depth h c).
Proof.
  intros He. unfold Model.Method__init__.
  assert (Hside : forall A (m : M A), Mono side_note is_verbose m ->
                                      Returning (scope_note_or_check e) is_verbose e m).
  { intros A m Hm. apply Returning_Mono. eapply Mono_weaken; [| | exact Hm]; auto.
    intros x Hx. left. now left. }
  assert (Herr : forall b text, In text check_texts ->
                   Returning (scope_note_or_check e) is_verbose e
                     (when b (Model.error_at tu c text))).
  { intros b text Hin. apply Returning_Mono, Mono_when, Mono_report. right. exact Hin. }
  apply Returning_bind; [apply Hside, Mono_CursorObject__init__ | intros attributes].
  cbv zeta.
  apply Returning_bind; [apply Herr; simpl; auto | intros _].
  apply Returning_bind; [apply Herr; simpl; auto | intros _].
  apply Returning_bind; [apply Herr; simpl; auto | intros _].
  apply Returning_bind; [apply Hside, Mono_is_abi_safe_type | intros safe].
  apply Returning_bind; [apply Herr; simpl; auto | intros _].
  apply Returning_bind; [apply Herr; simpl; auto 6 | intros _].
  apply Returning_bind; [| intros; apply Hside, Mono_ret].
  eapply Returning_weaken; [| | apply Returning_build_parameters; exact He]; auto.
  intros x Hx. left. exact Hx.
Qed.

End ReturningFacts.

(** X27.  A parameter is built only when its checks leave its
    ["checking ABI safety"] scope valid.  When [Parameter.__init__]
    returns (and the error level is above [VERBOSE]), all it has added to
    the reporter of the method are side notes and the message of that
    scope at a level below the error level; it has added only verbose
    lines to the reporters below, and the configured levels are as
    before. *)
Theorem Parameter_scope_below_error_level
    (tu : Clang.TranslationUnit) (depth : nat) (h : Extract.Hierarchy) (c : Clang.Cursor)
    (index : nat) (r r' : Diagnostics.Reporter) (p : Model.Param) :
  Model.Parameter__init__ tu depth h c index r = (Returns p, r') ->
  Diagnostics.level_lt Diagnostics.VERBOSE (Diagnostics.diagnostic_error_level r) = true ->
  (exists added,
     Diagnostics.diagnostics r' = Diagnostics.diagnostics r ++ added
     /\ Forall (InterfaceNotions.scope_note (Diagnostics.diagnostic_error_level r)) added)
  /\ Forall2 (Run.grown Report.is_verbose) (Diagnostics.parents r) (Diagnostics.parents r')
  /\ Diagnostics.diagnostic_log_level r' = Diagnostics.diagnostic_log_level r
  /\ Diagnostics.diagnostic_error_level r' = Diagnostics.diagnostic_error_level r.
Proof.
  intros H He.
  pose proof (Returning_Parameter__init__ tu depth h c index _ He r p r' eq_refl H) as Hext.
  split; [eapply extends_diagnostics; exact Hext |].
  split; [exact (proj2 Hext) |].
  split; [eapply extends_log_level | eapply extends_error_level]; exact Hext.
Qed.

(** A parameter [int count], with a reporter that logs verbose lines:
    the scope is handed over as a verbose line. *)
Lemma Parameter_scope_below_error_level_witness :
  exists added,
    Diagnostics.diagnostics
      (snd (Model.Parameter__init__ SampleParameter.declarations 8 SampleParameter.no_classes
              SampleParameter.count 0 (Diagnostics.text_reporter (Some Diagnostics.VERBOSE))))
    = Diagnostics.diagnostics (Diagnostics.text_reporter (Some Diagnostics.VERBOSE)) ++ added
    /\ Forall (InterfaceNotions.scope_note Diagnostics.ERROR) added.
Proof.
  destruct (Model.Parameter__init__ SampleParameter.declarations 8 SampleParameter.no_classes
              SampleParameter.count 0 (Diagnostics.text_reporter (Some Diagnostics.VERBOSE)))
    as [[p | e] r'] eqn:E.
  2: { vm_compute in E. discriminate E. }
  destruct (Parameter_scope_below_error_level SampleParameter.declarations 8
              SampleParameter.no_classes SampleParameter.count 0
              (Diagnostics.text_reporter (Some Diagnostics.VERBOSE)) r' p E eq_refl)
    as (H & _).
  exact H.
Defined.

(** ** The diagnostics of an interface *)

Section InterfaceDiagnostics.
Import Diagnostics Clang Run Extract Report Interfaces InterfaceNotions.

Variable tu : TranslationUnit.
Variable depth : nat.
Variable h : Hierarchy.

Lemma Mono_Method__init__ c : Mono anything is_verbose (Model.Method__init__ tu depth h c).
Proof.
  unfold Model.Method__init__.
  apply Mono_bind; [apply Mono_anything, Mono_CursorObject__init__ | intros attributes].
  cbv zeta.
  apply Mono_bind; [apply Mono_when, Mono_error_at | intros _].
  apply Mono_bind; [apply Mono_when, Mono_error_at | intros _].
  apply Mono_bind; [apply Mono_when, Mono_error_at | intros _].
  apply Mono_bind; [apply Mono_anything, Mono_is_abi_safe_type | intros safe].
  apply Mono_bind; [apply Mono_when, Mono_error_at | intros _].
  apply Mono_bind; [apply Mono_when, Mono_error_at | intros _].
  apply Mono_bind; [| intros; apply Mono_ret].
  eapply Mono_weaken; [| | apply Mono_build_parameters]; auto using anything_I.
Qed.

(** What one method adds: side notes and the errors of the checks it
    fails, each of them. *)
Lemma Forall_both {A} (P Q : A -> Prop) l : Forall P l -> Forall Q l -> Forall (fun x => P x /\ Q x) l.
Proof. intros HP. induction HP; intros HQ; inversion HQ; subst; constructor; auto. Qed.

Lemma Method__init___beside_or_failed c r0 m r1 r :
  Model.Method__init__ tu depth h c r0 = (Returns m, r1) ->
  level_lt ERROR (diagnostic_log_level r0) = false ->
  exists l,
    diagnostics r1 = diagnostics r0 ++ l
    /\ (forall x, failed_check tu depth h r m x -> In x l)
    /\ Forall (fun x => beside x \/ failed_check tu depth h r m x) l
    /\ diagnostic_log_level r1 = diagnostic_log_level r0.
Proof.
  intros H Hlog.
  destruct (Method__init___diagnostics tu depth h c r0 m r1 H Hlog)
    as (safe & l_attr & l_safe & l_params & Hsafe & _ & Hd & Fa & Fs & Fp).
  destruct (Mono_returns _ _ _ _ _ _ (Mono_Method__init__ c) H) as (_ & Hl).
  destruct (Method__init___cursor tu depth h c r0 m r1 H) as (Hc & _).
  eexists. split; [exact Hd |]. split; [| split; [| exact Hl]].
  - intros x Hx. unfold failed_check in Hx. rewrite Hc in Hx. rewrite Hsafe in Hx.
    rewrite !in_app_iff, !In_opt, !negb_true_iff.
    destruct Hx as [(-> & Hx) | [(-> & Hx) | [(-> & Hx) | [(-> & Hx) | (-> & Hx)]]]].
    + right. left. auto.
    + right. right. left. auto.
    + right. right. right. left. auto.
    + right. right. right. right. right. left. injection Hx as ->. auto.
    + right. right. right. right. right. right. left. auto.
  - assert (Hb : forall l, Forall beside l ->
                           Forall (fun x => beside x \/ failed_check tu depth h r m x) l)
      by (intros l Hl'; eapply Forall_impl; [exact Hl' | intros; left; assumption]).
    assert (Ho : forall b text,
               (b = true -> failed_check tu depth h r m (err tu c text)) ->
               Forall (fun x => beside x \/ failed_check tu depth h r m x)
                      (opt b (err tu c text))).
    { intros [|] text Hf; simpl; [| constructor].
      constructor; [right; auto | constructor]. }
    repeat apply Forall_app_2; auto.
    + apply Ho. rewrite negb_true_iff. intros Hx. unfold failed_check. rewrite Hc. auto.
    + apply Ho. rewrite negb_true_iff. intros Hx. unfold failed_check. rewrite Hc. auto.
    + apply Ho. rewrite negb_true_iff. intros Hx. unfold failed_check. rewrite Hc. auto.
    + apply Ho. rewrite negb_true_iff. intros Hx. unfold failed_check. rewrite Hc, Hsafe, Hx.
      auto 6.
    + apply Ho. rewrite negb_true_iff. intros Hx. unfold failed_check. rewrite Hc. auto 6.
Qed.

(** What one method adds: side notes, the scopes of its parameters
    below the error level, and the errors of the checks it fails, each
    of them. *)
Lemma Method__init___failed_checks c r0 m r1 r :
  Model.Method__init__ tu depth h c r0 = (Returns m, r1) ->
  level_lt ERROR (diagnostic_log_level r0) = false ->
  level_lt VERBOSE (diagnostic_error_level r0) = true ->
  exists l,
    diagnostics r1 = diagnostics r0 ++ l
    /\ (forall x, failed_check tu depth h r m x -> In x l)
    /\ Forall (fun x => scope_note (diagnostic_error_level r0) x
                        \/ failed_check tu depth h r m x) l
    /\ diagnostic_log_level r1 = diagnostic_log_level r0
    /\ diagnostic_error_level r1 = diagnostic_error_level r0.
Proof.
  intros H Hlog He.
  destruct (Method__init___beside_or_failed c r0 m r1 r H Hlog) as (l & Hd & Hin & Hall & Hl).
  pose proof (Returning_Method__init__ tu depth h c _ He r0 m r1 eq_refl H) as Hext.
  destruct (extends_diagnostics _ _ _ _ Hext) as (l' & Hd' & Hall').
  rewrite Hd in Hd'. apply app_inv_head in Hd'. subst l'.
  exists l. split; [exact Hd |]. split; [exact Hin |].
  split; [| split; [exact Hl | eapply extends_error_level; exact Hext]].
  eapply Forall_impl; [apply (Forall_both _ _ _ Hall Hall') |].
  intros x ([[Hs | Hc] | Hf] & Hn); [left; left; exact Hs | | right; exact Hf].
  destruct Hn as [Hn | Hn]; [left; exact Hn |].
  rewrite Hc in Hn. simpl in Hn.
  repeat (destruct Hn as [Hn | Hn]; [discriminate Hn |]). destruct Hn.
Qed.

Lemma build_methods_failed_checks children acc r0 ms r1 r :
  build_methods tu depth h children acc r0 = (Returns ms, r1) ->
  level_lt ERROR (diagnostic_log_level r0) = false ->
  level_lt VERBOSE (diagnostic_error_level r0) = true ->
  exists l new,
    ms = acc ++ new
    /\ diagnostics r1 = diagnostics r0 ++ l
    /\ (forall m x, In m new -> failed_check tu depth h r m x -> In x l)
    /\ Forall (fun x => scope_note (diagnostic_error_level r0) x
                        \/ exists m, In m new /\ failed_check tu depth h r m x) l
    /\ diagnostic_log_level r1 = diagnostic_log_level r0
    /\ diagnostic_error_level r1 = diagnostic_error_level r0.
Proof.
  revert acc r0. induction children as [| child rest IH]; intros acc r0.
  - intros [= <- <-] _ _. exists [], []. rewrite !app_nil_r.
    split; [reflexivity |]. split; [reflexivity |].
    split; [intros ? ? [] |]. split; [constructor | split; reflexivity].
  - cbn [build_methods].
    destruct (cursor_kind_eqb CXX_METHOD (kind (cursor tu child))); [| apply IH].
    intros H Hlog He. apply bind_returns in H as (m & r2 & Hm & H).
    destruct (Method__init___failed_checks child r0 m r2 r Hm Hlog He)
      as (l1 & Hd1 & Hin1 & Hall1 & Hl1 & He1).
    rewrite <- Hl1 in Hlog. rewrite <- He1 in He.
    destruct (IH _ _ H Hlog He) as (l2 & new & -> & Hd2 & Hin2 & Hall2 & Hl2 & He2).
    rewrite He1 in Hall2.
    exists (l1 ++ l2), (m :: new).
    split; [now rewrite <- app_assoc |].
    split; [now rewrite Hd2, Hd1, <- app_assoc |].
    split; [| split; [| split; congruence]].
    + intros m' x [<- | Hin] Hx; apply in_app_iff; [left; auto | right; eauto].
    + apply Forall_app_2.
      * eapply Forall_impl; [exact Hall1 |]. intros x [Hx | Hx]; [left; exact Hx |].
        right. exists m. split; [left; reflexivity | exact Hx].
      * eapply Forall_impl; [exact Hall2 |]. intros x [Hx | (m' & Hin & Hx)]; [left; exact Hx |].
        right. exists m'. split; [right; exact Hin | exact Hx].
Qed.

End InterfaceDiagnostics.

(** X28.  With a log level that lets errors through and an error level
    above [VERBOSE], the diagnostics a returning [Interface.__init__]
    has added hold the error of every check that a method of the
    interface fails, and beside these errors only side notes (verbose
    lines, warnings, the error of a repeated [OMNI_ATTR]) and the
    ["checking ABI safety"] scopes of the parameters at a level below the
    error level. *)
Theorem Interface_reports_failed_checks
    (tu : Clang.TranslationUnit) (depth : nat) (h : Extract.Hierarchy) (c : Clang.Cursor)
    (r r' : Diagnostics.Reporter) (i : Interfaces.Interface) :
  Interfaces.Interface__init__ tu depth h c r = (Returns i, r') ->
  Diagnostics.level_lt Diagnostics.ERROR (Diagnostics.diagnostic_log_level r) = false ->
  Diagnostics.level_lt Diagnostics.VERBOSE (Diagnostics.diagnostic_error_level r) = true ->
  exists added,
    Diagnostics.diagnostics r' = Diagnostics.diagnostics r ++ added
    /\ (forall m x, In m (Interfaces.methods i) ->
                    InterfaceNotions.failed_check tu depth h r m x -> In x added)
    /\ Forall (fun x => InterfaceNotions.scope_note (Diagnostics.diagnostic_error_level r) x
                        \/ exists m, In m (Interfaces.methods i)
                                     /\ InterfaceNotions.failed_check tu depth h r m x)
              added.
Proof.
  intros H Hlog He.
  apply Interface__init___steps in H
    as (attributes & r1 & names & ms & r2 & chain & r3 & props & Ha & _ & Hm & Hc & Hp & ->).
  simpl.
  pose proof (Mono_CursorObject__init__ tu c r) as X1. rewrite Ha in X1. simpl in X1.
  destruct (extends_diagnostics _ _ _ _ X1) as (l1 & Hd1 & F1).
  rewrite <- (extends_log_level _ _ _ _ X1) in Hlog.
  rewrite <- (extends_error_level _ _ _ _ X1) in He.
  destruct (build_methods_failed_checks tu depth h _ _ _ _ _ r Hm Hlog He)
    as (l2 & new & -> & Hd2 & Hin2 & F2 & L2 & E2).
  rewrite (extends_error_level _ _ _ _ X1) in F2.
  destruct (Mono_returns _ _ _ _ _ _ (Mono__get_hierarchy tu h depth c []) Hc)
    as ((l3 & Hd3 & F3) & L3).
  destruct (build_properties_entered new [] [] r3) as (props' & Hrun & _).
  { split; [constructor | reflexivity]. }
  simpl in Hp. rewrite Hrun in Hp. injection Hp as _ <-.
  exists (l1 ++ l2 ++ l3). split; [now rewrite Hd3, Hd2, Hd1, <- !app_assoc |]. split.
  - intros m x Hin Hx. rewrite !in_app_iff. right. left. eauto.
  - repeat apply Forall_app_2.
    + eapply Forall_impl; [exact F1 | intros; left; left; assumption].
    + exact F2.
    + eapply Forall_impl; [exact F3 | intros; left; left; assumption].
Qed.

(** On the sample header, [IFoo_abi] gives the interface [IFoo]. *)
Lemma Interface_names_witness :
  exists i,
    fst (Interfaces.Interface__init__ Sample.header 8 Sample.header_hierarchy Sample.IFoo_abi
           Diagnostics.default_reporter) = Returns i
    /\ Interfaces.abi_name i = "IFoo_abi"
    /\ exists rest, "IFoo_abi" = (Interfaces.name i ++ "_abi" ++ rest)%string.
Proof.
  destruct (Interfaces.Interface__init__ Sample.header 8 Sample.header_hierarchy
              Sample.IFoo_abi Diagnostics.default_reporter) as [[i | e] r'] eqn:E.
  2: { vm_compute in E. discriminate E. }
  exists i. split; [reflexivity |].
  destruct (Interface_names Sample.header 8 Sample.header_hierarchy Sample.IFoo_abi
              Diagnostics.default_reporter r' i E) as (_ & H & _).
  destruct (H eq_refl) as (Ha & Hr & _).
  split; [exact Ha | exact Hr].
Defined.

(** On the sample header, the three member functions of [IFoo_abi] are
    its methods. *)
Lemma Interface_methods_witness :
  exists i,
    fst (Interfaces.Interface__init__ Sample.header 8 Sample.header_hierarchy Sample.IFoo_abi
           Diagnostics.default_reporter) = Returns i
    /\ Model.method_cursor <$> Interfaces.methods i
       = [Sample.getBar_abi; Sample.copyBar_abi; Sample.getBar].
Proof.
  destruct (Interfaces.Interface__init__ Sample.header 8 Sample.header_hierarchy
              Sample.IFoo_abi Diagnostics.default_reporter) as [[i | e] r'] eqn:E.
  2: { vm_compute in E. discriminate E. }
  exists i. split; [reflexivity |].
  destruct (Interface_methods Sample.header 8 Sample.header_hierarchy Sample.IFoo_abi
              Diagnostics.default_reporter r' i E) as (H & _).
  exact H.
Defined.

(** On the sample header, for the interface [IFoo]. *)
Lemma Interface_properties_witness :
  exists i,
    fst (Interfaces.Interface__init__ Sample.header 8 Sample.header_hierarchy Sample.IFoo_abi
           Diagnostics.default_reporter) = Returns i
    /\ List.NoDup (fst <$> Interfaces.properties i).
Proof.
  destruct (Interfaces.Interface__init__ Sample.header 8 Sample.header_hierarchy
              Sample.IFoo_abi Diagnostics.default_reporter) as [[i | e] r'] eqn:E.
  2: { vm_compute in E. discriminate E. }
  exists i. split; [reflexivity |].
  destruct (Interface_properties Sample.header 8 Sample.header_hierarchy Sample.IFoo_abi
              Diagnostics.default_reporter r' i E) as (H & _).
  exact H.
Defined.

(** On the sample header, for the interface [IFoo]. *)
Lemma Interface__init___returns_witness :
  exists i,
    fst (Interfaces.Interface__init__ Sample.header 8 Sample.header_hierarchy Sample.IFoo_abi
           Diagnostics.default_reporter) = Returns i
    /\ Interfaces.interface_attributes i = Attr.Attributes_None.
Proof.
  set (r1 := snd (Model.CursorObject__init__ Sample.header Sample.IFoo_abi
                    Diagnostics.default_reporter)).
  set (built := Interfaces.build_methods Sample.header 8 Sample.header_hierarchy
                  (Clang.get_children (Clang.cursor Sample.header Sample.IFoo_abi)) [] r1).
  set (ms := match fst built with Returns ms => ms | Raises _ => [] end).
  set (r3 := snd (Extract.get_hierarchy Sample.header 8 Sample.header_hierarchy Sample.IFoo_abi
                    (snd built))).
  destruct (Interface__init___returns Sample.header 8 Sample.header_hierarchy Sample.IFoo_abi
              Diagnostics.default_reporter r1 (snd built) r3 Attr.Attributes_None ms
              [Sample.IFoo_abi; Sample.Wrapper_IObject_abi; Sample.IObject_abi])
    as (i & Hi & _ & Ha).
  - vm_compute. reflexivity.
  - vm_compute. reflexivity.
  - vm_compute. reflexivity.
  - exists i. rewrite Hi. split; [reflexivity | exact Ha].
Defined.

(** On the sample header, [getBar] is not pure virtual. *)
Lemma Interface_reports_failed_checks_witness :
  exists added,
    Diagnostics.diagnostics
      (snd (Interfaces.Interface__init__ Sample.header 8 Sample.header_hierarchy
              Sample.IFoo_abi Diagnostics.default_reporter))
    = Diagnostics.diagnostics Diagnostics.default_reporter ++ added
    /\ In (Report.err Sample.header Sample.getBar "method must be pure virtual") added.
Proof.
  destruct (Interfaces.Interface__init__ Sample.header 8 Sample.header_hierarchy
              Sample.IFoo_abi Diagnostics.default_reporter) as [[i | e] r'] eqn:E.
  2: { vm_compute in E. discriminate E. }
  destruct (Interface_reports_failed_checks Sample.header 8 Sample.header_hierarchy
              Sample.IFoo_abi Diagnostics.default_reporter r' i E eq_refl eq_refl)
    as (added & Hd & Hin & _).
  exists added. split; [exact Hd |].
  destruct (Interface_methods_cursor_in Sample.header 8 Sample.header_hierarchy Sample.IFoo_abi
              Diagnostics.default_reporter i r' Sample.getBar E) as (m & Hm & Hc).
  { vm_compute. auto. }
  apply (Hin m); [exact Hm |].
  right. left. rewrite Hc. split; reflexivity.
Defined.

(** ** The index of class definitions *)

Section HierarchyIndexFacts.
Import Diagnostics Clang Run Extract HierarchyNotions.

Variable tu : TranslationUnit.

Lemma for_each_report_returns {A} (l : list A) lvl (src : A -> option SourceLocation)
    (text : A -> string) r :
  exists r', for_each l (fun x => report lvl (src x) (text x)) r = (Returns tt, r').
Proof.
  revert r. induction l as [| x l IH]; intros r; simpl; [eauto |].
  unfold bind. destruct (report_returns lvl (src x) (text x) r) as (r1 & ->). apply IH.
Qed.

Lemma with_nest_returns {A} lvl src text (body : M A) r a sub' :
  body (nest_message (MkDiagnosticMessage lvl src text []) r) = (Returns a, sub') ->
  exists r', with_nest lvl src text body r = (Returns a, r').
Proof.
  intros E. unfold with_nest. rewrite E.
  destruct (block_exit None sub') as [[[? ?] parent] |]; eauto.
Qed.

Lemma _index_declaration_returns hierarchy d r :
  exists r',
    _index_declaration tu hierarchy d r
    = (Returns (if is_definition d
                then {| _usr2info := <[get_usr (cursor tu (decl_cursor d)) := recorded tu d]>
                                       (_usr2info hierarchy) |}
                else hierarchy), r').
Proof.
  unfold _index_declaration, verbose.
  unfold bind at 1.
  destruct (emit_returns VERBOSE (source_of tu (decl_cursor d)) (decl_text d) r)
    as (res & r1 & ->).
  destruct (is_definition d); simpl; [| eauto].
  unfold add, recorded.
  destruct (cxx_class_decl_info d) as [class_bases |]; [| unfold bind, ret; eauto].
  unfold bind at 1.
  match goal with |- context [with_nest _ _ _ ?b _] => set (body := b) end.
  set (sub := nest_message
                (MkDiagnosticMessage VERBOSE (source_of tu (decl_cursor d)) "Bases" []) r1).
  destruct (for_each_report_returns class_bases VERBOSE (source_of tu)
              (fun base => ("base:" ++ displayname (cursor tu base) ++ " canonical_usr:"
                 ++ get_usr (cursor tu (get_declaration
                                          (type (cursor tu (canonical (cursor tu base)))))))%string)
              sub) as (sub' & Hloop).
  assert (Hb : exists a, body sub = (Returns a, sub')
                 /\ a = (fun base => get_declaration (type (cursor tu (canonical (cursor tu base)))))
                          <$> class_bases).
  { unfold body, bind. rewrite Hloop. eexists. split; reflexivity. }
  destruct Hb as (a & Hb & ->).
  destruct (with_nest_returns _ _ _ body r1 _ _ Hb) as (r2 & ->).
  unfold ret. eauto.
Qed.

Lemma index_lookup decls hierarchy r :
  exists h' r',
    index tu decls hierarchy r = (Returns h', r')
    /\ forall usr,
         _usr2info h' !! usr
         = match last (List.filter (defines tu usr) decls) with
           | Some d => Some (recorded tu d)
           | None => _usr2info hierarchy !! usr
           end.
Proof.
  revert hierarchy r. induction decls as [| d rest IH]; intros hierarchy r.
  - exists hierarchy, r. split; reflexivity.
  - cbn [index]. unfold bind.
    destruct (_index_declaration_returns hierarchy d r) as (r1 & ->).
    destruct (IH (if is_definition d
                  then {| _usr2info := <[get_usr (cursor tu (decl_cursor d)) := recorded tu d]>
                                         (_usr2info hierarchy) |}
                  else hierarchy) r1) as (h' & r' & -> & Hlook).
    exists h', r'. split; [reflexivity |]. intros usr. rewrite Hlook.
    cbn [List.filter]. unfold defines at 2.
    destruct (is_definition d); simpl.
    + destruct (String.eqb_spec (get_usr (cursor tu (decl_cursor d))) usr) as [<- | Hne].
      * rewrite last_cons. destruct (last _); [reflexivity |]. now rewrite lookup_insert_eq.
      * destruct (last _); [reflexivity |]. now rewrite lookup_insert_ne.
    + reflexivity.
Qed.

End HierarchyIndexFacts.

(** X29.  Building the hierarchy never raises, and the hierarchy holds an
    entry for exactly the USRs of the declarations indexed as
    definitions: the entry of a USR is what the last definition with
    that USR records; declarations that are not definitions leave no
    entry. *)
Theorem Hierarchy__init___records_definitions
    (tu : Clang.TranslationUnit) (decls : list Extract.DeclInfo) (r : Diagnostics.Reporter) :
  exists h r',
    Extract.Hierarchy__init__ tu decls r = (Returns h, r')
    /\ forall usr,
         Extract._usr2info h !! usr
         = HierarchyNotions.recorded tu
             <$> last (List.filter (HierarchyNotions.defines tu usr) decls).
Proof.
  unfold Extract.Hierarchy__init__.
  destruct (index_lookup tu decls {| Extract._usr2info := ∅ |} r) as (h & r' & E & Hlook).
  exists h, r'. split; [exact E |]. intros usr. rewrite Hlook.
  destruct (last _); [reflexivity | apply lookup_empty].
Qed.
